(** * gitupdt: update detection and reconciliation

    A shallow embedding of [gitupdt/gitupdt.py] and the properties of its
    version-tag index, divergence detector, menu builder, reconciliation
    engine and dependency-manifest diff reporter. *)

From Stdlib Require Import Strings.Ascii NArith.
From stdpp Require Import base list strings sorting pretty.

(** ** Python's [list.sort] / [sorted]

    CPython sorts stably and compares keys with [<] only.  With
    [reverse=True] the list is reversed, sorted stably and reversed again,
    which is what keeps equal keys in their original order. *)

Section py_sort.
Context {A K : Type} (key : A → K) (ltb : K → K → bool).

Fixpoint insert_stable (x : A) (l : list A) : list A :=
  match l with
  | [] => [x]
  | y :: l' =>
      if ltb (key y) (key x) then y :: insert_stable x l' else x :: y :: l'
  end.

Fixpoint stable_sort (l : list A) : list A :=
  match l with
  | [] => []
  | x :: l' => insert_stable x (stable_sort l')
  end.

Definition list_sort (rev_flag : bool) (l : list A) : list A :=
  if rev_flag then reverse (stable_sort (reverse l)) else stable_sort l.

End py_sort.

(** [sorted(deps)] on a list of [str]: code-point order, which on UTF-8
    encoded strings is the byte-wise lexicographic order. *)
Definition sorted_str (l : list string) : list string :=
  list_sort id String.ltb false l.

(** What the sort needs of [<]: a strict weak order. *)
Class StrictWeak {K : Type} (ltb : K → K → bool) : Prop := {
  sw_asym : ∀ a b, ltb a b = true → ltb b a = false;
  sw_negtrans : ∀ a b c, ltb a b = false → ltb b c = false → ltb a c = false
}.

(** Truthiness of a [str] and of an optional [str] ([None] or [""] is false). *)
Definition truthy (s : string) : bool := negb (String.eqb s "").

Definition truthy_opt (o : option string) : bool :=
  match o with
  | Some s => truthy s
  | None => false
  end.

(** ** [get_sorted_tags]

    [packaging.version] is an external library: [parse] stands for
    [version.parse] ([None] for [InvalidVersion]) and [vltb] for [<] on
    [Version] objects. *)

Section version_index.
Context {V : Type} (parse : string → option V) (vltb : V → V → bool).

(** the [for tag in all_tags: try ... valid_tags.append((tag, v))] loop *)
Definition collect_valid (all_tags : list string) : list (string * V) :=
  foldl (λ valid_tags tag,
           match parse tag with
           | Some v => valid_tags ++ [(tag, v)]
           | None => valid_tags
           end) [] all_tags.

Definition get_sorted_tags (all_tags : list string) : list string :=
  let valid_tags := collect_valid all_tags in
  let valid_tags := list_sort snd vltb true valid_tags in
  fst <$> valid_tags.

(** [version.parse(a) > version.parse(b)]; [None] when either raises *)
Definition version_gt (a b : string) : option bool :=
  va ← parse a; vb ← parse b; Some (vltb vb va).

Definition is_valid (tag : string) : Prop := is_Some (parse tag).

(** [a] may stand directly before [b] in a descending sequence *)
Definition not_older (a b : string) : Prop :=
  ∃ va vb, parse a = Some va ∧ parse b = Some vb ∧ vltb va vb = false.

(** [a] is strictly newer than [b] *)
Definition strictly_newer (a b : string) : Prop :=
  ∃ va vb, parse a = Some va ∧ parse b = Some vb ∧ vltb vb va = true.

(** [tag] parses to a version that compares equal to [v] *)
Definition same_version (v : V) (tag : string) : bool :=
  match parse tag with
  | Some w => negb (vltb w v) && negb (vltb v w)
  | None => false
  end.

End version_index.

(** ** A concrete fragment of [packaging.version]

    Release-only versions [v?N(.N)*].  For these, [Version._key] differs
    only in the release tuple with its trailing zeros dropped, and tuples
    compare lexicographically.  Any other string is treated as not parsing;
    that is exact for names that do not start with a digit (or [v] and a
    digit), and the fragment is only used on such names and on release-only
    versions. *)

Module Pep440.

Definition digit_of (c : ascii) : option N :=
  let n := N_of_ascii c in
  if (48 <=? n)%N && (n <=? 57)%N then Some (n - 48)%N else None.

Fixpoint number_go (acc : N) (s : string) : option N :=
  match s with
  | EmptyString => Some acc
  | String c s' => d ← digit_of c; number_go (10 * acc + d)%N s'
  end.

(** [int(component)], at least one digit *)
Definition number (s : string) : option N :=
  match s with
  | EmptyString => None
  | _ => number_go 0 s
  end.

Fixpoint split_dots (cur : string) (s : string) : list string :=
  match s with
  | EmptyString => [String.rev cur]
  | String c s' =>
      if Ascii.eqb c "."%char then String.rev cur :: split_dots "" s'
      else split_dots (String c cur) s'
  end.

Definition strip_v (s : string) : string :=
  match s with
  | String c s' => if Ascii.eqb c "v"%char then s' else s
  | EmptyString => s
  end.

Fixpoint drop_trailing_zeros (l : list N) : list N :=
  match l with
  | [] => []
  | x :: l' =>
      match drop_trailing_zeros l' with
      | [] => if (x =? 0)%N then [] else [x]
      | r => x :: r
      end
  end.

Definition parse (s : string) : option (list N) :=
  drop_trailing_zeros <$> mapM number (split_dots "" (strip_v s)).

(** tuple comparison *)
Fixpoint ltb (a b : list N) : bool :=
  match a, b with
  | _, [] => false
  | [], _ :: _ => true
  | x :: a', y :: b' =>
      if (x <? y)%N then true else if (y <? x)%N then false else ltb a' b'
  end.

End Pep440.

(** ** The world [perform_update] runs in *)

(** Calls [perform_update] makes through [repo.git]. *)
Inductive GitCmd :=
| GitCheckout (target : string)      (* repo.git.checkout(target) *)
| GitFetch                           (* repo.git.fetch() *)
| GitResetHard (ref : string)        (* repo.git.reset('--hard', ref) *)
| GitPull                            (* repo.git.pull() *)
| GitGcAuto.                         (* repo.git.gc('--auto') *)

Inductive Exn :=
| GitCommandError (c : GitCmd)
| ReadError                          (* an exception that is not an IOError *)
| RepoError.                         (* raised while the repository is queried *)

(** What a run prints and what [perform_update] sends to git, in order. *)
Inductive Event :=
| EvGit (c : GitCmd)                 (* the command ran *)
| EvGitFailed (c : GitCmd)           (* the command raised *)
| EvPrint (text : string)            (* print(text) *)
| EvDiff (fromfile tofile : string) (a b : list string)
                                     (* the lines of difflib.unified_diff(a, b, ...) printed *)
| EvInstallRequirementsUv            (* install_requirements_uv(repo) *)
| EvInstallRequirements              (* install_requirements(repo, reqs_path) *)
| EvReportError (prefix : string) (e : Exn).
                                     (* print(f"{prefix}{e}") *)

(** [pyproject.toml] as [perform_update] can find it. [PyDeps deps]: the
    file loads and [data.get('project', {}).get('dependencies', [])] is the
    list [deps]; [PyUnreadable]: it is a file but opening, parsing or
    sorting raises. *)
Inductive PyprojectFile :=
| PyAbsent
| PyUnreadable
| PyDeps (deps : list string).

(** [requirements.txt] as [perform_update] can find it. [ReqsOtherError]:
    reading raises something that is not an [IOError], as
    [UnicodeDecodeError] is. *)
Inductive ReqsFile :=
| ReqsAbsent
| ReqsIOError
| ReqsOtherError
| ReqsLines (lines : list string).

(** Return value of [install_requirements_uv]. *)
Inductive UvResult :=
| UvSync                             (* "sync" *)
| UvRequirements                     (* "requirements" *)
| UvCancelled.                       (* None *)

(** The dict a menu choice carries: [{'action': ..., 'target': ...}]. *)
Record Selection := mkSelection {
  sel_action : string;
  sel_target : string
}.

Record Env := mkEnv {
  uv_installed : bool;               (* shutil.which('uv') is not None *)
  pyproject_before : PyprojectFile;  (* before the git operations *)
  pyproject_after : PyprojectFile;   (* after them *)
  reqs_before : ReqsFile;
  reqs_after : ReqsFile;
  (** does the command succeed, given the commands that ran before it *)
  git_ok : list GitCmd → GitCmd → bool;
  uv_result : UvResult
}.

(** ** A state and exception monad over the event trace *)

Inductive Res (A : Type) :=
| Ok (a : A)
| Raise (e : Exn).
Arguments Ok {A} a.
Arguments Raise {A} e.

Definition M (A : Type) : Type := list Event → Res A * list Event.

Definition ret {A} (a : A) : M A := λ tr, (Ok a, tr).

Definition bind {A B} (m : M A) (k : A → M B) : M B :=
  λ tr, match m tr with
        | (Ok a, tr') => k a tr'
        | (Raise e, tr') => (Raise e, tr')
        end.

Definition raise {A} (e : Exn) : M A := λ tr, (Raise e, tr).

(** [try: m  except Exception: handler] *)
Definition try_except {A} (m : M A) (handler : Exn → M A) : M A :=
  λ tr, match m tr with
        | (Ok a, tr') => (Ok a, tr')
        | (Raise e, tr') => handler e tr'
        end.

Definition emit (e : Event) : M unit := λ tr, (Ok tt, tr ++ [e]).

Definition print (text : string) : M unit := emit (EvPrint text).

Declare Scope py_scope.
Delimit Scope py_scope with py.
Notation "x <- m ;; k" := (bind m (λ x, k))
  (at level 100, m at next level, right associativity) : py_scope.
Notation "m ;; k" := (bind m (λ _, k))
  (at level 100, right associativity) : py_scope.

Definition git_history (tr : list Event) : list GitCmd :=
  omap (λ e, match e with EvGit c => Some c | _ => None end) tr.

(** every git command attempted, whether it ran or raised *)
Definition git_attempts (tr : list Event) : list GitCmd :=
  omap (λ e, match e with
             | EvGit c | EvGitFailed c => Some c
             | _ => None
             end) tr.

Definition git (env : Env) (c : GitCmd) : M unit :=
  λ tr, if git_ok env (git_history tr) c
        then (Ok tt, tr ++ [EvGit c])
        else (Raise (GitCommandError c), tr ++ [EvGitFailed c]).

Definition nl : string := String "010"%char "".

(** ** [perform_update] *)

Local Open Scope py_scope.

(** lines 217-229: the sorted dependency array, or [None] *)
Definition snapshot_pyproject_before (env : Env) : option (list string) :=
  let isfile := match pyproject_before env with PyAbsent => false | _ => true end in
  if uv_installed env && isfile then
    match pyproject_before env with
    | PyDeps deps => Some (sorted_str deps)
    | _ => None                       (* except Exception: pass *)
    end
  else None.

(** lines 286-293 *)
Definition snapshot_pyproject_after (env : Env) : option (list string) :=
  match pyproject_after env with
  | PyDeps deps => Some (sorted_str deps)
  | _ => None                         (* except Exception: pass *)
  end.

(** lines 232-239 and 315-321: [[]] unless the file exists and can be read *)
Definition read_reqs (f : ReqsFile) : M (list string) :=
  match f with
  | ReqsAbsent => ret []              (* os.path.exists is false *)
  | ReqsIOError => ret []             (* except IOError: pass *)
  | ReqsOtherError => raise ReadError
  | ReqsLines lines => ret lines
  end.

(** lines 242-277; [false] for the final [else: return] *)
Definition git_operations (env : Env) (action target : string) (reset : bool)
    : M bool :=
  if String.eqb action "checkout" then
    print ("Checking out tag '" +:+ target +:+ "'...");;
    (if reset then
       git env (GitCheckout target);;
       try_except
         (git env GitFetch;;
          git env (GitResetHard ("origin/" +:+ target)))
         (λ _, git env (GitResetHard target));;
       print ("Done: Reset to " +:+ target +:+ ".")
     else
       git env (GitCheckout target);;
       print ("Done: Switched to " +:+ target +:+ "."));;
    ret true
  else if String.eqb action "pull" then
    print ("Pulling branch '" +:+ target +:+ "'...");;
    (if reset then
       git env GitFetch;;
       git env (GitResetHard ("origin/" +:+ target));;
       print "Done: Reset to the latest remote state."
     else
       git env GitPull;;
       print "Done: Updated to the latest state.");;
    ret true
  else if String.eqb action "checkout_pull" then
    print ("Checking out and pulling branch '" +:+ target +:+ "'...");;
    git env (GitCheckout target);;
    (if reset then
       git env (GitResetHard ("origin/" +:+ target));;
       print ("Done: Reset " +:+ target +:+ " to the latest remote state.")
     else
       git env GitPull;;
       print ("Done: Updated " +:+ target +:+ " to the latest state."));;
    ret true
  else ret false.

(** [install_requirements_uv(repo)]: the installer front end, seen as one
    event; only its return value matters to the engine *)
Definition install_requirements_uv (env : Env) : M UvResult :=
  emit EvInstallRequirementsUv;; ret (uv_result env).

Definition install_requirements : M unit := emit EvInstallRequirements.

(** lines 284-312; [false] for the [return] of line 312 *)
Definition report_pyproject (env : Env) (before_deps : option (list string))
    : M bool :=
  match before_deps with
  | Some before_deps =>
      let after_deps := snapshot_pyproject_after env in
      match after_deps with
      | Some after_deps =>
          if bool_decide (before_deps ≠ after_deps) then
            print (nl +:+ "--- Changes in pyproject.toml (dependencies) ---");;
            emit (EvDiff "before pyproject.toml" "after pyproject.toml"
                    ((λ dep, dep +:+ nl) <$> before_deps)
                    ((λ dep, dep +:+ nl) <$> after_deps));;
            print "------------------------------------";;
            print (nl +:+ "Would you like to run uv sync to update dependencies?");;
            result <- install_requirements_uv env;;
            match result with
            | UvRequirements => ret true
            | _ => ret false
            end
          else ret true
      | None => ret true
      end
  | None => ret true
  end.

(** lines 315-336 *)
Definition report_reqs (env : Env) (before_reqs : list string) : M unit :=
  after_reqs <- read_reqs (reqs_after env);;
  if bool_decide (before_reqs ≠ after_reqs) then
    print (nl +:+ "--- Changes in requirements.txt ---");;
    emit (EvDiff "before requirements.txt" "after requirements.txt"
            before_reqs after_reqs);;
    print "------------------------------------";;
    print (nl +:+ "Would you like to install the updated requirements.txt?");;
    print "Please select the Python path suitable for your venv environment.";;
    install_requirements
  else ret tt.

(** [selection] is [None] for a falsy selection ([None] or [""]). *)
Definition perform_update (env : Env) (selection : option Selection)
    (reset : bool) : M unit :=
  match selection with
  | None => print "Cancelled."
  | Some selection =>
      let action := sel_action selection in
      let target := sel_target selection in
      let before_deps := snapshot_pyproject_before env in
      before_reqs <- read_reqs (reqs_before env);;
      known <- git_operations env action target reset;;
      if known then
        print (nl +:+ "Performing repository maintenance...");;
        git env GitGcAuto;;
        continue <- report_pyproject env before_deps;;
        if continue then report_reqs env before_reqs else ret tt
      else ret tt
  end.

(** Observations of a finished run. *)
Definition run {A} (m : M A) : Res A * list Event := m [].

Definition trace_of {A} (m : M A) : list Event := (run m).2.

Definition is_pyproject_report (e : Event) : bool :=
  match e with
  | EvDiff from _ _ _ => String.eqb from "before pyproject.toml"
  | _ => false
  end.

Definition is_reqs_report (e : Event) : bool :=
  match e with
  | EvDiff from _ _ _ => String.eqb from "before requirements.txt"
  | _ => false
  end.

Definition reports_pyproject_change (tr : list Event) : bool :=
  existsb is_pyproject_report tr.

Definition reports_reqs_change (tr : list Event) : bool :=
  existsb is_reqs_report tr.

(** ** The repository as the detector and the menu builder query it

    [None] in a result stands for the call raising.  The queries themselves
    ([origin.fetch(tags=True)] of line 459, [git tag --points-at] of line
    463, [git remote show origin] of line 487 and the rev-list behind
    [iter_commits] of line 507) are answered by the fields below and leave no
    event in a trace. *)

Inductive OpenResult :=
| Opens
| InvalidGitRepository                    (* InvalidGitRepositoryError *)
| OpenFails.                              (* any other exception *)

Record Repo := mkRepo {
  repo_path : string;
  repo_open : OpenResult;                 (* git.Repo(repo_path) *)
  has_origin : bool;                      (* repo.remotes.origin does not raise *)
  fetch_tags_ok : bool;                   (* origin.fetch(tags=True) does not raise *)
  remote_url : string;                    (* origin.url *)
  head_is_detached : bool;                (* repo.head.is_detached *)
  active_branch_name : string;            (* repo.active_branch.name, when attached *)
  tracking_branch : option string;        (* active_branch.tracking_branch(), its name *)
  (** [sum(1 for c in repo.iter_commits(rev))] *)
  count_commits : string → option nat;
  (** [repo.git.tag(points_at=repo.head.commit.hexsha)] *)
  tags_pointing_at_head : option string;
  all_tag_names : list string;            (* [t.name for t in repo.tags] *)
  (** [repo.git.remote("show", "origin")] scanned for the first line with
      ["HEAD branch:"]: [Some d] is the value left in [default_branch] *)
  remote_head_branch : option (option string)
}.

(** The dict returned by [has_remote_updates]. *)
Record UpdateInfo := mkUpdateInfo {
  u_type : string;
  u_current : string;
  u_latest : string;
  u_behind_count : option nat;
  u_message : string
}.

(** [s.split('\n')] *)
Fixpoint split_newline_go (cur : string) (s : string) : list string :=
  match s with
  | EmptyString => [String.rev cur]
  | String c s' =>
      if Ascii.eqb c "010"%char then String.rev cur :: split_newline_go "" s'
      else split_newline_go (String c cur) s'
  end.

Definition split_newline (s : string) : list string := split_newline_go "" s.

(** [current_tags_str.split('\n') if current_tags_str else []] *)
Definition current_tags_of (current_tags_str : string) : list string :=
  if truthy current_tags_str then split_newline current_tags_str else [].

(** [x in l] for strings *)
Definition str_in (x : string) (l : list string) : bool :=
  existsb (String.eqb x) l.

(** [s.removesuffix(suffix)] *)
Definition removesuffix (s suffix : string) : string :=
  let n := String.length s in
  let k := String.length suffix in
  if (k <=? n) && String.eqb (String.substring (n - k) k s) suffix
  then String.substring 0 (n - k) s else s.

Section detection.
Context {V : Type} (parse : string → option V) (vltb : V → V → bool).

(** lines 381-386 of [has_remote_updates] *)
Definition detector_current_tag (r : Repo) (current_tags : list string)
    : option string :=
  match current_tags with
  | [] => None
  | first :: _ =>
      if negb (head_is_detached r) && str_in (active_branch_name r) current_tags
      then Some (active_branch_name r)
      else Some first
  end.

(** lines 473-478 of [check_remote_updates]; [active_branch] is [None] when
    HEAD is detached *)
Definition menu_current_tag (active_branch : option string)
    (current_tags : list string) : option string :=
  match current_tags with
  | [] => None
  | first :: _ =>
      match active_branch with
      | Some name => Some name
      | None => Some first
      end
  end.

(** lines 363-375: [Some info] for the [return True, {...}] *)
Definition check_branch (r : Repo) : option (option UpdateInfo) :=
  if negb (head_is_detached r) then
    match tracking_branch r with
    | Some tracking =>
        behind ← count_commits r (active_branch_name r +:+ ".." +:+ tracking);
        if bool_decide (0 < behind) then
          Some (Some {| u_type := "branch";
                        u_current := active_branch_name r;
                        u_latest := tracking;
                        u_behind_count := Some behind;
                        u_message := pretty behind +:+ " commits behind" |})
        else Some None
    | None => Some None
    end
  else Some None.

(** lines 378-401 *)
Definition check_tag (r : Repo) : option (option UpdateInfo) :=
  current_tags_str ← tags_pointing_at_head r;
  let current_tags := current_tags_of current_tags_str in
  let current_tag_name := detector_current_tag r current_tags in
  let sorted_tags := get_sorted_tags parse vltb (all_tag_names r) in
  let latest_tag := head sorted_tags in
  match latest_tag, current_tag_name with
  | Some latest, Some current =>
      if truthy latest && truthy current then
        match version_gt parse vltb latest current with
        | Some true =>
            Some (Some {| u_type := "tag";
                          u_current := current;
                          u_latest := latest;
                          u_behind_count := None;
                          u_message := current +:+ " -> " +:+ latest |})
        | _ => Some None             (* not newer, or InvalidVersion *)
        end
      else Some None
  | _, _ => Some None
  end.

(** lines 405-425 *)
Definition check_default_branch (r : Repo) : option (option UpdateInfo) :=
  default_branch ← remote_head_branch r;
  match default_branch with
  | Some default_branch =>
      if truthy default_branch then
        let remote_ref := "origin/" +:+ default_branch in
        match count_commits r ("HEAD.." +:+ remote_ref) with
        | Some behind =>
            if bool_decide (0 < behind) then
              Some (Some {| u_type := "default_branch";
                            u_current := "HEAD";
                            u_latest := default_branch;
                            u_behind_count := Some behind;
                            u_message := default_branch +:+ " is " +:+
                                         pretty behind +:+ " commits ahead" |})
            else Some None
        | None => Some None          (* except Exception: pass *)
        end
      else Some None
  | None => Some None
  end.

(** lines 358-427, the body of the outer [try] *)
Definition has_remote_updates_body (r : Repo) : option (bool * option UpdateInfo) :=
  if has_origin r && fetch_tags_ok r then
    found ← check_branch r;
    match found with
    | Some info => Some (true, Some info)
    | None =>
        found ← check_tag r;
        match found with
        | Some info => Some (true, Some info)
        | None =>
            found ← check_default_branch r;
            match found with
            | Some info => Some (true, Some info)
            | None => Some (false, None)
            end
        end
    end
  else None.

(** [(False, {})] is [(false, None)] *)
Definition has_remote_updates (r : Repo) : bool * option UpdateInfo :=
  match repo_open r with
  | Opens =>
      match has_remote_updates_body r with
      | Some result => result
      | None => (false, None)          (* except Exception *)
      end
  | _ => (false, None)
  end.

End detection.

(** ** [check_remote_updates]: the menu *)

(** [Choice(title=..., value=...)]; the value [""] of the Cancel entry is
    [None]. *)
Inductive MenuItem :=
| Choice (title : string) (value : option Selection)
| Separator.

Definition item_action (i : MenuItem) : option string :=
  match i with
  | Choice _ (Some sel) => Some (sel_action sel)
  | _ => None
  end.

Definition item_title (i : MenuItem) : option string :=
  match i with
  | Choice title _ => Some title
  | Separator => None
  end.

Definition has_action (action : string) (i : MenuItem) : bool :=
  bool_decide (item_action i = Some action).

(** the entries that check out a tag, and the one that pulls *)
Definition tag_entries (choices : list MenuItem) : list MenuItem :=
  filter (λ i, has_action "checkout" i = true) choices.

Definition pull_entries (choices : list MenuItem) : list MenuItem :=
  filter (λ i, has_action "pull" i = true) choices.

Section menu.
Context {V : Type} (parse : string → option V) (vltb : V → V → bool).

(** lines 485-500 *)
Definition default_branch_choice (r : Repo) (active_branch : option string)
    : list MenuItem :=
  match remote_head_branch r with
  | Some (Some default_branch) =>
      if truthy default_branch then
        let differs :=
          match active_branch with
          | None => true
          | Some name => negb (String.eqb name default_branch)
          end in
        if differs then
          [Choice ("★ Checkout and Pull latest remote (" +:+ default_branch +:+ ")")
                  (Some (mkSelection "checkout_pull" default_branch))]
        else []
      else []
  | _ => []                            (* no such line, or except Exception: pass *)
  end.

(** lines 506-517 *)
Definition pull_choice (r : Repo) (reset : bool)
    (active_branch tracking : option string) : M (list MenuItem) :=
  match active_branch, tracking with
  | Some name, Some tracking_name =>
      match count_commits r (name +:+ ".." +:+ tracking_name) with
      | Some behind =>
          if bool_decide (0 < behind) || reset then
            let title := "★ Pull " +:+ name in
            let title :=
              if bool_decide (0 < behind)
              then title +:+ " (" +:+ pretty behind +:+ " commits behind)"
              else title in
            ret [Choice title (Some (mkSelection "pull" name))]
          else
            print ("Current branch '" +:+ name +:+ "' is up to date.");;
            ret []
      | None => raise RepoError
      end
  | _, _ => ret []
  end.

(** lines 522-527 *)
Definition is_newer (latest_tag : string) (current_tag_name : option string)
    : bool :=
  match current_tag_name with
  | Some current =>
      if truthy current then
        match version_gt parse vltb latest_tag current with
        | Some true => true
        | _ => false                   (* not newer, or InvalidVersion *)
        end
      else false
  | None => false
  end.

(** lines 520-534 *)
Definition latest_tag_choice (latest_tag current_tag_name : option string)
    : list MenuItem :=
  match latest_tag with
  | Some latest =>
      if truthy latest then
        let suffix := if is_newer latest current_tag_name then " (Latest)" else "" in
        [Choice (latest +:+ suffix) (Some (mkSelection "checkout" latest))]
      else []
  | None => []
  end.

(** lines 537-539: the loop over [sorted_tags[:10]] *)
Definition add_other_tags (choices : list MenuItem) (sorted_tags : list string)
    (latest_tag : option string) : list MenuItem :=
  foldl (λ choices tag,
           if bool_decide (Some tag = latest_tag) then choices   (* continue *)
           else choices ++ [Choice tag (Some (mkSelection "checkout" tag))])
        choices (take 10 sorted_tags).

(** lines 461-539 *)
Definition build_choices (r : Repo) (reset : bool) : M (list MenuItem) :=
  match tags_pointing_at_head r with
  | None => raise RepoError
  | Some current_tags_str =>
      let current_tags := current_tags_of current_tags_str in
      let active_branch :=
        if head_is_detached r then None else Some (active_branch_name r) in
      let tracking :=
        if head_is_detached r then None else tracking_branch r in
      let current_tag_name := menu_current_tag active_branch current_tags in
      match current_tag_name with
      | Some name => print ("Currently checked out tag: " +:+ name)
      | None => ret tt
      end;;
      let choices := default_branch_choice r active_branch in
      let sorted_tags := get_sorted_tags parse vltb (all_tag_names r) in
      let latest_tag := head sorted_tags in
      pull <- pull_choice r reset active_branch tracking;;
      let choices := choices ++ pull in
      let choices := choices ++ latest_tag_choice latest_tag current_tag_name in
      let choices := add_other_tags choices sorted_tags latest_tag in
      ret choices
  end.

(** [ask] is the answer of [select(...).ask()], [None] when it is falsy. *)
Definition check_remote_updates (env : Env)
    (ask : list MenuItem → option Selection) (r : Repo) (reset : bool)
    : M unit :=
  match repo_open r with
  | InvalidGitRepository =>
      print ("Error: '" +:+ repo_path r +:+ "' is not a Git repository.")
  | OpenFails =>
      emit (EvReportError
              ("Error: Failed to access Git repository at '" +:+ repo_path r +:+ "': ")
              RepoError)
  | Opens =>
      try_except
        ((if has_origin r then ret tt else raise RepoError);;
         print ("Remote URL: " +:+ removesuffix (remote_url r) ".git");;
         (if reset then print "Reset mode is enabled." else ret tt);;
         print "Fetching latest info from remote (origin)...";;
         (if fetch_tags_ok r then ret tt else raise RepoError);;
         choices <- build_choices r reset;;
         if bool_decide (length choices = 0) then
           print "No updates available."
         else
           let choices := choices ++ [Separator; Choice "Cancel" None] in
           match ask choices with
           | None => print "Cancelled."
           | Some selection => perform_update env (Some selection) reset
           end)
        (λ e, emit (EvReportError "An error occurred: " e))
  end.

(** the menu entries built for [r], when building them does not raise *)
Definition menu_of (r : Repo) (reset : bool) : option (list MenuItem) :=
  match run (build_choices r reset) with
  | (Ok choices, _) => Some choices
  | (Raise _, _) => None
  end.

End menu.

Local Close Scope py_scope.

(** ** Vocabulary of the properties *)

(** [a] may stand before [b] in the ascending order of keys *)
Definition key_le {A K} (key : A → K) (ltb : K → K → bool) (a b : A) : Prop :=
  ltb (key b) (key a) = false.

(** the candidates a detection pass hands back: one or none *)
Definition detected (result : bool * option UpdateInfo) : list UpdateInfo :=
  match result.2 with
  | Some info => [info]
  | None => []
  end.

(** The three kinds of action, and the strings the menu stores for them
    (lines 497, 514, 533 and 539). *)
Inductive ActionKind :=
| Checkout
| Pull
| CheckoutThenPull.

Definition action_name (kind : ActionKind) : string :=
  match kind with
  | Checkout => "checkout"
  | Pull => "pull"
  | CheckoutThenPull => "checkout_pull"
  end.

(** A row of the state-machine table: commands run in order, or commands
    followed by an attempt with a fallback when the attempt fails. *)
Inductive Plan :=
| Straight (cmds : list GitCmd)
| WithFallback (first attempt : list GitCmd) (fallback : GitCmd).

Fixpoint run_cmds (env : Env) (cmds : list GitCmd) : M unit :=
  match cmds with
  | [] => ret tt
  | c :: cmds => bind (git env c) (λ _, run_cmds env cmds)
  end.

Definition run_plan (env : Env) (p : Plan) : M unit :=
  match p with
  | Straight cmds => run_cmds env cmds
  | WithFallback first attempt fallback =>
      bind (run_cmds env first)
           (λ _, try_except (run_cmds env attempt) (λ _, git env fallback))
  end.

(** The table as the specification words it: a reset checkout checks out,
    then force-resets to [origin/<target>], else to [target]. *)
Definition table_plan (kind : ActionKind) (target : string) (reset : bool) : Plan :=
  match kind, reset with
  | Checkout, false => Straight [GitCheckout target]
  | Checkout, true =>
      WithFallback [GitCheckout target]
                   [GitResetHard ("origin/" +:+ target)]
                   (GitResetHard target)
  | Pull, false => Straight [GitPull]
  | Pull, true => Straight [GitFetch; GitResetHard ("origin/" +:+ target)]
  | CheckoutThenPull, false => Straight [GitCheckout target; GitPull]
  | CheckoutThenPull, true =>
      Straight [GitCheckout target; GitResetHard ("origin/" +:+ target)]
  end.

(** The table with the fetch that a reset checkout makes before its
    attempt. *)
Definition engine_plan (kind : ActionKind) (target : string) (reset : bool) : Plan :=
  match kind, reset with
  | Checkout, true =>
      WithFallback [GitCheckout target]
                   [GitFetch; GitResetHard ("origin/" +:+ target)]
                   (GitResetHard target)
  | _, _ => table_plan kind target reset
  end.

Definition is_git_event (e : Event) : bool :=
  match e with
  | EvGit _ | EvGitFailed _ => true
  | _ => false
  end.

(** the git part of a trace *)
Definition git_events (tr : list Event) : list Event :=
  filter (λ e, is_git_event e = true) tr.

(** did the computation finish without raising *)
Definition succeeded {A} (r : Res A) : bool :=
  match r with
  | Ok _ => true
  | Raise _ => false
  end.

Definition raised {A} (r : Res A) : option Exn :=
  match r with
  | Ok _ => None
  | Raise e => Some e
  end.

(** the listing [perform_update] compares: empty for a missing file and for
    one whose read raises [IOError] *)
Definition reqs_listing (f : ReqsFile) : list string :=
  match f with
  | ReqsLines lines => lines
  | _ => []
  end.

Definition pyproject_missing (f : PyprojectFile) : Prop :=
  f = PyAbsent ∨ f = PyUnreadable.

Definition reqs_missing (f : ReqsFile) : Prop :=
  f = ReqsAbsent ∨ f = ReqsIOError.

Definition known_action (action : string) : Prop :=
  action = "checkout" ∨ action = "pull" ∨ action = "checkout_pull".

(** every git command succeeds *)
Definition git_always_ok (env : Env) : Prop := ∀ h c, git_ok env h c = true.

(** [env] with other [pyproject.toml] contents *)
Definition with_pyproject (env : Env) (before after : PyprojectFile) : Env :=
  {| uv_installed := uv_installed env;
     pyproject_before := before;
     pyproject_after := after;
     reqs_before := reqs_before env;
     reqs_after := reqs_after env;
     git_ok := git_ok env;
     uv_result := uv_result env |}.

(** a pair as [collect_valid] makes it: a name with its parsed version *)
Definition parsed_pair {V} (parse : string → option V) (p : string * V) : Prop :=
  parse p.1 = Some p.2.

(** [m] only appends events, and each of them satisfies [P] *)
Definition emits_only {A} (P : Event → Prop) (m : M A) : Prop :=
  ∀ tr, ∃ new, (m tr).2 = tr ++ new ∧ Forall P new.

(** the structured-manifest step reports nothing and lets the run go on *)
Definition pyproject_silent (env : Env) : Prop :=
  ∀ tr, report_pyproject env (snapshot_pyproject_before env) tr = (Ok true, tr).

Definition no_pyproject_report (e : Event) : Prop := is_pyproject_report e = false.

Definition no_report (e : Event) : Prop :=
  is_pyproject_report e = false ∧ is_reqs_report e = false.

(** the answer "requirements" lets the run go on to [requirements.txt]
    (lines 311-312) *)
Definition goes_on (answer : UvResult) : bool :=
  match answer with
  | UvRequirements => true
  | _ => false
  end.

(** ** Concrete worlds used in examples *)

(** every command succeeds; both manifests unchanged *)
Definition quiet_env : Env :=
  {| uv_installed := true;
     pyproject_before := PyDeps ["a"; "b"];
     pyproject_after := PyDeps ["a"; "b"];
     reqs_before := ReqsLines ["a"; "b"];
     reqs_after := ReqsLines ["a"; "b"];
     git_ok := λ _ _, true;
     uv_result := UvCancelled |}.

(** the dependency array and the listing both reordered *)
Definition reordered_env : Env :=
  {| uv_installed := true;
     pyproject_before := PyDeps ["a"; "b"];
     pyproject_after := PyDeps ["b"; "a"];
     reqs_before := ReqsLines ["a"; "b"];
     reqs_after := ReqsLines ["b"; "a"];
     git_ok := λ _ _, true;
     uv_result := UvCancelled |}.

(** no [requirements.txt] before the action, one afterwards *)
Definition new_reqs_env : Env :=
  {| uv_installed := true;
     pyproject_before := PyAbsent;
     pyproject_after := PyAbsent;
     reqs_before := ReqsAbsent;
     reqs_after := ReqsLines ["requests"];
     git_ok := λ _ _, true;
     uv_result := UvCancelled |}.

(** [git gc --auto] fails; the listing changed *)
Definition gc_fails_env : Env :=
  {| uv_installed := true;
     pyproject_before := PyAbsent;
     pyproject_after := PyAbsent;
     reqs_before := ReqsLines ["a"];
     reqs_after := ReqsLines ["a"; "b"];
     git_ok := λ _ c, match c with GitGcAuto => false | _ => true end;
     uv_result := UvCancelled |}.

(** no [uv]; the dependency array changed *)
Definition no_uv_env : Env :=
  {| uv_installed := false;
     pyproject_before := PyDeps ["a"];
     pyproject_after := PyDeps ["a"; "b"];
     reqs_before := ReqsLines ["a"];
     reqs_after := ReqsLines ["a"; "b"];
     git_ok := λ _ _, true;
     uv_result := UvCancelled |}.

(** the dependency array changed and the listing reordered; the answer to
    the [uv sync] question is given *)
Definition changed_and_reordered_env (answer : UvResult) : Env :=
  {| uv_installed := true;
     pyproject_before := PyDeps ["a"];
     pyproject_after := PyDeps ["a"; "b"];
     reqs_before := ReqsLines ["a"; "b"];
     reqs_after := ReqsLines ["b"; "a"];
     git_ok := λ _ _, true;
     uv_result := answer |}.

Definition pull_main : Selection := mkSelection "pull" "main".

Definition checkout_main : Selection := mkSelection "checkout" "main".

(** the menu entry of a tag, as lines 531-534 and 539 build it *)
Definition tag_choice (tag : string) : MenuItem :=
  Choice tag (Some (mkSelection "checkout" tag)).

(** ** Concrete repositories used in examples *)

(** On [main], two commits behind [origin/main]; HEAD carries the tag
    [1.2.0] and [1.3.0] has been published. *)
Definition behind_and_newer_tag : Repo :=
  {| repo_path := ".";
     repo_open := Opens;
     has_origin := true;
     fetch_tags_ok := true;
     remote_url := "https://example.org/project.git";
     head_is_detached := false;
     active_branch_name := "main";
     tracking_branch := Some "origin/main";
     count_commits := λ rev,
       if String.eqb rev "main..origin/main" then Some 2 else Some 0;
     tags_pointing_at_head := Some "1.2.0";
     all_tag_names := ["1.2.0"; "1.3.0"; "0.9.0"; "not-a-version"];
     remote_head_branch := Some (Some "main") |}.

(** The same repository, up to date with [origin/main]. *)
Definition up_to_date_newer_tag : Repo :=
  {| repo_path := ".";
     repo_open := Opens;
     has_origin := true;
     fetch_tags_ok := true;
     remote_url := "https://example.org/project.git";
     head_is_detached := false;
     active_branch_name := "main";
     tracking_branch := Some "origin/main";
     count_commits := λ _, Some 0;
     tags_pointing_at_head := Some "1.2.0";
     all_tag_names := ["1.2.0"; "1.3.0"; "0.9.0"; "not-a-version"];
     remote_head_branch := Some (Some "main") |}.

(** Detached HEAD without a tag, fifteen version tags. *)
Definition fifteen_tags : Repo :=
  {| repo_path := ".";
     repo_open := Opens;
     has_origin := true;
     fetch_tags_ok := true;
     remote_url := "https://example.org/project.git";
     head_is_detached := true;
     active_branch_name := "";
     tracking_branch := None;
     count_commits := λ _, Some 0;
     tags_pointing_at_head := Some "";
     all_tag_names := ["1"; "2"; "3"; "4"; "5"; "6"; "7"; "8"; "9"; "10";
                       "11"; "12"; "13"; "14"; "15"];
     remote_head_branch := None |}.

(** the user picks the pull entry *)
Definition ask_pull (choices : list MenuItem) : option Selection := Some pull_main.

(** On [main], up to date, HEAD carries the tag [1.0.0]; [2.0.0] has been
    published. *)
Definition on_branch_with_tag : Repo :=
  {| repo_path := ".";
     repo_open := Opens;
     has_origin := true;
     fetch_tags_ok := true;
     remote_url := "https://example.org/project.git";
     head_is_detached := false;
     active_branch_name := "main";
     tracking_branch := Some "origin/main";
     count_commits := λ _, Some 0;
     tags_pointing_at_head := Some "1.0.0";
     all_tag_names := ["1.0.0"; "2.0.0"];
     remote_head_branch := Some (Some "main") |}.

(** the branch the menu builder works with: [None] on a detached HEAD *)
Definition menu_active_branch (r : Repo) : option string :=
  if head_is_detached r then None else Some (active_branch_name r).

Definition menu_tracking_branch (r : Repo) : option string :=
  if head_is_detached r then None else tracking_branch r.


(** ** The installer front ends

    [get_appropriate_install_command], [install_requirements] and
    [install_requirements_uv], with their own menu entries and the
    subprocesses they start. *)

Module Installer.

(** the dict an entry carries: [{'type': ..., 'command': ..., 'description': ...}] *)
Record InstallCmd := mkInstallCmd {
  ic_type : string;
  ic_command : string;
  ic_description : string
}.

(** [Choice(title=..., value=...)]; the value [""] of the Cancel entry is
    [None] *)
Inductive Item :=
| Choice (title : string) (value : option InstallCmd)
| Separator.

(** How [subprocess.run(args, check=True)] ends. *)
Inductive RunResult :=
| RunOk
| RunCalledProcessError              (* the command returned a non-zero status *)
| RunOtherError.                     (* any other exception, as FileNotFoundError *)

Inductive IEvent :=
| IPrint (text : string)             (* print(text) *)
| IPrintFailure (prefix : string)    (* print(f"{prefix}{e}") *)
| IRun (args : list string).         (* subprocess.run(args, check=True) *)

(** [os.path] and the file system, as the search for a virtual environment
    uses them; [join a b c] is [join (join a b) c]. *)
Record OsPath := mkOsPath {
  join : string → string → string;
  dirname : string → string;
  isdir : string → bool;
  isfile : string → bool;
  is_nt : bool                       (* os.name == 'nt' *)
}.

Section search.
Context (os : OsPath).

(** lines 58-61 *)
Definition python_exe (venv_path : string) : string :=
  if is_nt os then join os (join os venv_path "Scripts") "python.exe"
  else join os (join os venv_path "bin") "python".

(** lines 54-65, one round of the [for] loop *)
Definition venv_named (search_path venv_name : string) : option string :=
  let venv_path := join os search_path venv_name in
  if isdir os venv_path then
    if isfile os (python_exe venv_path) then Some (python_exe venv_path)
    else None
  else None.

(** lines 53-65: [.venv] is tried first and ends the loop when it has a
    python *)
Definition venv_in (search_path : string) : option string :=
  match venv_named search_path ".venv" with
  | Some exe => Some exe
  | None => venv_named search_path "venv"
  end.

(** lines 52-74, the [while] loop; [None] when [fuel] rounds were not
    enough *)
Fixpoint find_venv (fuel : nat) (search_path : string)
    (venv_python : option string) : option (option string) :=
  match fuel with
  | 0 => None
  | S fuel =>
      if truthy search_path then
        let venv_python :=
          match venv_in search_path with
          | Some exe => Some exe
          | None => venv_python
          end in
        if truthy_opt venv_python then Some venv_python
        else
          let parent_path := dirname os search_path in
          if String.eqb parent_path search_path then Some venv_python
          else find_venv fuel parent_path venv_python
      else Some venv_python
  end.

(** the directories the loop visits: [search_path] and its parents *)
Fixpoint ancestor (k : nat) (search_path : string) : string :=
  match k with
  | 0 => search_path
  | S k => ancestor k (dirname os search_path)
  end.

End search.

Section menu.
(** [format_path], the nested helper of lines 95-101 *)
Context (format_path : string → string).

(** lines 80-92 *)
Definition uv_choices (uv_installed pyproject_isfile : bool) : list Item :=
  if uv_installed then
    [Choice "uv pip install"
            (Some (mkInstallCmd "uv" "uv pip install" "uv pip install"))]
    ++ (if pyproject_isfile
        then [Choice "uv add" (Some (mkInstallCmd "uv" "uv add" "uv add"))]
        else [])
    ++ [Separator]
  else [].

Definition current_python_choice (current_python : string) : Item :=
  Choice ("Current Python (" +:+ format_path current_python +:+ ")")
         (Some (mkInstallCmd "python" current_python
                  ("Current Python (" +:+ format_path current_python +:+ ")"))).

Definition venv_choice (venv_python : string) : Item :=
  Choice ("venv (" +:+ format_path venv_python +:+ ")")
         (Some (mkInstallCmd "python" venv_python
                  ("venv (" +:+ format_path venv_python +:+ ")"))).

(** lines 103-116; [current_python] is [sys.executable], which may be
    [None]; the result is [None] when [format_path(None)] raises *)
Definition python_choices (current_python venv_python : option string)
    : option (list Item) :=
  if truthy_opt venv_python && bool_decide (venv_python ≠ current_python) then
    match venv_python, current_python with
    | Some venv, Some current =>
        Some [current_python_choice current; venv_choice venv]
    | _, _ => None
    end
  else if truthy_opt current_python then
    match current_python with
    | Some current => Some [current_python_choice current]
    | None => Some []
    end
  else Some [].

(** lines 77-119: the entries handed to [select] *)
Definition install_choices (uv_installed pyproject_isfile : bool)
    (current_python venv_python : option string) : option (list Item) :=
  let choices := uv_choices uv_installed pyproject_isfile in
  python ← python_choices current_python venv_python;
  Some (choices ++ python ++ [Separator; Choice "Cancel" None]).

End menu.

(** the values a user can pick *)
Definition offered (items : list Item) : list InstallCmd :=
  omap (λ i, match i with Choice _ (Some cmd) => Some cmd | _ => None end) items.

Definition run_checked (subprocess_run : list string → RunResult)
    (args : list string) : list IEvent * RunResult :=
  ([IRun args], subprocess_run args).

(** [install_requirements], given what [get_appropriate_install_command]
    returned ([None] for a falsy value); the second component is [false]
    when an exception other than [CalledProcessError] leaves the function *)
Definition install_requirements (install_cmd : option InstallCmd)
    (requirements_path : string) (subprocess_run : list string → RunResult)
    : list IEvent * bool :=
  match install_cmd with
  | Some install_cmd =>
      let start :=
        [IPrint ("Installing requirements using: " +:+ ic_description install_cmd)] in
      let body :=
        if String.eqb (ic_type install_cmd) "uv" then
          if String.eqb (ic_command install_cmd) "uv pip install" then
            run_checked subprocess_run
              ["uv"; "pip"; "install"; "-r"; requirements_path]
          else if String.eqb (ic_command install_cmd) "uv add" then
            run_checked subprocess_run ["uv"; "add"; "-r"; requirements_path]
          else ([], RunOk)
        else
          run_checked subprocess_run
            [ic_command install_cmd; "-m"; "pip"; "install"; "-r";
             requirements_path] in
      match body with
      | (events, RunOk) =>
          (start ++ events ++ [IPrint "Requirements installed successfully."], true)
      | (events, RunCalledProcessError) =>
          (start ++ events ++ [IPrintFailure "Failed to install requirements: "],
           true)
      | (events, RunOtherError) => (start ++ events, false)
      end
  | None => ([IPrint "Skipped: pip installation cancelled by user."], true)
  end.

(** [install_requirements_uv], given the answer of [select(...).ask()];
    [None] as the result when an exception other than [CalledProcessError]
    leaves the function *)
Definition install_requirements_uv (selection : option string)
    (subprocess_run : list string → RunResult)
    : list IEvent * option UvResult :=
  if bool_decide (selection = Some "sync") then
    match run_checked subprocess_run ["uv"; "sync"] with
    | (events, RunOk) =>
        ([IPrint "Running uv sync..."] ++ events
         ++ [IPrint "uv sync completed successfully."], Some UvSync)
    | (events, RunCalledProcessError) =>
        ([IPrint "Running uv sync..."] ++ events
         ++ [IPrintFailure "Failed to run uv sync: "], Some UvSync)
    | (events, RunOtherError) => ([IPrint "Running uv sync..."] ++ events, None)
    end
  else if bool_decide (selection = Some "requirements") then
    ([], Some UvRequirements)
  else ([], Some UvCancelled).

(** the subprocesses a run started *)
Definition commands (events : list IEvent) : list (list string) :=
  omap (λ e, match e with IRun args => Some args | _ => None end) events.

End Installer.

(** ** More vocabulary *)

(** the target an entry acts on *)
Definition item_target (i : MenuItem) : option string :=
  match i with
  | Choice _ (Some sel) => Some (sel_target sel)
  | _ => None
  end.

(** the entries that check out the remote's default branch and pull *)
Definition default_entries (choices : list MenuItem) : list MenuItem :=
  filter (λ i, has_action "checkout_pull" i = true) choices.

Definition is_reset_hard (c : GitCmd) : bool :=
  match c with
  | GitResetHard _ => true
  | _ => false
  end.

(** [s1 + "\n" + s2 + ...] *)
Fixpoint join_newline (l : list string) : string :=
  match l with
  | [] => ""
  | [s] => s
  | s :: l => s +:+ nl +:+ join_newline l
  end.

Fixpoint has_newline (s : string) : bool :=
  match s with
  | EmptyString => false
  | String c s => Ascii.eqb c "010"%char || has_newline s
  end.

(** a repository whose commit counts cannot be read *)
Definition counting_fails : Repo :=
  {| repo_path := ".";
     repo_open := Opens;
     has_origin := true;
     fetch_tags_ok := true;
     remote_url := "https://example.org/project.git";
     head_is_detached := false;
     active_branch_name := "main";
     tracking_branch := Some "origin/main";
     count_commits := λ _, None;
     tags_pointing_at_head := Some "1.2.0";
     all_tag_names := ["1.2.0"; "1.3.0"];
     remote_head_branch := Some (Some "main") |}.

(** the dependency array changed and [uv] is there *)
Definition changed_deps_env (answer : UvResult) : Env :=
  {| uv_installed := true;
     pyproject_before := PyDeps ["a"];
     pyproject_after := PyDeps ["b"; "a"];
     reqs_before := ReqsLines ["a"];
     reqs_after := ReqsLines ["a"; "b"];
     git_ok := λ _ _, true;
     uv_result := answer |}.

(** the checkout fails *)
Definition checkout_fails_env : Env :=
  {| uv_installed := true;
     pyproject_before := PyDeps ["a"];
     pyproject_after := PyDeps ["b"];
     reqs_before := ReqsLines ["a"];
     reqs_after := ReqsLines ["b"];
     git_ok := λ _ c, match c with GitCheckout _ => false | _ => true end;
     uv_result := UvCancelled |}.

(** there is no [origin/<target>]: the fetch works, that reset fails *)
Definition tag_target_env : Env :=
  {| uv_installed := false;
     pyproject_before := PyAbsent;
     pyproject_after := PyAbsent;
     reqs_before := ReqsAbsent;
     reqs_after := ReqsAbsent;
     git_ok := λ _ c,
       match c with
       | GitResetHard ref => negb (String.prefix "origin/" ref)
       | _ => true
       end;
     uv_result := UvCancelled |}.

(** a POSIX tree with [/home/u/proj/src] and a virtual environment in
    [/home/u/proj/venv] *)
Definition posix_example : Installer.OsPath :=
  {| Installer.join := λ a b, a +:+ "/" +:+ b;
     Installer.dirname := λ p,
       if String.eqb p "/home/u/proj/src" then "/home/u/proj"
       else if String.eqb p "/home/u/proj" then "/home/u"
       else if String.eqb p "/home/u" then "/home"
       else "/";
     Installer.isdir := λ p, String.eqb p "/home/u/proj/venv";
     Installer.isfile := λ p, String.eqb p "/home/u/proj/venv/bin/python";
     Installer.is_nt := false |}.

(** every git command in the event, run or failed, satisfies [Q] *)
Definition git_event_satisfies (Q : GitCmd → Prop) (e : Event) : Prop :=
  match e with
  | EvGit c | EvGitFailed c => Q c
  | _ => True
  end.

(** the command an action sends first (lines 245, 256, 261, 265 and 269) *)
Definition first_command (kind : ActionKind) (target : string) (reset : bool)
    : GitCmd :=
  match kind, reset with
  | Pull, true => GitFetch
  | Pull, false => GitPull
  | _, _ => GitCheckout target
  end.

(** any command but [git reset --hard] *)
Definition not_reset_hard (c : GitCmd) : Prop := is_reset_hard c = false.

(** what a run without reset may send to git, and what a run with reset may *)
Definition gentle (c : GitCmd) : Prop :=
  match c with
  | GitCheckout _ | GitPull | GitGcAuto => True
  | _ => False
  end.

Definition forceful (c : GitCmd) : Prop :=
  match c with
  | GitPull => False
  | _ => True
  end.

(** the lines handed to [difflib.unified_diff] for [pyproject.toml] *)
Definition deps_lines (deps : list string) : list string :=
  (λ dep, dep +:+ nl) <$> sorted_str deps.

(** what a reported change of [pyproject.toml] leaves in the trace
    (lines 297-310) *)
Definition pyproject_report_events (deps1 deps2 : list string) : list Event :=
  [EvPrint (nl +:+ "--- Changes in pyproject.toml (dependencies) ---");
   EvDiff "before pyproject.toml" "after pyproject.toml"
          (deps_lines deps1) (deps_lines deps2);
   EvPrint "------------------------------------";
   EvPrint (nl +:+ "Would you like to run uv sync to update dependencies?");
   EvInstallRequirementsUv].

(** [m] does the same after events that sent nothing to git *)
Definition framed {A} (m : M A) : Prop :=
  ∀ pre tr, git_history pre = [] →
            m (pre ++ tr) = ((m tr).1, pre ++ (m tr).2).

(** events that are no git command *)
Definition no_git (e : Event) : Prop := is_git_event e = false.

(** what [check_remote_updates] prints before it fetches (lines 455-458) *)
Definition opening_messages (r : Repo) (reset : bool) : list Event :=
  [EvPrint ("Remote URL: " +:+ removesuffix (remote_url r) ".git")]
  ++ (if reset then [EvPrint "Reset mode is enabled."] else [])
  ++ [EvPrint "Fetching latest info from remote (origin)..."].

(** the line [check_remote_updates] prints for an exception it caught *)
Definition error_report {A} (r : Res A) : list Event :=
  match r with
  | Ok _ => []
  | Raise e => [EvReportError "An error occurred: " e]
  end.

(** On branch [feature]; the remote's default branch is [main]. *)
Definition on_feature_branch : Repo :=
  {| repo_path := ".";
     repo_open := Opens;
     has_origin := true;
     fetch_tags_ok := true;
     remote_url := "https://example.org/project.git";
     head_is_detached := false;
     active_branch_name := "feature";
     tracking_branch := None;
     count_commits := λ rev,
       if String.eqb rev "HEAD..origin/main" then Some 3 else Some 0;
     tags_pointing_at_head := Some "";
     all_tag_names := [];
     remote_head_branch := Some (Some "main") |}.
(** * Properties *)

(** ** The stable sort *)

Section sort_facts.
Context {A K : Type} (key : A → K) (ltb : K → K → bool).

Lemma insert_stable_Permutation (x : A) (l : list A) :
  insert_stable key ltb x l ≡ₚ x :: l.
Proof.
  induction l as [|y l IH]; simpl; [done|].
  destruct (ltb (key y) (key x)); [|done].
  rewrite IH. apply Permutation_swap.
Qed.

Lemma stable_sort_Permutation (l : list A) : stable_sort key ltb l ≡ₚ l.
Proof.
  induction l as [|x l IH]; simpl; [done|].
  by rewrite insert_stable_Permutation, IH.
Qed.

Lemma list_sort_Permutation (rev_flag : bool) (l : list A) :
  list_sort key ltb rev_flag l ≡ₚ l.
Proof.
  destruct rev_flag; simpl; [|apply stable_sort_Permutation].
  by rewrite reverse_Permutation, stable_sort_Permutation, reverse_Permutation.
Qed.

Context `{!StrictWeak ltb}.

Lemma HdRel_insert_stable (y x : A) (l : list A) :
  key_le key ltb y x → HdRel (key_le key ltb) y l →
  HdRel (key_le key ltb) y (insert_stable key ltb x l).
Proof.
  intros Hyx Hhd. destruct l as [|z l]; simpl; [by constructor|].
  destruct (ltb (key z) (key x)); constructor; [|done].
  by inversion Hhd.
Qed.

Lemma Sorted_insert_stable (x : A) (l : list A) :
  Sorted (key_le key ltb) l → Sorted (key_le key ltb) (insert_stable key ltb x l).
Proof.
  induction 1 as [|y l Hsorted IH Hhd]; simpl.
  { repeat constructor. }
  destruct (ltb (key y) (key x)) eqn:Hlt.
  - constructor; [done|].
    apply HdRel_insert_stable; [|done].
    unfold key_le. by apply sw_asym.
  - repeat constructor; done.
Qed.

Lemma Sorted_stable_sort (l : list A) :
  Sorted (key_le key ltb) (stable_sort key ltb l).
Proof.
  induction l; simpl; [constructor|by apply Sorted_insert_stable].
Qed.

(** with [reverse=True] the result is descending *)
Lemma Sorted_list_sort_reverse (l : list A) :
  Sorted (flip (key_le key ltb)) (list_sort key ltb true l).
Proof. apply Sorted_reverse, Sorted_stable_sort. Qed.

(** Elements that may not be told apart by [<] keep their order. *)
Section stability.
Context (P : A → Prop) `{!∀ x, Decision (P x)}.
Hypothesis P_tied : ∀ x y, P x → P y → ltb (key y) (key x) = false.

Lemma filter_insert_stable (x : A) (l : list A) :
  filter P (insert_stable key ltb x l) = filter P (x :: l).
Proof.
  induction l as [|y l IH]; simpl; [done|].
  destruct (ltb (key y) (key x)) eqn:Hlt; [|done].
  rewrite (filter_cons _ y), IH, !filter_cons.
  destruct (decide (P y)) as [Hy|Hy], (decide (P x)) as [Hx|Hx]; try done.
  by rewrite (P_tied x y Hx Hy) in Hlt.
Qed.

Lemma filter_stable_sort (l : list A) :
  filter P (stable_sort key ltb l) = filter P l.
Proof.
  induction l as [|x l IH]; simpl; [done|].
  by rewrite filter_insert_stable, !filter_cons, IH.
Qed.

Lemma filter_list_sort (rev_flag : bool) (l : list A) :
  filter P (list_sort key ltb rev_flag l) = filter P l.
Proof.
  destruct rev_flag; simpl; [|apply filter_stable_sort].
  by rewrite filter_reverse, filter_stable_sort, filter_reverse,
    reverse_involutive.
Qed.

End stability.
End sort_facts.

(** [<] on [str] *)
Lemma string_ltb_false (a b : string) : String.ltb a b = false ↔ String.le b a.
Proof.
  unfold String.le, String.ltb, String.leb.
  rewrite (String.compare_antisym a b).
  destruct (String.compare b a); simpl; split; done.
Qed.

#[global] Instance string_ltb_strict_weak : StrictWeak String.ltb.
Proof.
  split.
  - intros a b Hab. unfold String.ltb in *.
    rewrite (String.compare_antisym b a).
    by destruct (String.compare a b).
  - intros a b c. rewrite !string_ltb_false. intros ??. by etrans.
Qed.

Lemma Sorted_weaken {A} (R R' : relation A) (l : list A) :
  (∀ a b, R a b → R' a b) → Sorted R l → Sorted R' l.
Proof.
  intros HR. induction 1 as [|x l _ IH Hhd]; constructor; [done|].
  destruct Hhd; constructor; auto.
Qed.

Lemma Sorted_sorted_str (l : list string) : Sorted String.le (sorted_str l).
Proof.
  eapply Sorted_weaken; [|apply (Sorted_stable_sort id String.ltb)].
  intros a b. unfold key_le. simpl. by rewrite string_ltb_false.
Qed.

(** sorting forgets the order of the input *)
Lemma sorted_str_Permutation (l1 l2 : list string) :
  l1 ≡ₚ l2 → sorted_str l1 = sorted_str l2.
Proof.
  intros Hperm. apply (Sorted_unique String.le); try apply Sorted_sorted_str.
  unfold sorted_str. by rewrite !list_sort_Permutation.
Qed.

(** ** The version index *)

Section version_index_facts.
Context {V : Type} (parse : string → option V) (vltb : V → V → bool).

Lemma collect_valid_omap (all_tags : list string) :
  collect_valid parse all_tags
  = omap (λ tag, v ← parse tag; Some (tag, v)) all_tags.
Proof.
  unfold collect_valid.
  cut (∀ acc, foldl (λ valid_tags tag,
                       match parse tag with
                       | Some v => valid_tags ++ [(tag, v)]
                       | None => valid_tags
                       end) acc all_tags
              = acc ++ omap (λ tag, v ← parse tag; Some (tag, v)) all_tags).
  { intros Hacc. apply (Hacc []). }
  induction all_tags as [|tag tags IH]; intros acc; simpl.
  { by rewrite app_nil_r. }
  rewrite IH. destruct (parse tag); simpl; [|done].
  by rewrite <-app_assoc.
Qed.

Lemma collect_valid_parsed (all_tags : list string) :
  Forall (parsed_pair parse) (collect_valid parse all_tags).
Proof.
  rewrite collect_valid_omap. apply Forall_forall. intros [tag v].
  rewrite list_elem_of_omap. intros (tag' & _ & Htag).
  unfold parsed_pair. simpl.
  destruct (parse tag') eqn:Hp; simplify_eq/=. done.
Qed.

Lemma collect_valid_names (all_tags : list string) :
  (collect_valid parse all_tags).*1 = filter (is_valid parse) all_tags.
Proof.
  rewrite collect_valid_omap.
  induction all_tags as [|tag tags IH]; simpl; [done|].
  rewrite filter_cons.
  destruct (decide (is_valid parse tag)) as [[v Hv]|Hno].
  - rewrite Hv. simpl. by f_equal.
  - destruct (parse tag) eqn:Hp; simpl; [|done].
    destruct Hno. unfold is_valid. rewrite Hp. eauto.
Qed.

(** filtering names by version is filtering the pairs by their version *)
Lemma filter_same_version_names (v : V) (pairs : list (string * V)) :
  Forall (parsed_pair parse) pairs →
  filter (λ tag, same_version parse vltb v tag = true) pairs.*1
  = (filter (λ p, negb (vltb p.2 v) && negb (vltb v p.2) = true) pairs).*1.
Proof.
  induction 1 as [|[tag w] pairs Hp _ IH]; [done|].
  rewrite fmap_cons, !filter_cons, IH.
  unfold parsed_pair in Hp. simpl in Hp.
  assert (same_version parse vltb v tag = negb (vltb w v) && negb (vltb v w))
    as Heq by (unfold same_version; by rewrite Hp).
  simpl. repeat case_decide; try done; congruence.
Qed.

Lemma same_version_valid (v : V) (tag : string) :
  same_version parse vltb v tag = true → is_valid parse tag.
Proof. unfold same_version, is_valid. destruct (parse tag); [eauto|done]. Qed.

Lemma Sorted_Forall_both {A} (R : relation A) (P : A → Prop) (l : list A) :
  Sorted R l → Forall P l → Sorted (λ a b, R a b ∧ P a ∧ P b) l.
Proof.
  induction 1 as [|x l _ IH Hhd]; intros HP; constructor.
  - apply IH. by inversion HP.
  - destruct Hhd; constructor. inversion HP as [|?? ? HPl]; subst.
    inversion HPl; subst. done.
Qed.

Context `{!StrictWeak vltb}.

Lemma tied_versions (v : V) (p q : string * V) :
  negb (vltb p.2 v) && negb (vltb v p.2) = true →
  negb (vltb q.2 v) && negb (vltb v q.2) = true →
  vltb q.2 p.2 = false.
Proof.
  rewrite !andb_true_iff, !negb_true_iff. intros [_ Hvp] [Hqv _].
  by apply (sw_negtrans _ v).
Qed.

Lemma get_sorted_tags_Permutation (all_tags : list string) :
  get_sorted_tags parse vltb all_tags ≡ₚ filter (is_valid parse) all_tags.
Proof.
  unfold get_sorted_tags; cbv zeta.
  by rewrite list_sort_Permutation, collect_valid_names.
Qed.

Lemma get_sorted_tags_descending (all_tags : list string) :
  Sorted (not_older parse vltb) (get_sorted_tags parse vltb all_tags).
Proof.
  unfold get_sorted_tags; cbv zeta.
  apply (Sorted_fmap _ (λ p q, flip (key_le snd vltb) p q
                             ∧ parsed_pair parse p ∧ parsed_pair parse q)).
  { intros [a va] [b vb] (Hle & Ha & Hb). exists va, vb. done. }
  apply Sorted_Forall_both; [by apply Sorted_list_sort_reverse|].
  rewrite list_sort_Permutation. apply collect_valid_parsed.
Qed.

Lemma get_sorted_tags_stable (all_tags : list string) (v : V) :
  filter (λ tag, same_version parse vltb v tag = true)
         (get_sorted_tags parse vltb all_tags)
  = filter (λ tag, same_version parse vltb v tag = true) all_tags.
Proof.
  unfold get_sorted_tags; cbv zeta.
  rewrite filter_same_version_names
    by (rewrite list_sort_Permutation; apply collect_valid_parsed).
  rewrite (filter_list_sort snd vltb _ (tied_versions v)).
  rewrite <-filter_same_version_names by apply collect_valid_parsed.
  rewrite collect_valid_names, list_filter_filter.
  apply list_filter_iff. intros tag. split; [by intros [??]|].
  intros Hsame. split; [done|]. by eapply same_version_valid.
Qed.

Lemma get_sorted_tags_valid (all_tags : list string) (tag : string) :
  tag ∈ get_sorted_tags parse vltb all_tags → is_valid parse tag.
Proof.
  rewrite get_sorted_tags_Permutation, list_elem_of_filter. by intros [??].
Qed.

End version_index_facts.

(** ** The release fragment is ordered as the sort needs *)

Lemma pep440_ltb_asym (a b : list N) :
  Pep440.ltb a b = true → Pep440.ltb b a = false.
Proof.
  revert b. induction a as [|x a IH]; intros [|y b]; simpl; try done.
  destruct (N.ltb_spec x y), (N.ltb_spec y x); try done; try lia.
  apply IH.
Qed.

Lemma pep440_ltb_negtrans (a b c : list N) :
  Pep440.ltb a b = false → Pep440.ltb b c = false → Pep440.ltb a c = false.
Proof.
  revert b c. induction a as [|x a IH]; intros [|y b] [|z c]; simpl; try done.
  destruct (N.ltb_spec x y), (N.ltb_spec y x), (N.ltb_spec y z),
    (N.ltb_spec z y), (N.ltb_spec x z), (N.ltb_spec z x);
    try done; try lia.
  apply IH.
Qed.

#[global] Instance pep440_strict_weak : StrictWeak Pep440.ltb.
Proof. split; [apply pep440_ltb_asym|apply pep440_ltb_negtrans]. Qed.

(** C4 (amended). For every list of tag names, [get_sorted_tags] returns
    exactly the names that parse (as a multiset), in descending order of
    parsed version: no entry is older than the one after it.  Names whose
    versions compare equal keep the order they had in the input, so the
    order is not strict when two names denote the same version.  A name that
    does not parse is skipped and never appears. *)
Theorem get_sorted_tags_index {V : Type} (parse : string → option V)
    (vltb : V → V → bool) (Hord : StrictWeak vltb) (all_tags : list string) :
  get_sorted_tags parse vltb all_tags ≡ₚ filter (is_valid parse) all_tags
  ∧ Sorted (not_older parse vltb) (get_sorted_tags parse vltb all_tags)
  ∧ (∀ v, filter (λ tag, same_version parse vltb v tag = true)
                 (get_sorted_tags parse vltb all_tags)
          = filter (λ tag, same_version parse vltb v tag = true) all_tags)
  ∧ (∀ tag, parse tag = None → tag ∉ get_sorted_tags parse vltb all_tags).
Proof.
  split_and!.
  - apply get_sorted_tags_Permutation.
  - by apply get_sorted_tags_descending.
  - intros v. by apply get_sorted_tags_stable.
  - intros tag Hnone Hin. apply get_sorted_tags_valid in Hin as [v Hv].
    congruence.
Qed.

Lemma get_sorted_tags_index_witness :
  let tags := ["1.2.0"; "1.3.0"; "0.9.0"; "not-a-version"; "1.3"] in
  get_sorted_tags Pep440.parse Pep440.ltb tags
    ≡ₚ filter (is_valid Pep440.parse) tags
  ∧ Sorted (not_older Pep440.parse Pep440.ltb)
           (get_sorted_tags Pep440.parse Pep440.ltb tags)
  ∧ (∀ v, filter (λ tag, same_version Pep440.parse Pep440.ltb v tag = true)
                 (get_sorted_tags Pep440.parse Pep440.ltb tags)
          = filter (λ tag, same_version Pep440.parse Pep440.ltb v tag = true) tags)
  ∧ (∀ tag, Pep440.parse tag = None
            → tag ∉ get_sorted_tags Pep440.parse Pep440.ltb tags).
Proof.
  exact (get_sorted_tags_index Pep440.parse Pep440.ltb pep440_strict_weak
           ["1.2.0"; "1.3.0"; "0.9.0"; "not-a-version"; "1.3"]).
Defined.

Example get_sorted_tags_spec_example :
  get_sorted_tags Pep440.parse Pep440.ltb
    ["1.2.0"; "1.3.0"; "0.9.0"; "not-a-version"] = ["1.3.0"; "1.2.0"; "0.9.0"].
Proof. reflexivity. Qed.

(** Two names of one version: the index is not strictly descending. *)
Lemma get_sorted_tags_ties_not_strict :
  ¬ Sorted (strictly_newer Pep440.parse Pep440.ltb)
           (get_sorted_tags Pep440.parse Pep440.ltb ["1.0"; "1.0.0"]).
Proof.
  change (get_sorted_tags Pep440.parse Pep440.ltb ["1.0"; "1.0.0"])
    with ["1.0"; "1.0.0"].
  intros Hsorted. inversion Hsorted as [|?? _ Hhd]; subst.
  inversion Hhd as [|?? (va & vb & Ha & Hb & Hlt)]; subst.
  vm_compute in Ha, Hb. by simplify_eq.
Qed.

(** ** The trace monad *)

Section emits_only_facts.
Context (P : Event → Prop).

Lemma emits_only_ret {A} (a : A) : emits_only P (ret a).
Proof. intros tr. exists []. by rewrite app_nil_r. Qed.

Lemma emits_only_raise {A} (e : Exn) : emits_only P (raise (A:=A) e).
Proof. intros tr. exists []. by rewrite app_nil_r. Qed.

Lemma emits_only_emit (e : Event) : P e → emits_only P (emit e).
Proof. intros He tr. exists [e]. split; [done|]. by constructor. Qed.

Lemma emits_only_print (text : string) :
  P (EvPrint text) → emits_only P (print text).
Proof. apply emits_only_emit. Qed.

Lemma emits_only_git (env : Env) (c : GitCmd) :
  P (EvGit c) → P (EvGitFailed c) → emits_only P (git env c).
Proof.
  intros Hran Hfailed tr. unfold git.
  destruct (git_ok env (git_history tr) c); eexists; (split; [done|]);
    by constructor.
Qed.

Lemma emits_only_bind {A B} (m : M A) (k : A → M B) :
  emits_only P m → (∀ a, emits_only P (k a)) → emits_only P (bind m k).
Proof.
  intros Hm Hk tr. unfold bind. destruct (Hm tr) as (new1 & Htr1 & Hnew1).
  destruct (m tr) as [[a|e] tr1]; simpl in Htr1; subst tr1.
  - destruct (Hk a (tr ++ new1)) as (new2 & Htr2 & Hnew2).
    exists (new1 ++ new2). rewrite Htr2, app_assoc. split; [done|].
    by apply Forall_app.
  - by exists new1.
Qed.

Lemma emits_only_try_except {A} (m : M A) (handler : Exn → M A) :
  emits_only P m → (∀ e, emits_only P (handler e)) →
  emits_only P (try_except m handler).
Proof.
  intros Hm Hh tr. unfold try_except. destruct (Hm tr) as (new1 & Htr1 & Hnew1).
  destruct (m tr) as [[a|e] tr1]; simpl in Htr1; subst tr1.
  - by exists new1.
  - destruct (Hh e (tr ++ new1)) as (new2 & Htr2 & Hnew2).
    exists (new1 ++ new2). rewrite Htr2, app_assoc. split; [done|].
    by apply Forall_app.
Qed.

End emits_only_facts.

(** walks through a computation built from the combinators *)
Ltac emits_only_step :=
  first
    [ apply emits_only_ret
    | apply emits_only_raise
    | apply emits_only_print
    | apply emits_only_emit
    | apply emits_only_git
    | apply emits_only_try_except; [|intros ?]
    | apply emits_only_bind; [|intros ?] ].

Ltac emits_only_walk :=
  repeat first [ emits_only_step | case_match | done ].

Lemma git_operations_emits (P : Event → Prop) (env : Env)
    (action target : string) (reset : bool) :
  (∀ text, P (EvPrint text)) → (∀ c, P (EvGit c)) → (∀ c, P (EvGitFailed c)) →
  emits_only P (git_operations env action target reset).
Proof. intros ???. unfold git_operations. emits_only_walk. Qed.

Lemma read_reqs_emits (P : Event → Prop) (f : ReqsFile) :
  emits_only P (read_reqs f).
Proof. unfold read_reqs. emits_only_walk. Qed.

Lemma report_reqs_emits_no_pyproject (env : Env) (before_reqs : list string) :
  emits_only no_pyproject_report (report_reqs env before_reqs).
Proof.
  unfold report_reqs, install_requirements.
  apply emits_only_bind; [apply read_reqs_emits|intros ?].
  emits_only_walk.
Qed.

(** ** The reconciliation engine *)

Lemma existsb_Forall_false {A} (f : A → bool) (l : list A) :
  Forall (λ x, f x = false) l → existsb f l = false.
Proof. induction 1 as [|x l Hx _ IH]; simpl; [done|]. by rewrite Hx, IH. Qed.

Lemma git_history_app (tr1 tr2 : list Event) :
  git_history (tr1 ++ tr2) = git_history tr1 ++ git_history tr2.
Proof. apply omap_app. Qed.

Lemma git_run_ok (env : Env) (c : GitCmd) (tr : list Event) :
  git_always_ok env → git env c tr = (Ok tt, tr ++ [EvGit c]).
Proof. intros Hok. unfold git. by rewrite Hok. Qed.

(** With a known action and no failing command the operations finish, and
    leave only prints and git events behind. *)
Lemma git_operations_ok (env : Env) (action target : string) (reset : bool)
    (tr : list Event) :
  git_always_ok env → known_action action →
  ∃ new, git_operations env action target reset tr = (Ok true, tr ++ new)
         ∧ Forall no_report new.
Proof.
  intros Hok Hknown.
  destruct (git_operations_emits no_report env action target reset)
    with (tr := tr) as (new & Hnew & Hquiet); [done..|].
  exists new. split; [|done].
  destruct (git_operations env action target reset tr) as [r tr'] eqn:Hrun.
  simpl in Hnew. subst tr'. f_equal.
  apply (f_equal fst) in Hrun. simpl in Hrun. subst r.
  unfold git_operations, bind, print, emit, try_except, ret.
  destruct Hknown as [->|[->| ->]], reset; simpl;
    rewrite ?git_run_ok by done; simpl;
    rewrite ?git_run_ok by done; simpl;
    rewrite ?git_run_ok by done; done.
Qed.

(** *** When the structured manifest stays silent *)

Lemma pyproject_silent_no_uv (env : Env) :
  uv_installed env = false → pyproject_silent env.
Proof.
  intros Huv tr. unfold snapshot_pyproject_before. by rewrite Huv.
Qed.

Lemma pyproject_silent_missing (env : Env) :
  pyproject_missing (pyproject_before env)
  ∨ pyproject_missing (pyproject_after env) →
  pyproject_silent env.
Proof.
  intros Hmissing tr.
  unfold report_pyproject, snapshot_pyproject_before, snapshot_pyproject_after.
  destruct Hmissing as [[-> | ->]|[-> | ->]]; rewrite ?andb_false_r;
    repeat case_match; done.
Qed.

Lemma pyproject_silent_permuted (env : Env) (deps1 deps2 : list string) :
  pyproject_before env = PyDeps deps1 → pyproject_after env = PyDeps deps2 →
  deps1 ≡ₚ deps2 → pyproject_silent env.
Proof.
  intros Hb Ha Hperm tr.
  unfold report_pyproject, snapshot_pyproject_before, snapshot_pyproject_after.
  rewrite Hb, Ha. destruct (uv_installed env); simpl; [|done].
  rewrite (sorted_str_Permutation deps1 deps2 Hperm).
  rewrite bool_decide_eq_false_2; [done|]. by intros Hne.
Qed.

Lemma report_pyproject_silent_emits (P : Event → Prop) (env : Env) :
  pyproject_silent env →
  emits_only P (report_pyproject env (snapshot_pyproject_before env)).
Proof.
  intros Hsilent tr. exists []. by rewrite Hsilent, app_nil_r.
Qed.

(** A silent structured manifest never shows up in the trace of a run. *)
Lemma perform_update_no_pyproject_report (env : Env)
    (selection : option Selection) (reset : bool) :
  pyproject_silent env →
  reports_pyproject_change (trace_of (perform_update env selection reset)) = false.
Proof.
  intros Hsilent.
  assert (emits_only no_pyproject_report (perform_update env selection reset))
    as Hemits.
  { unfold perform_update. destruct selection as [selection|]; [|emits_only_walk].
    apply emits_only_bind; [apply read_reqs_emits|intros before_reqs].
    apply emits_only_bind; [by apply git_operations_emits|intros [|]];
      [|emits_only_walk].
    apply emits_only_bind; [emits_only_walk|intros _].
    apply emits_only_bind; [emits_only_walk|intros _].
    apply emits_only_bind; [by apply report_pyproject_silent_emits|intros [|]];
      [|emits_only_walk].
    apply report_reqs_emits_no_pyproject. }
  destruct (Hemits []) as (new & Htr & Hnew).
  unfold reports_pyproject_change, trace_of, run. rewrite Htr. simpl.
  by apply existsb_Forall_false.
Qed.

Lemma read_reqs_listing (f : ReqsFile) (tr : list Event) :
  f ≠ ReqsOtherError → read_reqs f tr = (Ok (reqs_listing f), tr).
Proof. by destruct f. Qed.

Lemma report_reqs_run (env : Env) (before_reqs : list string) (tr : list Event) :
  reqs_after env ≠ ReqsOtherError →
  ∃ new, report_reqs env before_reqs tr = (Ok tt, tr ++ new)
         ∧ existsb is_reqs_report new
           = bool_decide (before_reqs ≠ reqs_listing (reqs_after env)).
Proof.
  intros Hafter. unfold report_reqs, bind.
  rewrite read_reqs_listing by done.
  destruct (bool_decide (before_reqs ≠ reqs_listing (reqs_after env))).
  - unfold print, emit, install_requirements, emit. simpl.
    eexists. rewrite <-!app_assoc. split; [done|]. done.
  - exists []. by rewrite app_nil_r.
Qed.

(** With a silent structured manifest, a known action and no failing
    command, the run finishes and reports a change of the requirements
    listing exactly when the two listings differ. *)
Lemma perform_update_reqs_report (env : Env) (selection : Selection)
    (reset : bool) :
  pyproject_silent env → git_always_ok env →
  known_action (sel_action selection) →
  reqs_before env ≠ ReqsOtherError → reqs_after env ≠ ReqsOtherError →
  succeeded (run (perform_update env (Some selection) reset)).1 = true
  ∧ reports_reqs_change (trace_of (perform_update env (Some selection) reset))
    = bool_decide (reqs_listing (reqs_before env) ≠ reqs_listing (reqs_after env)).
Proof.
  intros Hsilent Hok Hknown Hbefore Hafter.
  unfold reports_reqs_change, trace_of, run, perform_update, bind.
  rewrite read_reqs_listing by done.
  destruct (git_operations_ok env (sel_action selection) (sel_target selection)
              reset [] Hok Hknown) as (new & -> & Hquiet).
  unfold print, emit. rewrite git_run_ok by done. rewrite Hsilent.
  destruct (report_reqs_run env (reqs_listing (reqs_before env))
              ((([] ++ new) ++
                [EvPrint (nl +:+ "Performing repository maintenance...")]) ++
               [EvGit GitGcAuto]) Hafter) as (new' & -> & Hreport).
  split; [done|]. simpl.
  rewrite !existsb_app, Hreport. simpl.
  rewrite existsb_Forall_false; [done|].
  eapply Forall_impl; [done|]. by intros e [_ ?].
Qed.

(** C2 (amended). For every action, target, reset flag and outcome of the
    git commands, the engine attempts exactly the commands of the table,
    with one difference from the table as worded: a reset checkout fetches
    after the checkout, and falls back to a reset to the target itself when
    the fetch or the reset to [origin/<target>] fails.  A reset pull is a
    fetch and a hard reset, never a merge-pull. *)
Theorem git_operations_follow_engine_plan (env : Env) (kind : ActionKind)
    (target : string) (reset : bool) :
  git_events (trace_of (git_operations env (action_name kind) target reset))
  = trace_of (run_plan env (engine_plan kind target reset))
  ∧ raised (run (git_operations env (action_name kind) target reset)).1
    = raised (run (run_plan env (engine_plan kind target reset))).1
  ∧ GitPull ∉ git_attempts
      (trace_of (git_operations env (action_name Pull) target true)).
Proof.
  split_and!.
  - destruct kind, reset; unfold trace_of, run; simpl;
      unfold git_operations, run_plan, run_cmds, bind, print, emit,
        try_except, ret, git; simpl;
      repeat (case_match; simplify_eq/=); done || congruence.
  - destruct kind, reset; unfold trace_of, run; simpl;
      unfold git_operations, run_plan, run_cmds, bind, print, emit,
        try_except, ret, git; simpl;
      repeat (case_match; simplify_eq/=); done || congruence.
  - unfold trace_of, run; simpl.
    unfold git_operations, bind, print, emit, ret, git; simpl.
    repeat (case_match; simplify_eq/=);
      rewrite list_elem_of_In; simpl; intuition discriminate.
Qed.

(** A reset checkout with every command succeeding: the engine fetches
    between the checkout and the reset, which the table as worded omits. *)
Lemma reset_checkout_is_not_table_plan :
  git_events (trace_of (git_operations quiet_env (action_name Checkout) "main" true))
  ≠ trace_of (run_plan quiet_env (table_plan Checkout "main" true)).
Proof. vm_compute. discriminate. Qed.

Example reset_checkout_commands :
  git_attempts (trace_of (git_operations quiet_env "checkout" "main" true))
  = [GitCheckout "main"; GitFetch; GitResetHard "origin/main"].
Proof. reflexivity. Qed.

Example reset_pull_commands :
  git_attempts (trace_of (git_operations quiet_env "pull" "main" true))
  = [GitFetch; GitResetHard "origin/main"].
Proof. reflexivity. Qed.

(** *** The structured-manifest step in any world *)

(** It is silent and lets the run go on, or it reports the change, calls
    [install_requirements_uv] and goes on only after the answer
    "requirements". *)
Lemma report_pyproject_cases (env : Env) :
  pyproject_silent env
  ∨ ∃ new,
      (∀ tr, report_pyproject env (snapshot_pyproject_before env) tr
             = (Ok (goes_on (uv_result env)), tr ++ new))
      ∧ existsb is_pyproject_report new = true
      ∧ existsb is_reqs_report new = false
      ∧ git_events new = [].
Proof.
  unfold pyproject_silent, report_pyproject.
  destruct (snapshot_pyproject_before env) as [before_deps|]; [|by left].
  destruct (snapshot_pyproject_after env) as [after_deps|]; [|by left].
  case_bool_decide; [|by left].
  right.
  exists [EvPrint (nl +:+ "--- Changes in pyproject.toml (dependencies) ---");
          EvDiff "before pyproject.toml" "after pyproject.toml"
                 ((λ dep, dep +:+ nl) <$> before_deps)
                 ((λ dep, dep +:+ nl) <$> after_deps);
          EvPrint "------------------------------------";
          EvPrint (nl +:+ "Would you like to run uv sync to update dependencies?");
          EvInstallRequirementsUv].
  split_and!; [|done..].
  intros tr. unfold bind, print, emit, install_requirements_uv, bind, emit, ret.
  simpl. rewrite <-!app_assoc. simpl. by destruct (uv_result env).
Qed.

(** With a known action and no failing command the run gets to the end of
    the structured-manifest step, [gc --auto] being the last command sent,
    and reads the requirements listing again unless a change of
    [pyproject.toml] was reported and the answer was not "requirements". *)
Lemma perform_update_requirements_step (env : Env) (selection : Selection)
    (reset : bool) :
  git_always_ok env → known_action (sel_action selection) →
  reqs_before env ≠ ReqsOtherError →
  ∃ pre,
    existsb is_reqs_report pre = false
    ∧ last (git_events pre) = Some (EvGit GitGcAuto)
    ∧ run (perform_update env (Some selection) reset)
      = if negb (existsb is_pyproject_report pre) || goes_on (uv_result env)
        then report_reqs env (reqs_listing (reqs_before env)) pre
        else (Ok tt, pre).
Proof.
  intros Hok Hknown Hbefore.
  destruct (git_operations_ok env (sel_action selection) (sel_target selection)
              reset [] Hok Hknown) as (ops & Hops & Hquiet).
  simpl in Hops.
  set (notice := EvPrint (nl +:+ "Performing repository maintenance...")).
  assert (existsb is_pyproject_report (ops ++ [notice; EvGit GitGcAuto]) = false
          ∧ existsb is_reqs_report (ops ++ [notice; EvGit GitGcAuto]) = false
          ∧ last (git_events (ops ++ [notice; EvGit GitGcAuto]))
            = Some (EvGit GitGcAuto)) as (Hpy & Hreqs & Hlast).
  { rewrite !existsb_app. simpl. rewrite !orb_false_r. split_and!.
    - apply existsb_Forall_false. eapply Forall_impl; [done|]. by intros e [? _].
    - apply existsb_Forall_false. eapply Forall_impl; [done|]. by intros e [_ ?].
    - unfold git_events. rewrite filter_app.
      rewrite filter_cons, decide_False by done.
      rewrite filter_cons, decide_True by done.
      apply last_snoc. }
  assert (run (perform_update env (Some selection) reset)
          = bind (report_pyproject env (snapshot_pyproject_before env))
                 (λ continue,
                    if continue
                    then report_reqs env (reqs_listing (reqs_before env))
                    else ret tt)
                 (ops ++ [notice; EvGit GitGcAuto])) as ->.
  { unfold run, perform_update, bind.
    rewrite read_reqs_listing, Hops by done.
    unfold print, emit. rewrite git_run_ok by done.
    by rewrite <-!app_assoc. }
  unfold bind.
  destruct (report_pyproject_cases env) as [Hsilent|(new & Hrun & Hnew & Hnone & Hgit)].
  - exists (ops ++ [notice; EvGit GitGcAuto]).
    by rewrite Hsilent, Hpy.
  - exists ((ops ++ [notice; EvGit GitGcAuto]) ++ new).
    rewrite Hrun. split_and!.
    + by rewrite existsb_app, Hreqs, Hnone.
    + unfold git_events in *. by rewrite filter_app, Hgit, app_nil_r.
    + rewrite existsb_app, Hnew, orb_true_r. simpl.
      by destruct (goes_on (uv_result env)).
Qed.

(** what the requirements step adds to the reports of a trace *)
Lemma report_reqs_reports (env : Env) (before_reqs : list string)
    (pre : list Event) :
  reqs_after env ≠ ReqsOtherError →
  reports_pyproject_change (report_reqs env before_reqs pre).2
  = reports_pyproject_change pre
  ∧ reports_reqs_change (report_reqs env before_reqs pre).2
    = reports_reqs_change pre
      || bool_decide (before_reqs ≠ reqs_listing (reqs_after env)).
Proof.
  intros Hafter.
  destruct (report_reqs_run env before_reqs pre Hafter) as (new & Hrun & Hnew).
  destruct (report_reqs_emits_no_pyproject env before_reqs pre)
    as (new' & Htr & Hquiet).
  rewrite Hrun in Htr. simpl in Htr. apply app_inv_head in Htr. subst new'.
  rewrite Hrun. unfold reports_pyproject_change, reports_reqs_change. simpl.
  rewrite !existsb_app, Hnew. split; [|done].
  rewrite (existsb_Forall_false is_pyproject_report new) by done.
  apply orb_false_r.
Qed.

(** In a run of a known action in which no git command fails, a change of
    the requirements listing is reported exactly when the two listings
    differ and the run reaches their comparison: no change of
    [pyproject.toml] was reported, or the answer to the question that
    follows such a report was "requirements". *)
Lemma perform_update_requirements_reported (env : Env) (selection : Selection)
    (reset : bool) :
  git_always_ok env → known_action (sel_action selection) →
  reqs_before env ≠ ReqsOtherError → reqs_after env ≠ ReqsOtherError →
  reports_reqs_change (trace_of (perform_update env (Some selection) reset))
  = (negb (reports_pyproject_change
             (trace_of (perform_update env (Some selection) reset)))
     || goes_on (uv_result env))
    && bool_decide (reqs_listing (reqs_before env)
                    ≠ reqs_listing (reqs_after env)).
Proof.
  intros Hok Hknown Hbefore Hafter.
  destruct (perform_update_requirements_step env selection reset)
    as (pre & Hnone & _ & Hrun); [done..|].
  unfold trace_of. rewrite Hrun.
  destruct (negb (existsb is_pyproject_report pre) || goes_on (uv_result env))
    eqn:Hreach.
  - destruct (report_reqs_reports env (reqs_listing (reqs_before env)) pre Hafter)
      as [-> ->].
    unfold reports_pyproject_change, reports_reqs_change.
    by rewrite Hreach, Hnone.
  - cbn [snd]. unfold reports_pyproject_change, reports_reqs_change.
    by rewrite Hreach, Hnone.
Qed.

(** C5 (amended). If [pyproject.toml] is absent or unreadable at either
    snapshot, no change is reported for it, and this does not stop the
    requirements comparison: in a run of a known action in which no git
    command fails, the listing is compared as in any other run.  A
    [requirements.txt] that is absent, or whose read raises an [IOError], is
    not skipped: it counts as an empty listing.  In every such run in which
    reading [requirements.txt] raises nothing but [IOError], a change of the
    listing is reported exactly when the two listings so obtained differ and
    the run reaches their comparison, which it does unless a change of
    [pyproject.toml] was reported and the answer to the question that
    follows was not "requirements" (lines 311-312). *)
Theorem missing_manifest_handling (env : Env) (selection : Selection)
    (reset : bool) :
  (pyproject_missing (pyproject_before env)
   ∨ pyproject_missing (pyproject_after env) →
   reports_pyproject_change
     (trace_of (perform_update env (Some selection) reset)) = false
   ∧ (git_always_ok env → known_action (sel_action selection) →
      reqs_before env ≠ ReqsOtherError → reqs_after env ≠ ReqsOtherError →
      reports_reqs_change (trace_of (perform_update env (Some selection) reset))
      = bool_decide (reqs_listing (reqs_before env)
                     ≠ reqs_listing (reqs_after env))))
  ∧ (git_always_ok env → known_action (sel_action selection) →
     reqs_before env ≠ ReqsOtherError → reqs_after env ≠ ReqsOtherError →
     reports_reqs_change (trace_of (perform_update env (Some selection) reset))
     = (negb (reports_pyproject_change
                (trace_of (perform_update env (Some selection) reset)))
        || goes_on (uv_result env))
       && bool_decide (reqs_listing (reqs_before env)
                       ≠ reqs_listing (reqs_after env))).
Proof.
  split.
  - intros Hmissing. apply pyproject_silent_missing in Hmissing.
    pose proof (perform_update_no_pyproject_report env (Some selection) reset
                  Hmissing) as Hnone.
    split; [done|]. intros Hok Hknown Hbefore Hafter.
    by rewrite perform_update_requirements_reported, Hnone.
  - apply perform_update_requirements_reported.
Qed.

Lemma missing_manifest_handling_witness :
  (reports_pyproject_change
     (trace_of (perform_update new_reqs_env (Some pull_main) false)) = false
   ∧ reports_reqs_change
       (trace_of (perform_update new_reqs_env (Some pull_main) false))
     = bool_decide (reqs_listing (reqs_before new_reqs_env)
                    ≠ reqs_listing (reqs_after new_reqs_env)))
  ∧ reports_reqs_change
      (trace_of (perform_update new_reqs_env (Some pull_main) false))
    = (negb (reports_pyproject_change
               (trace_of (perform_update new_reqs_env (Some pull_main) false)))
       || goes_on (uv_result new_reqs_env))
      && bool_decide (reqs_listing (reqs_before new_reqs_env)
                      ≠ reqs_listing (reqs_after new_reqs_env)).
Proof.
  destruct (missing_manifest_handling new_reqs_env pull_main false)
    as [Hmissing Hreqs].
  split.
  - destruct Hmissing as [Hpy Hcompared].
    + left. left. reflexivity.
    + split; [exact Hpy|]. apply Hcompared.
      * intros h c. reflexivity.
      * right. left. reflexivity.
      * discriminate.
      * discriminate.
  - apply Hreqs.
    + intros h c. reflexivity.
    + right. left. reflexivity.
    + discriminate.
    + discriminate.
Defined.

(** [requirements.txt] is absent before the action and present after it:
    its comparison is not skipped, a change is reported. *)
Lemma absent_requirements_still_compared :
  reqs_missing (reqs_before new_reqs_env)
  ∧ reports_reqs_change
      (trace_of (perform_update new_reqs_env (Some pull_main) false)) = true.
Proof. split; [by left|reflexivity]. Qed.

(** A changed dependency array, a changed listing, and the answer "uv sync":
    the run returns after the question and the listing is not compared. *)
Example changed_listing_unreported_after_sync :
  reqs_listing (reqs_before (changed_deps_env UvSync))
  ≠ reqs_listing (reqs_after (changed_deps_env UvSync))
  ∧ reports_pyproject_change
      (trace_of (perform_update (changed_deps_env UvSync) (Some pull_main) false))
    = true
  ∧ reports_reqs_change
      (trace_of (perform_update (changed_deps_env UvSync) (Some pull_main) false))
    = false.
Proof. split_and!; [discriminate|reflexivity|reflexivity]. Qed.

(** C8 (amended). When the dependency array after the action is a
    reordering of the one before, the structured-manifest comparison reports
    no change, in every run.  The line-for-line comparison of the
    requirements listing reports a change whenever it is made on listings
    that differ as sequences, so also on the same lines in another order.
    In a run of a known action in which no git command fails it is made,
    and the reordering reported, unless a change of [pyproject.toml] was
    reported and the answer to the question that follows was not
    "requirements" (lines 311-312): then the reordered listing goes
    unreported. *)
Theorem reordering_pyproject_vs_requirements (env : Env) (selection : Selection)
    (reset : bool) :
  (∀ deps1 deps2,
     pyproject_before env = PyDeps deps1 → pyproject_after env = PyDeps deps2 →
     deps1 ≡ₚ deps2 →
     sorted_str deps1 = sorted_str deps2
     ∧ pyproject_silent env
     ∧ reports_pyproject_change
         (trace_of (perform_update env (Some selection) reset)) = false)
  ∧ (∀ lines1 lines2,
       reqs_after env = ReqsLines lines2 →
       lines1 ≡ₚ lines2 → lines1 ≠ lines2 →
       EvDiff "before requirements.txt" "after requirements.txt" lines1 lines2
       ∈ trace_of (report_reqs env lines1))
  ∧ (∀ lines1 lines2,
       reqs_before env = ReqsLines lines1 → reqs_after env = ReqsLines lines2 →
       lines1 ≡ₚ lines2 → lines1 ≠ lines2 →
       git_always_ok env → known_action (sel_action selection) →
       reports_reqs_change (trace_of (perform_update env (Some selection) reset))
       = negb (reports_pyproject_change
                 (trace_of (perform_update env (Some selection) reset)))
         || goes_on (uv_result env)).
Proof.
  split_and!.
  - intros deps1 deps2 Hb Ha Hperm.
    pose proof (pyproject_silent_permuted env deps1 deps2 Hb Ha Hperm) as Hsilent.
    split_and!; [by apply sorted_str_Permutation|done|].
    by apply perform_update_no_pyproject_report.
  - intros lines1 lines2 Ha _ Hne.
    unfold trace_of, run, report_reqs, bind. rewrite Ha. simpl.
    rewrite bool_decide_eq_true_2 by done.
    unfold print, emit, install_requirements, emit. simpl.
    rewrite !elem_of_cons. auto.
  - intros lines1 lines2 Hb Ha _ Hne Hok Hknown.
    rewrite perform_update_requirements_reported by (by rewrite ?Hb, ?Ha).
    rewrite Hb, Ha. simpl.
    rewrite bool_decide_eq_true_2 by done. apply andb_true_r.
Qed.

Lemma reordering_pyproject_vs_requirements_witness :
  (sorted_str ["a"; "b"] = sorted_str ["b"; "a"]
   ∧ pyproject_silent reordered_env
   ∧ reports_pyproject_change
       (trace_of (perform_update reordered_env (Some pull_main) false)) = false)
  ∧ EvDiff "before requirements.txt" "after requirements.txt"
           ["a"; "b"] ["b"; "a"]
    ∈ trace_of (report_reqs reordered_env ["a"; "b"])
  ∧ reports_reqs_change
      (trace_of (perform_update reordered_env (Some pull_main) false))
    = negb (reports_pyproject_change
              (trace_of (perform_update reordered_env (Some pull_main) false)))
      || goes_on (uv_result reordered_env).
Proof.
  destruct (reordering_pyproject_vs_requirements reordered_env pull_main false)
    as (Hpy & Hcompare & Hrun).
  split; [|split].
  - apply (Hpy ["a"; "b"] ["b"; "a"]).
    + reflexivity.
    + reflexivity.
    + apply Permutation_swap.
  - apply (Hcompare ["a"; "b"] ["b"; "a"]).
    + reflexivity.
    + apply Permutation_swap.
    + discriminate.
  - apply (Hrun ["a"; "b"] ["b"; "a"]).
    + reflexivity.
    + reflexivity.
    + apply Permutation_swap.
    + discriminate.
    + intros h c. reflexivity.
    + right. left. reflexivity.
Defined.

(** The array reordered, the listing reordered: only the listing is
    reported. *)
Example reordered_listing_reported :
  reports_pyproject_change
    (trace_of (perform_update reordered_env (Some pull_main) false)) = false
  ∧ reports_reqs_change
      (trace_of (perform_update reordered_env (Some pull_main) false)) = true.
Proof. split; reflexivity. Qed.

(** The array changed, the listing reordered, the answer "uv sync": the run
    returns at line 312 and the reordering of the listing is not reported. *)
Lemma reordered_listing_unreported_after_sync :
  reqs_before (changed_and_reordered_env UvSync) = ReqsLines ["a"; "b"]
  ∧ reqs_after (changed_and_reordered_env UvSync) = ReqsLines ["b"; "a"]
  ∧ ["a"; "b"] ≡ₚ ["b"; "a"]
  ∧ ["a"; "b"] ≠ ["b"; "a"]
  ∧ reports_pyproject_change
      (trace_of (perform_update (changed_and_reordered_env UvSync)
                   (Some pull_main) false)) = true
  ∧ reports_reqs_change
      (trace_of (perform_update (changed_and_reordered_env UvSync)
                   (Some pull_main) false)) = false.
Proof.
  split_and!; try reflexivity; [apply Permutation_swap|discriminate].
Qed.

(** The same world with the answer "use requirements.txt": the listing is
    compared and its reordering reported. *)
Example reordered_listing_reported_after_requirements :
  reports_pyproject_change
    (trace_of (perform_update (changed_and_reordered_env UvRequirements)
                 (Some pull_main) false)) = true
  ∧ reports_reqs_change
      (trace_of (perform_update (changed_and_reordered_env UvRequirements)
                   (Some pull_main) false)) = true.
Proof. split; reflexivity. Qed.


(** C10. When no [uv] is found on the PATH, [pyproject.toml] is neither
    snapshotted nor diffed: the run is the same whatever the file holds
    before and after the action, no change is reported for it, and the
    requirements listing is still compared. *)
Theorem no_uv_ignores_pyproject (env : Env) (selection : Selection)
    (reset : bool) :
  uv_installed env = false →
  snapshot_pyproject_before env = None
  ∧ (∀ before after,
       run (perform_update (with_pyproject env before after) (Some selection) reset)
       = run (perform_update env (Some selection) reset))
  ∧ reports_pyproject_change
      (trace_of (perform_update env (Some selection) reset)) = false
  ∧ (git_always_ok env → known_action (sel_action selection) →
     reqs_before env ≠ ReqsOtherError → reqs_after env ≠ ReqsOtherError →
     reports_reqs_change (trace_of (perform_update env (Some selection) reset))
     = bool_decide (reqs_listing (reqs_before env)
                    ≠ reqs_listing (reqs_after env))).
Proof.
  intros Huv.
  assert (∀ before after,
            snapshot_pyproject_before (with_pyproject env before after) = None)
    as Hnone.
  { intros before after. unfold snapshot_pyproject_before. simpl.
    by rewrite Huv. }
  split_and!.
  - rewrite <-(Hnone (pyproject_before env) (pyproject_after env)). 
    by destruct env.
  - intros before after. unfold run, perform_update.
    rewrite Hnone.
    replace (snapshot_pyproject_before env) with (@None (list string)); [done|].
    rewrite <-(Hnone (pyproject_before env) (pyproject_after env)).
    by destruct env.
  - by apply perform_update_no_pyproject_report, pyproject_silent_no_uv.
  - intros. by apply perform_update_reqs_report;
      [apply pyproject_silent_no_uv|..].
Qed.

Lemma no_uv_ignores_pyproject_witness :
  snapshot_pyproject_before no_uv_env = None
  ∧ (∀ before after,
       run (perform_update (with_pyproject no_uv_env before after)
              (Some pull_main) false)
       = run (perform_update no_uv_env (Some pull_main) false))
  ∧ reports_pyproject_change
      (trace_of (perform_update no_uv_env (Some pull_main) false)) = false
  ∧ reports_reqs_change
      (trace_of (perform_update no_uv_env (Some pull_main) false))
    = bool_decide (reqs_listing (reqs_before no_uv_env)
                   ≠ reqs_listing (reqs_after no_uv_env)).
Proof.
  destruct (no_uv_ignores_pyproject no_uv_env pull_main false)
    as (Hsnap & Hsame & Hpy & Hreqs).
  - reflexivity.
  - split; [exact Hsnap|]. split; [exact Hsame|]. split; [exact Hpy|].
    apply Hreqs.
    + intros h c. reflexivity.
    + right. left. reflexivity.
    + discriminate.
    + discriminate.
Defined.

(** The same changed dependency array is reported once [uv] is there. *)
Example uv_reports_pyproject :
  reports_pyproject_change
    (trace_of (perform_update (mkEnv true (PyDeps ["a"]) (PyDeps ["a"; "b"])
                                 ReqsAbsent ReqsAbsent (λ _ _, true) UvCancelled)
                 (Some pull_main) false)) = true.
Proof. reflexivity. Qed.

(** C6 (amended). After the git operations of an action have succeeded the
    engine prints a notice and runs [git gc --auto].  When that command
    succeeds, the manifest comparisons run next.  When it fails, the error
    leaves [perform_update] at once: nothing follows in the trace and no
    manifest change is reported.  [check_remote_updates] catches whatever
    [perform_update] raises, so the failure does not escape it. *)
Theorem maintenance_then_reports (env : Env) (selection : Selection)
    (reset : bool) (ops : list Event) :
  reqs_before env ≠ ReqsOtherError →
  run (git_operations env (sel_action selection) (sel_target selection) reset)
  = (Ok true, ops) →
  let notice := EvPrint (nl +:+ "Performing repository maintenance...") in
  (git_ok env (git_history ops) GitGcAuto = true →
   run (perform_update env (Some selection) reset)
   = bind (report_pyproject env (snapshot_pyproject_before env))
          (λ continue,
             if continue then report_reqs env (reqs_listing (reqs_before env))
             else ret tt)
          (ops ++ [notice; EvGit GitGcAuto]))
  ∧ (git_ok env (git_history ops) GitGcAuto = false →
     run (perform_update env (Some selection) reset)
     = (Raise (GitCommandError GitGcAuto), ops ++ [notice; EvGitFailed GitGcAuto])
     ∧ reports_pyproject_change
         (trace_of (perform_update env (Some selection) reset)) = false
     ∧ reports_reqs_change
         (trace_of (perform_update env (Some selection) reset)) = false)
  ∧ (∀ V (parse : string → option V) vltb ask r,
       succeeded (run (check_remote_updates parse vltb env ask r reset)).1 = true).
Proof.
  intros Hbefore Hops notice.
  assert (git_history (ops ++ [notice]) = git_history ops) as Hhist.
  { rewrite git_history_app. simpl. by rewrite app_nil_r. }
  unfold run in Hops.
  assert (perform_update env (Some selection) reset []
          = if git_ok env (git_history ops) GitGcAuto
            then bind (report_pyproject env (snapshot_pyproject_before env))
                      (λ continue,
                         if continue
                         then report_reqs env (reqs_listing (reqs_before env))
                         else ret tt)
                      (ops ++ [notice; EvGit GitGcAuto])
            else (Raise (GitCommandError GitGcAuto),
                  ops ++ [notice; EvGitFailed GitGcAuto])) as Hrun.
  { unfold perform_update, bind.
    rewrite read_reqs_listing, Hops by done.
    unfold print, emit, git. fold notice. rewrite Hhist, <-!app_assoc. simpl.
    by destruct (git_ok env (git_history ops) GitGcAuto). }
  split_and!.
  - intros Hok. unfold run. by rewrite Hrun, Hok.
  - intros Hfail. unfold trace_of, run. rewrite Hrun, Hfail.
    split; [done|].
    destruct (git_operations_emits no_report env (sel_action selection)
                (sel_target selection) reset) with (tr := @nil Event)
      as (new & Hnew & Hquiet); [done..|].
    rewrite Hops in Hnew. simpl in Hnew. subst new.
    unfold reports_pyproject_change, reports_reqs_change.
    simpl. rewrite !existsb_app. simpl.
    rewrite !orb_false_r.
    split; apply existsb_Forall_false; (eapply Forall_impl; [done|]);
      by intros e [??].
  - intros V parse vltb ask r. unfold run, check_remote_updates.
    destruct (repo_open r); try done.
    unfold try_except.
    match goal with
    | |- context [let (_, _) := ?m in _] => by destruct m as [[?|?] ?]
    end.
Qed.

Lemma maintenance_then_reports_witness :
  run (perform_update gc_fails_env (Some pull_main) false)
  = (Raise (GitCommandError GitGcAuto),
     trace_of (git_operations gc_fails_env "pull" "main" false)
     ++ [EvPrint (nl +:+ "Performing repository maintenance...");
         EvGitFailed GitGcAuto])
  ∧ reports_pyproject_change
      (trace_of (perform_update gc_fails_env (Some pull_main) false)) = false
  ∧ reports_reqs_change
      (trace_of (perform_update gc_fails_env (Some pull_main) false)) = false.
Proof.
  destruct (maintenance_then_reports gc_fails_env pull_main false
              (trace_of (git_operations gc_fails_env "pull" "main" false)))
    as (_ & Hfails & _).
  - discriminate.
  - reflexivity.
  - apply Hfails. reflexivity.
Defined.

(** The action succeeds, [git gc --auto] fails, the listing has changed:
    the run ends with the error and the change is not reported. *)
Lemma gc_failure_skips_diff_report :
  run (git_operations gc_fails_env "pull" "main" false)
  = (Ok true, [EvPrint "Pulling branch 'main'..."; EvGit GitPull;
               EvPrint "Done: Updated to the latest state."])
  ∧ reqs_listing (reqs_before gc_fails_env) ≠ reqs_listing (reqs_after gc_fails_env)
  ∧ raised (run (perform_update gc_fails_env (Some pull_main) false)).1
    = Some (GitCommandError GitGcAuto)
  ∧ reports_reqs_change
      (trace_of (perform_update gc_fails_env (Some pull_main) false)) = false.
Proof. split_and!; [reflexivity|discriminate|reflexivity|reflexivity]. Qed.

(** Seen from [check_remote_updates]: the error is printed and the run ends. *)
Example gc_failure_in_check_remote_updates :
  run (check_remote_updates Pep440.parse Pep440.ltb gc_fails_env ask_pull
         behind_and_newer_tag false)
  = (Ok tt,
     [EvPrint "Remote URL: https://example.org/project";
      EvPrint "Fetching latest info from remote (origin)...";
      EvPrint "Currently checked out tag: main";
      EvPrint "Pulling branch 'main'..."; EvGit GitPull;
      EvPrint "Done: Updated to the latest state.";
      EvPrint (nl +:+ "Performing repository maintenance...");
      EvGitFailed GitGcAuto;
      EvReportError "An error occurred: " (GitCommandError GitGcAuto)]).
Proof. reflexivity. Qed.

(** ** The divergence detector *)

Section detector_facts.
Context {V : Type} (parse : string → option V) (vltb : V → V → bool).

Lemma check_branch_type (r : Repo) (info : UpdateInfo) :
  check_branch r = Some (Some info) → u_type info = "branch".
Proof.
  unfold check_branch. intros Hcheck.
  repeat (case_match; simplify_option_eq); done.
Qed.

Lemma check_tag_type (r : Repo) (info : UpdateInfo) :
  check_tag parse vltb r = Some (Some info) → u_type info = "tag".
Proof.
  unfold check_tag. intros Hcheck.
  destruct (tags_pointing_at_head r); simpl in Hcheck; [|done].
  repeat (case_match; simplify_option_eq); done.
Qed.

Lemma check_default_branch_type (r : Repo) (info : UpdateInfo) :
  check_default_branch r = Some (Some info) → u_type info = "default_branch".
Proof.
  unfold check_default_branch. intros Hcheck.
  destruct (remote_head_branch r); simpl in Hcheck; [|done].
  repeat (case_match; simplify_option_eq); done.
Qed.

(** C1 (amended). A detection pass hands back at most one candidate.  The
    categories are tried in the order tracked branch, tag, default branch,
    and the first one that finds an update is returned at once: a category
    is reported only if every earlier one found nothing and did not fail.
    A repository that is behind its tracked branch and has a newer tag gets
    the branch candidate alone. *)
Theorem has_remote_updates_first_category (r : Repo) :
  length (detected (has_remote_updates parse vltb r)) ≤ 1
  ∧ (∀ info,
       has_remote_updates parse vltb r = (true, Some info) ↔
       repo_open r = Opens ∧ has_origin r = true ∧ fetch_tags_ok r = true
       ∧ (check_branch r = Some (Some info)
          ∨ (check_branch r = Some None
             ∧ check_tag parse vltb r = Some (Some info))
          ∨ (check_branch r = Some None
             ∧ check_tag parse vltb r = Some None
             ∧ check_default_branch r = Some (Some info))))
  ∧ (∀ info,
       info ∈ detected (has_remote_updates parse vltb r) →
       has_remote_updates parse vltb r = (true, Some info)
       ∧ (u_type info = "branch" ∨ u_type info = "tag"
          ∨ u_type info = "default_branch")).
Proof.
  assert (∀ info,
       has_remote_updates parse vltb r = (true, Some info) ↔
       repo_open r = Opens ∧ has_origin r = true ∧ fetch_tags_ok r = true
       ∧ (check_branch r = Some (Some info)
          ∨ (check_branch r = Some None
             ∧ check_tag parse vltb r = Some (Some info))
          ∨ (check_branch r = Some None
             ∧ check_tag parse vltb r = Some None
             ∧ check_default_branch r = Some (Some info)))) as Hiff.
  { intros info. unfold has_remote_updates, has_remote_updates_body.
    destruct (repo_open r), (has_origin r), (fetch_tags_ok r); simpl;
      try (split; [done|by intros (? & ? & ? & _)]).
    destruct (check_branch r) as [[b|]|]; simpl.
    - split; [intros; simplify_eq; eauto 10|].
      intros (_ & _ & _ & [?|[[??]|[??]]]); by simplify_eq.
    - destruct (check_tag parse vltb r) as [[t|]|]; simpl.
      + split; [intros; simplify_eq; eauto 10|].
        intros (_ & _ & _ & [?|[[??]|(? & ? & ?)]]); by simplify_eq.
      + destruct (check_default_branch r) as [[d|]|]; simpl.
        * split; [intros; simplify_eq; eauto 10|].
          intros (_ & _ & _ & [?|[[??]|(? & ? & ?)]]); by simplify_eq.
        * split; [done|].
          intros (_ & _ & _ & [?|[[??]|(? & ? & ?)]]); by simplify_eq.
        * split; [done|].
          intros (_ & _ & _ & [?|[[??]|(? & ? & ?)]]); by simplify_eq.
      + split; [done|].
        intros (_ & _ & _ & [?|[[??]|(? & ? & ?)]]); by simplify_eq.
    - split; [done|].
      intros (_ & _ & _ & [?|[[??]|(? & ? & ?)]]); by simplify_eq. }
  split_and!.
  - unfold detected. destruct (has_remote_updates parse vltb r).2; simpl; lia.
  - done.
  - intros info Hin.
    assert (has_remote_updates parse vltb r = (true, Some info)) as Hres.
    { unfold detected in Hin.
      destruct (has_remote_updates parse vltb r) as [flag [info'|]] eqn:Hres;
        simpl in Hin; [|by apply elem_of_nil in Hin].
      apply list_elem_of_singleton in Hin as ->.
      revert Hres. unfold has_remote_updates, has_remote_updates_body.
      repeat (case_match; simplify_option_eq); try done;
        by intros; simplify_eq. }
    split; [done|].
    apply Hiff in Hres as (_ & _ & _ & [Hb|[[_ Ht]|(_ & _ & Hd)]]).
    + left. by eapply check_branch_type.
    + right; left. by eapply check_tag_type.
    + right; right. by eapply check_default_branch_type.
Qed.

End detector_facts.

(** Behind the tracked branch and a newer tag published: both categories
    find an update, and the detection pass hands back the branch one only. *)
Lemma detector_drops_tag_when_behind :
  (∃ info, check_branch behind_and_newer_tag = Some (Some info))
  ∧ (∃ info, check_tag Pep440.parse Pep440.ltb behind_and_newer_tag
             = Some (Some info))
  ∧ ¬ ∃ info,
        info ∈ detected (has_remote_updates Pep440.parse Pep440.ltb
                           behind_and_newer_tag)
        ∧ u_type info = "tag".
Proof.
  split_and!.
  - eexists. reflexivity.
  - eexists. reflexivity.
  - intros (info & Hin & Htype).
    change (detected (has_remote_updates Pep440.parse Pep440.ltb
                        behind_and_newer_tag))
      with [mkUpdateInfo "branch" "main" "origin/main" (Some 2)
              "2 commits behind"] in Hin.
    apply list_elem_of_singleton in Hin as ->. discriminate.
Qed.

Example detector_spec_example :
  has_remote_updates Pep440.parse Pep440.ltb up_to_date_newer_tag
  = (true, Some (mkUpdateInfo "tag" "1.2.0" "1.3.0" None "1.2.0 -> 1.3.0")).
Proof. reflexivity. Qed.

(** ** The menu *)

Section menu_facts.
Context {V : Type} (parse : string → option V) (vltb : V → V → bool).

Lemma add_other_tags_eq (choices : list MenuItem) (sorted_tags : list string)
    (latest_tag : option string) :
  add_other_tags choices sorted_tags latest_tag
  = choices ++ (tag_choice <$> filter (λ tag, Some tag ≠ latest_tag)
                                      (take 10 sorted_tags)).
Proof.
  unfold add_other_tags. generalize (take 10 sorted_tags) as tags.
  intros tags. revert choices.
  induction tags as [|tag tags IH]; intros choices; simpl.
  { by rewrite app_nil_r. }
  rewrite IH, filter_cons. case_bool_decide; case_decide; try done.
  by rewrite <-app_assoc.
Qed.

(** What [pull_choice] can hand back. *)
Lemma pull_choice_items (r : Repo) (reset : bool) (name tracking : string)
    (behind : nat) (tr : list Event) :
  count_commits r (name +:+ ".." +:+ tracking) = Some behind →
  ∃ tr',
    pull_choice r reset (Some name) (Some tracking) tr
    = (Ok match behind, reset with
          | 0, false => []
          | 0, true => [Choice ("★ Pull " +:+ name)
                               (Some (mkSelection "pull" name))]
          | S _, _ => [Choice ("★ Pull " +:+ name +:+ " (" +:+ pretty behind
                               +:+ " commits behind)")
                              (Some (mkSelection "pull" name))]
          end, tr').
Proof.
  intros Hcount. unfold pull_choice. rewrite Hcount.
  destruct behind as [|n], reset; simpl; eexists; done.
Qed.

Lemma pull_choice_shape (r : Repo) (reset : bool)
    (active tracking : option string) (tr tr' : list Event)
    (pull : list MenuItem) :
  pull_choice r reset active tracking tr = (Ok pull, tr') →
  tag_entries pull = [] ∧ (∀ i, i ∈ pull → item_action i = Some "pull").
Proof.
  unfold pull_choice, ret, bind, print, emit, raise. intros Hrun.
  repeat (case_match; simplify_eq/=); split; try done;
    try (by intros i ?%elem_of_nil);
    by intros i ->%list_elem_of_singleton.
Qed.

Lemma tag_entries_app (l1 l2 : list MenuItem) :
  tag_entries (l1 ++ l2) = tag_entries l1 ++ tag_entries l2.
Proof. apply filter_app. Qed.

Lemma pull_entries_app (l1 l2 : list MenuItem) :
  pull_entries (l1 ++ l2) = pull_entries l1 ++ pull_entries l2.
Proof. apply filter_app. Qed.

Lemma tag_entries_tag_choices (tags : list string) :
  tag_entries (tag_choice <$> tags) = tag_choice <$> tags.
Proof.
  unfold tag_entries in *. induction tags as [|tag tags IH]; [done|].
  rewrite fmap_cons, filter_cons, decide_True by done. by f_equal.
Qed.

Lemma pull_entries_tag_choices (tags : list string) :
  pull_entries (tag_choice <$> tags) = [].
Proof.
  unfold pull_entries in *. induction tags as [|tag tags IH]; [done|].
  by rewrite fmap_cons, filter_cons, decide_False.
Qed.

Lemma default_branch_choice_entries (r : Repo) (active : option string) :
  tag_entries (default_branch_choice r active) = []
  ∧ pull_entries (default_branch_choice r active) = [].
Proof. unfold default_branch_choice. by repeat case_match. Qed.

Lemma latest_tag_choice_entries (latest current : option string) :
  tag_entries (latest_tag_choice parse vltb latest current)
  = latest_tag_choice parse vltb latest current
  ∧ pull_entries (latest_tag_choice parse vltb latest current) = []
  ∧ length (latest_tag_choice parse vltb latest current) ≤ 1.
Proof.
  unfold latest_tag_choice. repeat case_match; simpl; split_and!; done || lia.
Qed.

(** The menu is the default-branch entry, the pull entry, the newest tag
    and the other tags, in that order. *)
Lemma menu_of_shape (r : Repo) (reset : bool) (choices : list MenuItem) :
  menu_of parse vltb r reset = Some choices →
  let sorted_tags := get_sorted_tags parse vltb (all_tag_names r) in
  ∃ current_tags_str pull tr tr',
    tags_pointing_at_head r = Some current_tags_str
    ∧ pull_choice r reset (menu_active_branch r) (menu_tracking_branch r) tr
      = (Ok pull, tr')
    ∧ choices
      = default_branch_choice r (menu_active_branch r) ++ pull
        ++ latest_tag_choice parse vltb (head sorted_tags)
             (menu_current_tag (menu_active_branch r)
                (current_tags_of current_tags_str))
        ++ (tag_choice <$> filter (λ tag, Some tag ≠ head sorted_tags)
                                  (take 10 sorted_tags)).
Proof.
  intros Hmenu sorted_tags. unfold menu_of, run, build_choices in Hmenu.
  destruct (tags_pointing_at_head r) as [current_tags_str|]; [|done].
  exists current_tags_str.
  fold (menu_active_branch r) (menu_tracking_branch r) in Hmenu.
  unfold bind, print, emit, ret in Hmenu.
  destruct (menu_current_tag (menu_active_branch r)
              (current_tags_of current_tags_str)) as [name|] eqn:Hcurrent;
    match type of Hmenu with
    | context [pull_choice ?r ?reset ?a ?t ?tr] =>
        destruct (pull_choice r reset a t tr) as [[pull|e] tr'] eqn:Hpull;
          [|done];
        exists pull, tr, tr'
    end;
    (split; [done|]); (split; [done|]); simplify_eq/=;
    by rewrite add_other_tags_eq, <-!app_assoc.
Qed.

End menu_facts.

Section menu_claims.
Context {V : Type} (parse : string → option V) (vltb : V → V → bool).

Lemma other_tags_at_most_nine (sorted_tags : list string) :
  length (filter (λ tag, Some tag ≠ head sorted_tags) (take 10 sorted_tags)) ≤ 9.
Proof.
  destruct sorted_tags as [|newest rest]; simpl; [lia|].
  rewrite filter_cons, decide_False by (by intros Hne; apply Hne).
  etrans; [apply length_filter|]. rewrite length_take. lia.
Qed.

(** C7 (as the code has it). The tag part of the menu never has more than
    ten entries: the loop over the other tags runs over the first ten
    entries of the ordering, the newest included, and skips the newest, so
    at most nine other tags follow it.  With fifteen valid tags the menu
    shows ten of them, not eleven. *)
Theorem menu_tag_entries_at_most_ten (r : Repo) (reset : bool)
    (choices : list MenuItem) :
  menu_of parse vltb r reset = Some choices →
  length (tag_entries choices) ≤ 10.
Proof.
  intros Hmenu.
  destruct (menu_of_shape parse vltb r reset choices Hmenu)
    as (current_tags_str & pull & tr & tr' & _ & Hpull & ->).
  destruct (pull_choice_shape r reset _ _ _ _ _ Hpull) as [Hpull_tags _].
  destruct (default_branch_choice_entries r (menu_active_branch r))
    as [Hdefault _].
  rewrite !tag_entries_app, Hdefault, Hpull_tags, tag_entries_tag_choices.
  simpl. rewrite length_app, length_fmap.
  destruct (latest_tag_choice_entries parse vltb
              (head (get_sorted_tags parse vltb (all_tag_names r)))
              (menu_current_tag (menu_active_branch r)
                 (current_tags_of current_tags_str))) as (-> & _ & Hlatest).
  pose proof (other_tags_at_most_nine
                (get_sorted_tags parse vltb (all_tag_names r))).
  lia.
Qed.

(** C9. On a branch whose tracking reference it is not behind, the menu has
    no pull entry without reset mode and exactly one, without a count in its
    label, in reset mode; when the branch is behind, the one pull entry
    carries the count. *)
Theorem pull_entry_of_tracked_branch (r : Repo) (reset : bool)
    (tracking current_tags_str : string) (behind : nat) :
  head_is_detached r = false → tracking_branch r = Some tracking →
  count_commits r (active_branch_name r +:+ ".." +:+ tracking) = Some behind →
  tags_pointing_at_head r = Some current_tags_str →
  ∃ choices,
    menu_of parse vltb r reset = Some choices
    ∧ pull_entries choices
      = match behind, reset with
        | 0, false => []
        | 0, true =>
            [Choice ("★ Pull " +:+ active_branch_name r)
                    (Some (mkSelection "pull" (active_branch_name r)))]
        | S _, _ =>
            [Choice ("★ Pull " +:+ active_branch_name r +:+ " (" +:+
                     pretty behind +:+ " commits behind)")
                    (Some (mkSelection "pull" (active_branch_name r)))]
        end.
Proof.
  intros Hattached Htracking Hcount Htags.
  assert (∃ choices, menu_of parse vltb r reset = Some choices)
    as [choices Hmenu].
  { unfold menu_of, run, build_choices. rewrite Htags, Hattached, Htracking.
    unfold bind, print, emit, ret.
    destruct (menu_current_tag _ _);
      match goal with
      | |- context [pull_choice ?r ?reset _ _ ?tr] =>
          destruct (pull_choice_items r reset (active_branch_name r) tracking
                      behind tr Hcount) as [tr' ->]
      end; eauto. }
  exists choices. split; [done|].
  destruct (menu_of_shape parse vltb r reset choices Hmenu)
    as (current_tags_str' & pull & tr & tr' & _ & Hpull & ->).
  unfold menu_active_branch, menu_tracking_branch in Hpull.
  rewrite Hattached, Htracking in Hpull.
  destruct (pull_choice_items r reset (active_branch_name r) tracking behind
              tr Hcount) as [tr'' Hitems].
  rewrite Hitems in Hpull. simplify_eq.
  destruct (default_branch_choice_entries r (menu_active_branch r))
    as [_ Hdefault].
  destruct (latest_tag_choice_entries parse vltb
              (head (get_sorted_tags parse vltb (all_tag_names r)))
              (menu_current_tag (menu_active_branch r)
                 (current_tags_of current_tags_str'))) as (_ & Hlatest & _).
  rewrite !pull_entries_app, Hdefault, Hlatest, pull_entries_tag_choices.
  rewrite app_nil_r. simpl.
  by destruct behind, reset.
Qed.

End menu_claims.

Lemma menu_tag_entries_at_most_ten_witness :
  length (tag_entries (tag_choice <$> ["15"; "14"; "13"; "12"; "11"; "10";
                                       "9"; "8"; "7"; "6"])) ≤ 10.
Proof.
  apply (menu_tag_entries_at_most_ten Pep440.parse Pep440.ltb fifteen_tags false).
  reflexivity.
Defined.

(** Fifteen valid tags, none of them checked out: the menu shows the newest
    and nine more. *)
Example fifteen_tags_menu :
  menu_of Pep440.parse Pep440.ltb fifteen_tags false
  = Some (tag_choice <$> ["15"; "14"; "13"; "12"; "11"; "10"; "9"; "8"; "7"; "6"]).
Proof. reflexivity. Qed.

Lemma pull_entry_of_tracked_branch_witness :
  ∃ choices,
    menu_of Pep440.parse Pep440.ltb on_branch_with_tag true = Some choices
    ∧ pull_entries choices
      = [Choice "★ Pull main" (Some (mkSelection "pull" "main"))].
Proof.
  apply (pull_entry_of_tracked_branch Pep440.parse Pep440.ltb
           on_branch_with_tag true "origin/main" "1.0.0" 0);
    reflexivity.
Defined.

Example pull_entry_when_behind :
  option_map pull_entries
    (menu_of Pep440.parse Pep440.ltb behind_and_newer_tag false)
  = Some [Choice "★ Pull main (2 commits behind)"
                 (Some (mkSelection "pull" "main"))].
Proof. reflexivity. Qed.

(** ** The current tag *)

Lemma str_in_elem_of (x : string) (l : list string) :
  str_in x l = true ↔ x ∈ l.
Proof.
  unfold str_in. rewrite existsb_exists, list_elem_of_In. split.
  - intros (y & Hin & Heq). by apply String.eqb_eq in Heq as ->.
  - intros Hin. exists x. split; [done|]. apply String.eqb_refl.
Qed.

(** The detector follows the rule: the branch name when it is among the
    tags at HEAD, the first of them otherwise. *)
Lemma detector_current_tag_rule (r : Repo) (first : string)
    (rest : list string) :
  let current_tags := first :: rest in
  (head_is_detached r = false → active_branch_name r ∈ current_tags →
   detector_current_tag r current_tags = Some (active_branch_name r))
  ∧ (head_is_detached r = true ∨ active_branch_name r ∉ current_tags →
     detector_current_tag r current_tags = Some first)
  ∧ (∃ tag, detector_current_tag r current_tags = Some tag
            ∧ tag ∈ current_tags).
Proof.
  intros current_tags.
  assert (detector_current_tag r current_tags
          = Some (if negb (head_is_detached r)
                     && str_in (active_branch_name r) current_tags
                  then active_branch_name r else first)) as ->.
  { unfold detector_current_tag, current_tags. by case_match. }
  split_and!.
  - intros -> Hin. apply str_in_elem_of in Hin. by rewrite Hin.
  - intros [-> | Hnotin]; [done|]. rewrite <-str_in_elem_of in Hnotin.
    destruct (str_in _ _); [done|]. by rewrite andb_false_r.
  - destruct (negb _ && str_in _ _) eqn:Hcase.
    + exists (active_branch_name r). split; [done|].
      apply andb_true_iff in Hcase as [_ Hin]. by apply str_in_elem_of.
    + exists first. split; [done|]. apply list_elem_of_here.
Qed.

(** The menu builder takes the branch name whenever HEAD is attached and
    carries a tag, whether or not a tag of that name is among them. *)
Lemma menu_current_tag_on_branch (name first : string) (rest : list string) :
  menu_current_tag (Some name) (first :: rest) = Some name.
Proof. reflexivity. Qed.

(** C3 (where the code departs from it). On branch [main] with the tag
    [1.0.0] at HEAD the detector takes [1.0.0] as the current tag and
    reports the newer [2.0.0]; the menu builder takes [main], which is not
    among the tags at HEAD, prints it as the checked out tag and does not
    mark [2.0.0] as the latest. *)
Theorem menu_current_tag_not_among_tags :
  current_tags_of "1.0.0" = ["1.0.0"]
  ∧ detector_current_tag on_branch_with_tag ["1.0.0"] = Some "1.0.0"
  ∧ menu_current_tag (menu_active_branch on_branch_with_tag) ["1.0.0"]
    = Some "main"
  ∧ ("main" ∉ ["1.0.0"])
  ∧ has_remote_updates Pep440.parse Pep440.ltb on_branch_with_tag
    = (true, Some (mkUpdateInfo "tag" "1.0.0" "2.0.0" None "1.0.0 -> 2.0.0"))
  ∧ run (build_choices Pep440.parse Pep440.ltb on_branch_with_tag false)
    = (Ok [tag_choice "2.0.0"; tag_choice "1.0.0"],
       [EvPrint "Currently checked out tag: main";
        EvPrint "Current branch 'main' is up to date."])
  ∧ is_newer Pep440.parse Pep440.ltb "2.0.0" (Some "1.0.0") = true.
Proof.
  split_and!; try reflexivity.
  rewrite list_elem_of_In. simpl. intuition discriminate.
Qed.

(** * Further properties *)

(** ** More on the version index *)

Section sorted_input.
Context {A K : Type} (key : A → K) (ltb : K → K → bool).

Lemma stable_sort_sorted (l : list A) :
  Sorted (key_le key ltb) l → stable_sort key ltb l = l.
Proof.
  induction 1 as [|x l _ IH Hhd]; simpl; [done|].
  rewrite IH. destruct Hhd as [|y l Hxy]; simpl; [done|].
  unfold key_le in Hxy. by rewrite Hxy.
Qed.

Lemma list_sort_reverse_sorted (l : list A) :
  Sorted (flip (key_le key ltb)) l → list_sort key ltb true l = l.
Proof.
  intros Hsorted. unfold list_sort.
  rewrite stable_sort_sorted; [apply reverse_involutive|].
  by apply Sorted_reverse in Hsorted.
Qed.

End sorted_input.

Section version_index_more.
Context {V : Type} (parse : string → option V) (vltb : V → V → bool).

Lemma collect_valid_of_names (pairs : list (string * V)) :
  Forall (parsed_pair parse) pairs → collect_valid parse pairs.*1 = pairs.
Proof.
  rewrite collect_valid_omap.
  induction 1 as [|[tag v] pairs Hp _ IH]; simpl; [done|].
  unfold parsed_pair in Hp. simpl in Hp. rewrite Hp. simpl. by f_equal.
Qed.

Lemma elem_of_get_sorted_tags (all_tags : list string) (tag : string) :
  tag ∈ get_sorted_tags parse vltb all_tags
  ↔ tag ∈ all_tags ∧ is_valid parse tag.
Proof.
  unfold get_sorted_tags; cbv zeta.
  by rewrite list_sort_Permutation, collect_valid_names, list_elem_of_filter,
    (comm and).
Qed.

(** What goes into the index: the names that parse, each as often as the
    input has it.  So the index is no longer than the input, has no
    repeated name when the input has none, and is empty exactly when no
    name parses. *)
Theorem get_sorted_tags_content (all_tags : list string) :
  (∀ tag, tag ∈ get_sorted_tags parse vltb all_tags
          ↔ tag ∈ all_tags ∧ is_valid parse tag)
  ∧ length (get_sorted_tags parse vltb all_tags) ≤ length all_tags
  ∧ (NoDup all_tags → NoDup (get_sorted_tags parse vltb all_tags))
  ∧ (get_sorted_tags parse vltb all_tags = []
     ↔ ∀ tag, tag ∈ all_tags → parse tag = None).
Proof.
  assert (get_sorted_tags parse vltb all_tags
          ≡ₚ filter (is_valid parse) all_tags) as Hperm.
  { unfold get_sorted_tags; cbv zeta.
    by rewrite list_sort_Permutation, collect_valid_names. }
  split_and!.
  - apply elem_of_get_sorted_tags.
  - rewrite Hperm. apply length_filter.
  - intros Hnodup. rewrite Hperm. by apply NoDup_filter.
  - split.
    + intros Hnil tag Hin. destruct (parse tag) as [v|] eqn:Hp; [|done].
      assert (tag ∈ get_sorted_tags parse vltb all_tags) as Hidx.
      { apply elem_of_get_sorted_tags. split; [done|]. by exists v. }
      rewrite Hnil in Hidx. by apply elem_of_nil in Hidx.
    + intros Hnone.
      destruct (get_sorted_tags parse vltb all_tags) as [|tag idx] eqn:Hidx;
        [done|].
      assert (tag ∈ get_sorted_tags parse vltb all_tags) as Hin.
      { rewrite Hidx. apply list_elem_of_here. }
      apply elem_of_get_sorted_tags in Hin as [Hin [v Hv]].
      rewrite (Hnone tag Hin) in Hv. done.
Qed.

Context `{!StrictWeak vltb}.

Lemma not_older_trans (a b c : string) :
  not_older parse vltb a b → not_older parse vltb b c →
  not_older parse vltb a c.
Proof.
  intros (va & vb & Ha & Hb & Hab) (vb' & vc & Hb' & Hc & Hbc).
  exists va, vc. simplify_eq. split_and!; [done..|].
  by apply (sw_negtrans _ vb).
Qed.

(** The first entry of the index, which the detector and the menu take as
    the latest tag, is not older than any name of the input that parses. *)
Theorem latest_tag_is_newest (all_tags : list string) (latest tag : string) :
  head (get_sorted_tags parse vltb all_tags) = Some latest →
  tag ∈ all_tags → is_valid parse tag →
  not_older parse vltb latest tag.
Proof.
  intros Hhead Hin Hvalid.
  assert (tag ∈ get_sorted_tags parse vltb all_tags) as Hidx
    by by apply elem_of_get_sorted_tags.
  pose proof (get_sorted_tags_descending parse vltb all_tags) as Hsorted.
  destruct (get_sorted_tags parse vltb all_tags) as [|first rest]; [done|].
  simpl in Hhead. simplify_eq.
  apply elem_of_cons in Hidx as [->|Hrest].
  - destruct Hvalid as [v Hv]. exists v, v. split_and!; [done..|].
    destruct (vltb v v) eqn:Hlt; [|done].
    by rewrite (sw_asym _ _ Hlt) in Hlt.
  - assert (Transitive (not_older parse vltb)) as Htrans
      by (intros ???; apply not_older_trans).
    apply Sorted_StronglySorted in Hsorted; [|done].
    apply StronglySorted_inv in Hsorted as [_ Hall].
    by eapply Forall_forall in Hall.
Qed.

(** Building the index of an index changes nothing. *)
Theorem get_sorted_tags_idempotent (all_tags : list string) :
  get_sorted_tags parse vltb (get_sorted_tags parse vltb all_tags)
  = get_sorted_tags parse vltb all_tags.
Proof.
  unfold get_sorted_tags; cbv zeta.
  assert (Forall (parsed_pair parse)
            (list_sort snd vltb true (collect_valid parse all_tags))) as Hparsed.
  { rewrite list_sort_Permutation. apply collect_valid_parsed. }
  rewrite collect_valid_of_names by done.
  rewrite (list_sort_reverse_sorted snd vltb (list_sort snd vltb true _)); [done|].
  by apply Sorted_list_sort_reverse.
Qed.

End version_index_more.

Lemma latest_tag_is_newest_witness :
  not_older Pep440.parse Pep440.ltb "1.3.0" "0.9.0".
Proof.
  apply (latest_tag_is_newest Pep440.parse Pep440.ltb
           ["1.2.0"; "1.3.0"; "0.9.0"; "not-a-version"] "1.3.0" "0.9.0").
  - reflexivity.
  - rewrite list_elem_of_In. simpl. tauto.
  - eexists. reflexivity.
Defined.

Lemma get_sorted_tags_idempotent_witness :
  get_sorted_tags Pep440.parse Pep440.ltb
    (get_sorted_tags Pep440.parse Pep440.ltb ["1.0"; "2.0"; "x"; "1.0.0"])
  = get_sorted_tags Pep440.parse Pep440.ltb ["1.0"; "2.0"; "x"; "1.0.0"].
Proof.
  exact (get_sorted_tags_idempotent Pep440.parse Pep440.ltb
           (StrictWeak0 := pep440_strict_weak) ["1.0"; "2.0"; "x"; "1.0.0"]).
Defined.

(** ** More on the reconciliation engine *)

Lemma emits_only_trace {A} (P : Event → Prop) (m : M A) :
  emits_only P m → Forall P (trace_of m).
Proof.
  intros Hemits. destruct (Hemits []) as (new & Htr & Hnew).
  unfold trace_of, run. by rewrite Htr.
Qed.

Lemma git_attempts_satisfy (Q : GitCmd → Prop) (tr : list Event) :
  Forall (git_event_satisfies Q) tr → Forall Q (git_attempts tr).
Proof.
  induction 1 as [|e tr He _ IH]; [constructor|].
  unfold git_attempts in *. destruct e; simpl in *; try done;
    by constructor.
Qed.

Lemma install_requirements_uv_emits (P : Event → Prop) (env : Env) :
  P EvInstallRequirementsUv → emits_only P (install_requirements_uv env).
Proof. intros ?. unfold install_requirements_uv. emits_only_walk. Qed.

Lemma report_pyproject_emits (P : Event → Prop) (env : Env)
    (before_deps : option (list string)) :
  (∀ text, P (EvPrint text)) → (∀ f t a b, P (EvDiff f t a b)) →
  P EvInstallRequirementsUv →
  emits_only P (report_pyproject env before_deps).
Proof.
  intros ???. unfold report_pyproject, install_requirements_uv.
  emits_only_walk.
Qed.

Lemma report_reqs_emits (P : Event → Prop) (env : Env)
    (before_reqs : list string) :
  (∀ text, P (EvPrint text)) → (∀ f t a b, P (EvDiff f t a b)) →
  P EvInstallRequirements →
  emits_only P (report_reqs env before_reqs).
Proof.
  intros ???. unfold report_reqs, install_requirements.
  apply emits_only_bind; [apply read_reqs_emits|intros ?].
  emits_only_walk.
Qed.

(** the git commands of the operations depend on the reset flag *)
Lemma git_operations_emits_by_mode (env : Env) (action target : string)
    (reset : bool) :
  emits_only (git_event_satisfies (if reset then forceful else gentle))
             (git_operations env action target reset).
Proof. unfold git_operations. destruct reset; emits_only_walk. Qed.

Lemma perform_update_emits_by_mode (env : Env) (selection : option Selection)
    (reset : bool) :
  emits_only (git_event_satisfies (if reset then forceful else gentle))
             (perform_update env selection reset).
Proof.
  unfold perform_update. destruct selection as [selection|]; [|emits_only_walk].
  apply emits_only_bind; [apply read_reqs_emits|intros before_reqs].
  apply emits_only_bind; [apply git_operations_emits_by_mode|intros [|]];
    [|emits_only_walk].
  apply emits_only_bind; [emits_only_walk|intros _].
  apply emits_only_bind; [destruct reset; emits_only_walk|intros _].
  apply emits_only_bind; [by apply report_pyproject_emits|intros [|]];
    [|emits_only_walk].
  by apply report_reqs_emits.
Qed.

(** Without the reset flag [perform_update] sends git nothing but
    checkout, pull and [gc --auto]: no fetch and no hard reset, whatever is
    selected and whatever fails.  With the flag it never merge-pulls. *)
Theorem perform_update_commands_by_mode (env : Env)
    (selection : option Selection) (reset : bool) :
  Forall (if reset then forceful else gentle)
         (git_attempts (trace_of (perform_update env selection reset))).
Proof.
  apply git_attempts_satisfy, emits_only_trace, perform_update_emits_by_mode.
Qed.

(** what [perform_update] does once the git operations have ended *)
Lemma perform_update_after_operations (env : Env) (selection : Selection)
    (reset : bool) (result : Res bool) (ops : list Event) :
  reqs_before env ≠ ReqsOtherError →
  git_operations env (sel_action selection) (sel_target selection) reset []
  = (result, ops) →
  perform_update env (Some selection) reset []
  = match result with
    | Raise e => (Raise e, ops)
    | Ok false => (Ok tt, ops)
    | Ok true =>
        let notice := EvPrint (nl +:+ "Performing repository maintenance...") in
        if git_ok env (git_history ops) GitGcAuto
        then bind (report_pyproject env (snapshot_pyproject_before env))
                  (λ continue,
                     if continue
                     then report_reqs env (reqs_listing (reqs_before env))
                     else ret tt)
                  (ops ++ [notice; EvGit GitGcAuto])
        else (Raise (GitCommandError GitGcAuto),
              ops ++ [notice; EvGitFailed GitGcAuto])
    end.
Proof.
  intros Hbefore Hops. unfold perform_update, bind.
  rewrite read_reqs_listing, Hops by done.
  destruct result as [[|]|e]; [|done..].
  unfold print, emit, git.
  rewrite git_history_app, app_nil_r, <-!app_assoc. simpl.
  by destruct (git_ok env (git_history ops) GitGcAuto).
Qed.

(** A command that fails in the operations ends them with its error, unless
    it is the fetch or the reset to [origin/<target>] of a reset checkout:
    those are caught, and the reset to the target itself is tried. *)
Lemma git_operations_failure (env : Env) (kind : ActionKind) (target : string)
    (reset : bool) (c : GitCmd) :
  EvGitFailed c ∈ trace_of (git_operations env (action_name kind) target reset) →
  (run (git_operations env (action_name kind) target reset)
   = (Raise (GitCommandError c),
      trace_of (git_operations env (action_name kind) target reset))
   ∧ last (trace_of (git_operations env (action_name kind) target reset))
     = Some (EvGitFailed c))
  ∨ (kind = Checkout ∧ reset = true
     ∧ (c = GitFetch ∨ c = GitResetHard ("origin/" +:+ target))
     ∧ GitResetHard target
       ∈ git_attempts (trace_of (git_operations env (action_name kind) target reset))).
Proof.
  unfold trace_of, run.
  destruct kind, reset; simpl;
    unfold git_operations, bind, print, emit, try_except, ret, git; simpl;
    intros Hin;
    repeat (case_match; simplify_eq/=);
    repeat (apply elem_of_cons in Hin as [Hin|Hin]; simplify_eq/=);
    try (by apply elem_of_nil in Hin);
    try (by left);
    right; (split; [done|]); (split; [done|]); (split; [by auto|]);
    rewrite list_elem_of_In; simpl; auto.
Qed.

(** A failing command of the action is fatal: [perform_update] raises its
    error and neither the maintenance pass nor a manifest comparison
    follows.  This holds for the command an action sends first, and for
    every command that fails later, with one exception: in a reset checkout
    a failing fetch or a failing reset to [origin/<target>] is caught, and
    the reset to the target itself is tried in its place. *)
Theorem perform_update_failed_operation (env : Env) (kind : ActionKind)
    (target : string) (reset : bool) :
  reqs_before env ≠ ReqsOtherError →
  (git_ok env [] (first_command kind target reset) = false →
   raised (run (perform_update env (Some (mkSelection (action_name kind) target))
                  reset)).1
   = Some (GitCommandError (first_command kind target reset))
   ∧ git_attempts
       (trace_of (perform_update env (Some (mkSelection (action_name kind) target))
                    reset))
     = [first_command kind target reset])
  ∧ (∀ c,
       EvGitFailed c
       ∈ trace_of (git_operations env (action_name kind) target reset) →
       (run (perform_update env (Some (mkSelection (action_name kind) target))
               reset)
        = (Raise (GitCommandError c),
           trace_of (git_operations env (action_name kind) target reset))
        ∧ last (trace_of (git_operations env (action_name kind) target reset))
          = Some (EvGitFailed c)
        ∧ (GitGcAuto
           ∉ git_attempts
               (trace_of (git_operations env (action_name kind) target reset)))
        ∧ reports_pyproject_change
            (trace_of (git_operations env (action_name kind) target reset))
          = false
        ∧ reports_reqs_change
            (trace_of (git_operations env (action_name kind) target reset))
          = false)
       ∨ (kind = Checkout ∧ reset = true
          ∧ (c = GitFetch ∨ c = GitResetHard ("origin/" +:+ target))
          ∧ GitResetHard target
            ∈ git_attempts
                (trace_of (git_operations env (action_name kind) target reset)))).
Proof.
  intros Hbefore. split.
  - intros Hfirst. unfold trace_of, run, perform_update, bind.
    rewrite read_reqs_listing by done.
    unfold git_operations, bind, print, emit, git.
    destruct kind, reset; simpl in *; by rewrite Hfirst.
  - intros c Hin.
    destruct (git_operations_failure env kind target reset c Hin)
      as [[Hrun Hlast]|Hcaught]; [left|by right].
    split_and!.
    + unfold run in *.
      by rewrite (perform_update_after_operations env
                    (mkSelection (action_name kind) target) reset
                    (Raise (GitCommandError c))
                    (trace_of (git_operations env (action_name kind) target reset))).
    + done.
    + assert (Forall (λ c, c ≠ GitGcAuto)
                (git_attempts
                   (trace_of (git_operations env (action_name kind) target reset))))
        as Hnogc.
      { apply git_attempts_satisfy, emits_only_trace.
        unfold git_operations. destruct reset; emits_only_walk. }
      intros Hgc. by eapply Forall_forall in Hnogc.
    + apply existsb_Forall_false, emits_only_trace.
      by apply git_operations_emits.
    + apply existsb_Forall_false, emits_only_trace.
      by apply git_operations_emits.
Qed.

Lemma perform_update_failed_operation_witness :
  (raised (run (perform_update checkout_fails_env (Some checkout_main) false)).1
   = Some (GitCommandError (GitCheckout "main"))
   ∧ git_attempts
       (trace_of (perform_update checkout_fails_env (Some checkout_main) false))
     = [GitCheckout "main"])
  ∧ (run (perform_update checkout_fails_env (Some checkout_main) false)
     = (Raise (GitCommandError (GitCheckout "main")),
        trace_of (git_operations checkout_fails_env "checkout" "main" false))
     ∧ last (trace_of (git_operations checkout_fails_env "checkout" "main" false))
       = Some (EvGitFailed (GitCheckout "main"))
     ∧ (GitGcAuto
        ∉ git_attempts
            (trace_of (git_operations checkout_fails_env "checkout" "main" false)))
     ∧ reports_pyproject_change
         (trace_of (git_operations checkout_fails_env "checkout" "main" false))
       = false
     ∧ reports_reqs_change
         (trace_of (git_operations checkout_fails_env "checkout" "main" false))
       = false).
Proof.
  destruct (perform_update_failed_operation checkout_fails_env Checkout "main"
              false) as [Hfirst Hlater].
  - discriminate.
  - split.
    + apply Hfirst. reflexivity.
    + destruct (Hlater (GitCheckout "main")) as [Hfatal|(_ & Hreset & _)].
      * apply list_elem_of_In. simpl. auto.
      * exact Hfatal.
      * discriminate Hreset.
Defined.

(** A reset checkout of a tag: the reset to [origin/v1.0] fails and is
    caught, the reset to [v1.0] follows and the run goes on to the
    maintenance pass. *)
Example caught_reset_goes_on :
  run (perform_update tag_target_env (Some (mkSelection "checkout" "v1.0")) true)
  = (Ok tt,
     [EvPrint "Checking out tag 'v1.0'..."; EvGit (GitCheckout "v1.0");
      EvGit GitFetch; EvGitFailed (GitResetHard "origin/v1.0");
      EvGit (GitResetHard "v1.0"); EvPrint "Done: Reset to v1.0.";
      EvPrint (nl +:+ "Performing repository maintenance...");
      EvGit GitGcAuto]).
Proof. reflexivity. Qed.

(** An action the engine does not know is dropped without a trace: no git
    command, no maintenance pass, no manifest comparison, no message. *)
Theorem perform_update_unknown_action (env : Env) (selection : Selection)
    (reset : bool) :
  ¬ known_action (sel_action selection) →
  reqs_before env ≠ ReqsOtherError →
  run (perform_update env (Some selection) reset) = (Ok tt, []).
Proof.
  intros Hunknown Hbefore. unfold run.
  rewrite (perform_update_after_operations env selection reset (Ok false) []);
    [done..|].
  unfold git_operations, known_action in *.
  destruct (String.eqb_spec (sel_action selection) "checkout"); [tauto|].
  destruct (String.eqb_spec (sel_action selection) "pull"); [tauto|].
  destruct (String.eqb_spec (sel_action selection) "checkout_pull"); [tauto|].
  done.
Qed.

Lemma perform_update_unknown_action_witness :
  run (perform_update quiet_env (Some (mkSelection "merge" "main")) true)
  = (Ok tt, []).
Proof.
  apply (perform_update_unknown_action quiet_env (mkSelection "merge" "main") true).
  - intros [?|[?|?]]; discriminate.
  - discriminate.
Defined.

(** A [requirements.txt] whose reading raises something other than an
    [IOError] is not contained.  Before the action it stops
    [perform_update] ahead of any git command.  After an action that
    succeeded it raises when the repository has already been changed, the
    maintenance pass being the last command sent, provided the run gets to
    read the file again: it does not after a reported change of
    [pyproject.toml] whose question was not answered "requirements", and
    then nothing is raised.  No change of the listing is reported either
    way. *)
Theorem perform_update_undecodable_requirements (env : Env)
    (selection : Selection) (reset : bool) :
  (reqs_before env = ReqsOtherError →
   run (perform_update env (Some selection) reset) = (Raise ReadError, []))
  ∧ (reqs_before env ≠ ReqsOtherError → reqs_after env = ReqsOtherError →
     git_always_ok env → known_action (sel_action selection) →
     (raised (run (perform_update env (Some selection) reset)).1 = Some ReadError
      ↔ negb (reports_pyproject_change
                (trace_of (perform_update env (Some selection) reset)))
        || goes_on (uv_result env) = true)
     ∧ last (git_events (trace_of (perform_update env (Some selection) reset)))
       = Some (EvGit GitGcAuto)
     ∧ reports_reqs_change
         (trace_of (perform_update env (Some selection) reset)) = false).
Proof.
  split.
  - intros Hbefore. unfold run, perform_update, bind. by rewrite Hbefore.
  - intros Hbefore Hafter Hok Hknown.
    destruct (perform_update_requirements_step env selection reset)
      as (pre & Hnone & Hlast & Hrun); [done..|].
    assert (report_reqs env (reqs_listing (reqs_before env)) pre
            = (Raise ReadError, pre)) as Hread.
    { unfold report_reqs, bind. by rewrite Hafter. }
    unfold trace_of. rewrite Hrun, Hread.
    unfold reports_pyproject_change, reports_reqs_change.
    by destruct (negb (existsb is_pyproject_report pre)
                 || goes_on (uv_result env)) eqn:Hreach;
      cbn [fst snd raised]; rewrite ?Hreach.
Qed.

Lemma perform_update_undecodable_requirements_witness :
  (raised (run (perform_update
                  (mkEnv false PyAbsent PyAbsent ReqsAbsent ReqsOtherError
                     (λ _ _, true) UvCancelled)
                  (Some pull_main) false)).1
   = Some ReadError
   ↔ negb (reports_pyproject_change
             (trace_of (perform_update
                          (mkEnv false PyAbsent PyAbsent ReqsAbsent
                             ReqsOtherError (λ _ _, true) UvCancelled)
                          (Some pull_main) false)))
     || goes_on UvCancelled = true)
  ∧ last (git_events
            (trace_of (perform_update
                         (mkEnv false PyAbsent PyAbsent ReqsAbsent ReqsOtherError
                            (λ _ _, true) UvCancelled)
                         (Some pull_main) false)))
    = Some (EvGit GitGcAuto)
  ∧ reports_reqs_change
      (trace_of (perform_update
                   (mkEnv false PyAbsent PyAbsent ReqsAbsent ReqsOtherError
                      (λ _ _, true) UvCancelled)
                   (Some pull_main) false)) = false.
Proof.
  destruct (perform_update_undecodable_requirements
              (mkEnv false PyAbsent PyAbsent ReqsAbsent ReqsOtherError
                 (λ _ _, true) UvCancelled) pull_main false) as [_ Hafter].
  apply Hafter.
  - discriminate.
  - reflexivity.
  - intros h c. reflexivity.
  - right. left. reflexivity.
Defined.

Example undecodable_requirements_after_pull :
  run (perform_update (mkEnv false PyAbsent PyAbsent ReqsAbsent ReqsOtherError
                         (λ _ _, true) UvCancelled)
         (Some pull_main) false)
  = (Raise ReadError,
     [EvPrint "Pulling branch 'main'..."; EvGit GitPull;
      EvPrint "Done: Updated to the latest state.";
      EvPrint (nl +:+ "Performing repository maintenance...");
      EvGit GitGcAuto]).
Proof. reflexivity. Qed.

(** After a reported change of [pyproject.toml] answered "uv sync" the file
    is not read again and nothing is raised. *)
Example undecodable_requirements_not_read_after_sync :
  run (perform_update (mkEnv true (PyDeps ["a"]) (PyDeps ["b"]) ReqsAbsent
                         ReqsOtherError (λ _ _, true) UvSync)
         (Some pull_main) false)
  = (Ok tt,
     [EvPrint "Pulling branch 'main'..."; EvGit GitPull;
      EvPrint "Done: Updated to the latest state.";
      EvPrint (nl +:+ "Performing repository maintenance...");
      EvGit GitGcAuto]
     ++ pyproject_report_events ["a"] ["b"]).
Proof. reflexivity. Qed.

(** *** The structured manifest, when it is compared *)

Lemma sorted_str_eq_iff (deps1 deps2 : list string) :
  sorted_str deps1 = sorted_str deps2 ↔ deps1 ≡ₚ deps2.
Proof.
  split; [|apply sorted_str_Permutation].
  intros Heq.
  rewrite <-(list_sort_Permutation id String.ltb false deps1).
  rewrite <-(list_sort_Permutation id String.ltb false deps2).
  unfold sorted_str in Heq. by rewrite Heq.
Qed.

Lemma report_pyproject_changed (env : Env) (deps1 deps2 : list string)
    (tr : list Event) :
  uv_installed env = true →
  pyproject_before env = PyDeps deps1 → pyproject_after env = PyDeps deps2 →
  ¬ deps1 ≡ₚ deps2 →
  report_pyproject env (snapshot_pyproject_before env) tr
  = (Ok (goes_on (uv_result env)), tr ++ pyproject_report_events deps1 deps2).
Proof.
  intros Huv Hb Ha Hdiff.
  unfold report_pyproject, snapshot_pyproject_before, snapshot_pyproject_after.
  rewrite Huv, Hb, Ha. simpl.
  rewrite bool_decide_eq_true_2 by (by rewrite sorted_str_eq_iff).
  unfold bind, print, emit, install_requirements_uv, bind, emit, ret,
    pyproject_report_events, deps_lines.
  simpl. rewrite <-!app_assoc. simpl. by destruct (uv_result env).
Qed.

(** the run, when the action is done and the dependency arrays differ *)
Lemma perform_update_pyproject_changed (env : Env) (selection : Selection)
    (reset : bool) (deps1 deps2 : list string) :
  uv_installed env = true →
  pyproject_before env = PyDeps deps1 → pyproject_after env = PyDeps deps2 →
  git_always_ok env → known_action (sel_action selection) →
  reqs_before env ≠ ReqsOtherError → ¬ deps1 ≡ₚ deps2 →
  ∃ ops,
    Forall no_report ops
    ∧ run (perform_update env (Some selection) reset)
      = (if goes_on (uv_result env)
         then report_reqs env (reqs_listing (reqs_before env))
         else ret tt)
          (ops ++ [EvPrint (nl +:+ "Performing repository maintenance...");
                   EvGit GitGcAuto]
               ++ pyproject_report_events deps1 deps2).
Proof.
  intros Huv Hb Ha Hok Hknown Hbefore Hdiff. unfold run.
  destruct (git_operations_ok env (sel_action selection)
              (sel_target selection) reset [] Hok Hknown)
    as (ops & Hops & Hquiet). simpl in Hops.
  exists ops. split; [done|].
  rewrite (perform_update_after_operations env selection reset (Ok true) ops)
    by done.
  cbv zeta. rewrite Hok. unfold bind.
  rewrite (report_pyproject_changed env deps1 deps2) by done.
  by rewrite <-app_assoc.
Qed.

(** With [uv] at hand, both snapshots readable and the action done, a change
    of [pyproject.toml] is reported exactly when the two dependency arrays
    differ as multisets; the report shows both arrays sorted, one entry a
    line, and is followed by the question whether to run [uv sync]. *)
Theorem pyproject_report_iff_multisets_differ (env : Env)
    (selection : Selection) (reset : bool) (deps1 deps2 : list string) :
  uv_installed env = true →
  pyproject_before env = PyDeps deps1 → pyproject_after env = PyDeps deps2 →
  git_always_ok env → known_action (sel_action selection) →
  reqs_before env ≠ ReqsOtherError →
  (reports_pyproject_change
     (trace_of (perform_update env (Some selection) reset)) = true
   ↔ ¬ deps1 ≡ₚ deps2)
  ∧ (¬ deps1 ≡ₚ deps2 →
     ∀ e, e ∈ pyproject_report_events deps1 deps2 →
          e ∈ trace_of (perform_update env (Some selection) reset)).
Proof.
  intros Huv Hb Ha Hok Hknown Hbefore.
  assert (¬ deps1 ≡ₚ deps2 →
          ∃ before after,
            trace_of (perform_update env (Some selection) reset)
            = before ++ pyproject_report_events deps1 deps2 ++ after)
    as Hshape.
  { intros Hdiff.
    destruct (perform_update_pyproject_changed env selection reset deps1 deps2)
      as (ops & _ & Hrun); [done..|].
    unfold trace_of. rewrite Hrun.
    destruct (goes_on (uv_result env)).
    - destruct (report_reqs_emits (λ _, True) env
                  (reqs_listing (reqs_before env)))
        with (tr := ops ++ [EvPrint (nl +:+ "Performing repository maintenance...");
                            EvGit GitGcAuto]
                        ++ pyproject_report_events deps1 deps2)
        as (new & -> & _); [done..|].
      exists (ops ++ [EvPrint (nl +:+ "Performing repository maintenance...");
                      EvGit GitGcAuto]), new.
      by rewrite <-!app_assoc.
    - exists (ops ++ [EvPrint (nl +:+ "Performing repository maintenance...");
                      EvGit GitGcAuto]), [].
      simpl. by rewrite <-app_assoc. }
  split; [split|].
  - intros Hreport Hperm.
    pose proof (perform_update_no_pyproject_report env (Some selection) reset
                  (pyproject_silent_permuted env deps1 deps2 Hb Ha Hperm)).
    congruence.
  - intros Hdiff. destruct (Hshape Hdiff) as (before & after & ->).
    unfold reports_pyproject_change. rewrite !existsb_app. simpl.
    by rewrite !orb_true_r.
  - intros Hdiff e He. destruct (Hshape Hdiff) as (before & after & ->).
    rewrite !elem_of_app. by right; left.
Qed.

Lemma pyproject_report_iff_multisets_differ_witness :
  (reports_pyproject_change
     (trace_of (perform_update (changed_deps_env UvCancelled)
                  (Some pull_main) false)) = true
   ↔ ¬ ["a"] ≡ₚ ["b"; "a"])
  ∧ (¬ ["a"] ≡ₚ ["b"; "a"] →
     ∀ e, e ∈ pyproject_report_events ["a"] ["b"; "a"] →
          e ∈ trace_of (perform_update (changed_deps_env UvCancelled)
                          (Some pull_main) false)).
Proof.
  apply (pyproject_report_iff_multisets_differ (changed_deps_env UvCancelled)
           pull_main false ["a"] ["b"; "a"]).
  - reflexivity.
  - reflexivity.
  - reflexivity.
  - intros h c. reflexivity.
  - right. left. reflexivity.
  - discriminate.
Defined.

(** Once a change of [pyproject.toml] has been reported, the requirements
    listing is looked at only if the answer to the [uv sync] question is
    "use requirements.txt": after "uv sync" or a cancel the run ends there,
    and a changed listing goes unreported. *)
Theorem requirements_skipped_after_pyproject_report (env : Env)
    (selection : Selection) (reset : bool) (deps1 deps2 : list string) :
  uv_installed env = true →
  pyproject_before env = PyDeps deps1 → pyproject_after env = PyDeps deps2 →
  git_always_ok env → known_action (sel_action selection) →
  reqs_before env ≠ ReqsOtherError → reqs_after env ≠ ReqsOtherError →
  ¬ deps1 ≡ₚ deps2 →
  reports_reqs_change (trace_of (perform_update env (Some selection) reset))
  = goes_on (uv_result env)
    && bool_decide (reqs_listing (reqs_before env)
                    ≠ reqs_listing (reqs_after env))
  ∧ (goes_on (uv_result env) = false →
     last (trace_of (perform_update env (Some selection) reset))
     = Some EvInstallRequirementsUv).
Proof.
  intros Huv Hb Ha Hok Hknown Hbefore Hafter Hdiff.
  destruct (perform_update_pyproject_changed env selection reset deps1 deps2)
    as (ops & Hquiet & Hrun); [done..|].
  unfold trace_of. rewrite Hrun.
  assert (existsb is_reqs_report
            (ops ++ [EvPrint (nl +:+ "Performing repository maintenance...");
                     EvGit GitGcAuto]
               ++ pyproject_report_events deps1 deps2) = false) as Hnone.
  { rewrite !existsb_app. simpl. rewrite !orb_false_r.
    apply existsb_Forall_false. eapply Forall_impl; [done|]. by intros e [_ ?]. }
  destruct (goes_on (uv_result env)).
  - destruct (report_reqs_run env (reqs_listing (reqs_before env))
                (ops ++ [EvPrint (nl +:+ "Performing repository maintenance...");
                         EvGit GitGcAuto]
                     ++ pyproject_report_events deps1 deps2) Hafter)
      as (new & Hnew & Hreport).
    rewrite Hnew. cbn [fst snd andb].
    split; [|done].
    unfold reports_reqs_change. by rewrite existsb_app, Hnone, Hreport.
  - unfold ret. cbn [fst snd andb].
    split; [done|]. intros _.
    by rewrite !last_app.
Qed.

Lemma requirements_skipped_after_pyproject_report_witness :
  reports_reqs_change
    (trace_of (perform_update (changed_deps_env UvSync)
                 (Some pull_main) false))
  = goes_on UvSync
    && bool_decide (reqs_listing (reqs_before (changed_deps_env UvSync))
                    ≠ reqs_listing (reqs_after (changed_deps_env UvSync)))
  ∧ (goes_on UvSync = false →
     last (trace_of (perform_update (changed_deps_env UvSync)
                       (Some pull_main) false))
     = Some EvInstallRequirementsUv).
Proof.
  apply (requirements_skipped_after_pyproject_report (changed_deps_env UvSync)
           pull_main false ["a"] ["b"; "a"]).
  - reflexivity.
  - reflexivity.
  - reflexivity.
  - intros h c. reflexivity.
  - right. left. reflexivity.
  - discriminate.
  - discriminate.
  - intros Hperm. apply Permutation_length in Hperm. discriminate.
Defined.

(** A checkout in reset mode.  [git checkout] is sent outside the [try]
    (line 245): when it fails the action fails with its error and nothing
    else is attempted.  Once it has succeeded, and provided the target
    itself can be reset to, the action succeeds and ends in a hard reset:
    to [origin/<target>] when the fetch and that reset succeed, and
    otherwise, as for a tag, to the target. *)
Theorem reset_checkout_falls_back (env : Env) (target : string) :
  (git_ok env [] (GitCheckout target) = false →
   run (git_operations env "checkout" target true)
   = (Raise (GitCommandError (GitCheckout target)),
      [EvPrint ("Checking out tag '" +:+ target +:+ "'...");
       EvGitFailed (GitCheckout target)]))
  ∧ (git_ok env [] (GitCheckout target) = true →
     (∀ h, git_ok env h (GitResetHard target) = true) →
     succeeded (run (git_operations env "checkout" target true)).1 = true
     ∧ last (git_events (trace_of (git_operations env "checkout" target true)))
       = Some (EvGit (GitResetHard
                        (if git_ok env [GitCheckout target] GitFetch
                            && git_ok env [GitCheckout target; GitFetch]
                                 (GitResetHard ("origin/" +:+ target))
                         then "origin/" +:+ target else target)))).
Proof.
  split.
  - intros Hcheckout. unfold run.
    unfold git_operations, bind, print, emit, git. simpl.
    by rewrite Hcheckout.
  - intros Hcheckout Hreset. unfold trace_of, run.
    unfold git_operations, bind, print, emit, try_except, ret, git. simpl.
    rewrite Hcheckout. simpl.
    destruct (git_ok env [GitCheckout target] GitFetch); simpl;
      [destruct (git_ok env [GitCheckout target; GitFetch]
                   (GitResetHard ("origin/" +:+ target))); simpl|];
      rewrite ?Hreset; done.
Qed.

Lemma reset_checkout_falls_back_witness :
  succeeded (run (git_operations tag_target_env "checkout" "v1.0" true)).1 = true
  ∧ last (git_events
            (trace_of (git_operations tag_target_env "checkout" "v1.0" true)))
    = Some (EvGit (GitResetHard
                     (if git_ok tag_target_env [GitCheckout "v1.0"] GitFetch
                         && git_ok tag_target_env [GitCheckout "v1.0"; GitFetch]
                              (GitResetHard ("origin/" +:+ "v1.0"))
                      then "origin/" +:+ "v1.0" else "v1.0"))).
Proof.
  destruct (reset_checkout_falls_back tag_target_env "v1.0") as [_ Hfalls].
  apply Hfalls.
  - reflexivity.
  - intros h. reflexivity.
Defined.

(** The checkout itself fails: the action fails, no reset is tried. *)
Example reset_checkout_fails_at_checkout :
  run (git_operations checkout_fails_env "checkout" "main" true)
  = (Raise (GitCommandError (GitCheckout "main")),
     [EvPrint "Checking out tag 'main'..."; EvGitFailed (GitCheckout "main")]).
Proof. reflexivity. Qed.

(** ** Running after events that are no git command *)

Section framed_facts.

Lemma framed_ret {A} (a : A) : framed (ret a).
Proof. by intros pre tr _. Qed.

Lemma framed_raise {A} (e : Exn) : framed (raise (A:=A) e).
Proof. by intros pre tr _. Qed.

Lemma framed_emit (e : Event) : framed (emit e).
Proof. intros pre tr _. unfold emit. simpl. by rewrite app_assoc. Qed.

Lemma framed_print (text : string) : framed (print text).
Proof. apply framed_emit. Qed.

Lemma framed_git (env : Env) (c : GitCmd) : framed (git env c).
Proof.
  intros pre tr Hpre. unfold git.
  rewrite git_history_app, Hpre. simpl.
  destruct (git_ok env (git_history tr) c); simpl; by rewrite app_assoc.
Qed.

Lemma framed_bind {A B} (m : M A) (k : A → M B) :
  framed m → (∀ a, framed (k a)) → framed (bind m k).
Proof.
  intros Hm Hk pre tr Hpre. unfold bind. rewrite (Hm pre tr Hpre).
  destruct (m tr) as [[a|e] tr1]; simpl; [|done].
  by rewrite (Hk a pre tr1 Hpre).
Qed.

Lemma framed_try_except {A} (m : M A) (handler : Exn → M A) :
  framed m → (∀ e, framed (handler e)) → framed (try_except m handler).
Proof.
  intros Hm Hh pre tr Hpre. unfold try_except. rewrite (Hm pre tr Hpre).
  destruct (m tr) as [[a|e] tr1]; simpl; [done|].
  by rewrite (Hh e pre tr1 Hpre).
Qed.

End framed_facts.

Ltac framed_step :=
  first
    [ apply framed_ret
    | apply framed_raise
    | apply framed_print
    | apply framed_emit
    | apply framed_git
    | apply framed_try_except; [|intros ?]
    | apply framed_bind; [|intros ?] ].

Ltac framed_walk := repeat first [ framed_step | case_match ].

Lemma framed_perform_update (env : Env) (selection : option Selection)
    (reset : bool) :
  framed (perform_update env selection reset).
Proof.
  unfold perform_update, git_operations, read_reqs, report_pyproject,
    report_reqs, read_reqs, install_requirements_uv, install_requirements.
  framed_walk.
Qed.

Lemma framed_from_prefix {A} (m : M A) (pre : list Event) :
  framed m → git_history pre = [] →
  m pre = ((run m).1, pre ++ trace_of m).
Proof.
  intros Hm Hpre. unfold trace_of, run.
  rewrite <-(Hm pre [] Hpre). by rewrite app_nil_r.
Qed.

(** ** [check_remote_updates] as a whole *)

Section check_remote_updates_facts.
Context {V : Type} (parse : string → option V) (vltb : V → V → bool).

Lemma build_choices_emits_prints (r : Repo) (reset : bool) :
  emits_only no_git (build_choices parse vltb r reset).
Proof. unfold build_choices, pull_choice. emits_only_walk. Qed.

Lemma framed_build_choices (r : Repo) (reset : bool) :
  framed (build_choices parse vltb r reset).
Proof. unfold build_choices, pull_choice. framed_walk. Qed.

Lemma git_history_no_git (tr : list Event) :
  Forall no_git tr → git_history tr = [].
Proof.
  induction 1 as [|e tr He _ IH]; [done|].
  unfold git_history in *. by destruct e.
Qed.

(** the whole run, once the repository is open and the fetch has worked *)
Lemma check_remote_updates_run (env : Env)
    (ask : list MenuItem → option Selection) (r : Repo) (reset : bool) :
  repo_open r = Opens → has_origin r = true → fetch_tags_ok r = true →
  run (check_remote_updates parse vltb env ask r reset)
  = (Ok tt,
     opening_messages r reset ++ trace_of (build_choices parse vltb r reset) ++
     match menu_of parse vltb r reset with
     | None => [EvReportError "An error occurred: " RepoError]
     | Some [] => [EvPrint "No updates available."]
     | Some choices =>
         match ask (choices ++ [Separator; Choice "Cancel" None]) with
         | None => [EvPrint "Cancelled."]
         | Some selection =>
             trace_of (perform_update env (Some selection) reset)
             ++ error_report (run (perform_update env (Some selection) reset)).1
         end
     end).
Proof.
  intros Hopen Horigin Hfetch.
  rewrite (app_assoc (opening_messages r reset)).
  unfold opening_messages.
  set (start := [EvPrint ("Remote URL: " +:+ removesuffix (remote_url r) ".git")]
                ++ (if reset then [EvPrint "Reset mode is enabled."] else [])
                ++ [EvPrint "Fetching latest info from remote (origin)..."]).
  pose proof (emits_only_trace _ _ (build_choices_emits_prints r reset))
    as Hprints.
  assert (Forall no_git start) as Hstart.
  { subst start. destruct reset; repeat constructor. }
  assert (∀ (k : M unit),
            try_except
              (bind (if has_origin r then ret tt else raise RepoError) (λ _,
               bind (print ("Remote URL: " +:+ removesuffix (remote_url r) ".git")) (λ _,
               bind (if reset then print "Reset mode is enabled." else ret tt) (λ _,
               bind (print "Fetching latest info from remote (origin)...") (λ _,
               bind (if fetch_tags_ok r then ret tt else raise RepoError) (λ _, k))))))
              (λ e, emit (EvReportError "An error occurred: " e)) []
            = try_except k (λ e, emit (EvReportError "An error occurred: " e))
                start) as Hstep.
  { intros k. rewrite Horigin, Hfetch. subst start. by destruct reset. }
  unfold run, check_remote_updates. rewrite Hopen, Hstep.
  unfold try_except, bind.
  rewrite (framed_from_prefix _ start (framed_build_choices r reset))
    by by apply git_history_no_git.
  unfold menu_of, trace_of.
  destruct (run (build_choices parse vltb r reset)) as [[choices|e] built] eqn:Hb;
    cbn [fst snd].
  - assert (git_history (start ++ built) = []) as Hhist.
    { apply git_history_no_git, Forall_app. split; [done|].
      unfold trace_of in Hprints. by rewrite Hb in Hprints. }
    destruct choices as [|choice choices]; cbn [length app bool_decide].
    + rewrite bool_decide_eq_true_2 by done.
      unfold print, emit. by rewrite <-app_assoc.
    + rewrite bool_decide_eq_false_2 by done.
      destruct (ask _) as [selection|].
      * rewrite (framed_from_prefix _ (start ++ built)
                   (framed_perform_update env (Some selection) reset) Hhist).
        unfold trace_of, run.
        destruct (perform_update env (Some selection) reset [])
          as [[[]|e] done_]; cbn [fst snd error_report].
        -- by rewrite app_nil_r.
        -- unfold emit. by rewrite <-!app_assoc.
      * unfold print, emit. by rewrite <-app_assoc.
  - assert (e = RepoError) as ->.
    { revert Hb. unfold run, build_choices, pull_choice, bind, print, emit,
        raise, ret.
      intros Hb. repeat (case_match; simplify_eq/=); done. }
    done.
Qed.

(** [check_remote_updates] carries out what was picked and nothing else.
    When the menu has entries and one is selected, what it prints and what
    it has [perform_update] do is: the opening messages, the messages of the
    menu builder, then the run of [perform_update] on that selection with
    the same reset flag, then the report of the error if that run raised
    one.  The function itself returns normally. *)
Theorem check_remote_updates_runs_selection (env : Env)
    (ask : list MenuItem → option Selection) (r : Repo) (reset : bool)
    (choices : list MenuItem) (selection : Selection) :
  repo_open r = Opens → has_origin r = true → fetch_tags_ok r = true →
  menu_of parse vltb r reset = Some choices → choices ≠ [] →
  ask (choices ++ [Separator; Choice "Cancel" None]) = Some selection →
  run (check_remote_updates parse vltb env ask r reset)
  = (Ok tt,
     opening_messages r reset ++ trace_of (build_choices parse vltb r reset)
     ++ trace_of (perform_update env (Some selection) reset)
     ++ error_report (run (perform_update env (Some selection) reset)).1).
Proof.
  intros Hopen Horigin Hfetch Hmenu Hnonempty Hask.
  rewrite (check_remote_updates_run env ask r reset Hopen Horigin Hfetch).
  rewrite Hmenu. destruct choices as [|choice choices]; [done|].
  by rewrite Hask.
Qed.

(** When nothing is picked [perform_update] is not started and the run ends
    normally with the message of the case: the path is no repository or
    cannot be opened, [origin] is missing, the fetch fails, building the
    menu raises, the menu is empty, or the user cancels. *)
Theorem check_remote_updates_without_selection (env : Env)
    (ask : list MenuItem → option Selection) (r : Repo) (reset : bool) :
  (repo_open r = InvalidGitRepository →
   run (check_remote_updates parse vltb env ask r reset)
   = (Ok tt, [EvPrint ("Error: '" +:+ repo_path r +:+ "' is not a Git repository.")]))
  ∧ (repo_open r = OpenFails →
     run (check_remote_updates parse vltb env ask r reset)
     = (Ok tt,
        [EvReportError
           ("Error: Failed to access Git repository at '" +:+ repo_path r +:+ "': ")
           RepoError]))
  ∧ (repo_open r = Opens → has_origin r = false →
     run (check_remote_updates parse vltb env ask r reset)
     = (Ok tt, [EvReportError "An error occurred: " RepoError]))
  ∧ (repo_open r = Opens → has_origin r = true → fetch_tags_ok r = false →
     run (check_remote_updates parse vltb env ask r reset)
     = (Ok tt,
        opening_messages r reset
        ++ [EvReportError "An error occurred: " RepoError]))
  ∧ (repo_open r = Opens → has_origin r = true → fetch_tags_ok r = true →
     (menu_of parse vltb r reset = None →
      run (check_remote_updates parse vltb env ask r reset)
      = (Ok tt,
         opening_messages r reset ++ trace_of (build_choices parse vltb r reset)
         ++ [EvReportError "An error occurred: " RepoError]))
     ∧ (menu_of parse vltb r reset = Some [] →
        run (check_remote_updates parse vltb env ask r reset)
        = (Ok tt,
           opening_messages r reset ++ trace_of (build_choices parse vltb r reset)
           ++ [EvPrint "No updates available."]))
     ∧ (∀ choices,
          menu_of parse vltb r reset = Some choices → choices ≠ [] →
          ask (choices ++ [Separator; Choice "Cancel" None]) = None →
          run (check_remote_updates parse vltb env ask r reset)
          = (Ok tt,
             opening_messages r reset
             ++ trace_of (build_choices parse vltb r reset)
             ++ [EvPrint "Cancelled."]))).
Proof.
  split_and!.
  - intros Hopen. unfold run, check_remote_updates. by rewrite Hopen.
  - intros Hopen. unfold run, check_remote_updates. by rewrite Hopen.
  - intros Hopen Horigin. unfold run, check_remote_updates.
    by rewrite Hopen, Horigin.
  - intros Hopen Horigin Hfetch.
    unfold run, check_remote_updates, opening_messages.
    rewrite Hopen, Horigin, Hfetch. by destruct reset.
  - intros Hopen Horigin Hfetch.
    rewrite (check_remote_updates_run env ask r reset Hopen Horigin Hfetch).
    split_and!.
    + by intros ->.
    + by intros ->.
    + intros choices -> Hnonempty Hask.
      destruct choices as [|choice choices]; [done|].
      by rewrite Hask.
Qed.

(** Without the reset flag [check_remote_updates] never has git reset the
    working tree ([git reset --hard]), and with the flag it never
    merge-pulls, whatever the user picks and whatever fails.  (What it
    sends to build the menu is a fetch and three queries, neither a reset
    nor a pull.) *)
Theorem check_remote_updates_commands_by_mode (env : Env)
    (ask : list MenuItem → option Selection) (r : Repo) (reset : bool) :
  Forall (if reset then forceful else not_reset_hard)
         (git_attempts
            (trace_of (check_remote_updates parse vltb env ask r reset))).
Proof.
  assert (Forall (if reset then forceful else gentle)
            (git_attempts
               (trace_of (check_remote_updates parse vltb env ask r reset))))
    as Hmode.
  { apply git_attempts_satisfy, emits_only_trace.
    unfold check_remote_updates, build_choices, pull_choice.
    repeat first [ apply perform_update_emits_by_mode
                 | emits_only_step | case_match | done ]. }
  destruct reset; [done|].
  eapply Forall_impl; [done|]. by intros [].
Qed.

End check_remote_updates_facts.

Lemma check_remote_updates_runs_selection_witness :
  run (check_remote_updates Pep440.parse Pep440.ltb quiet_env ask_pull
         behind_and_newer_tag false)
  = (Ok tt,
     opening_messages behind_and_newer_tag false
     ++ trace_of (build_choices Pep440.parse Pep440.ltb behind_and_newer_tag false)
     ++ trace_of (perform_update quiet_env (Some pull_main) false)
     ++ error_report (run (perform_update quiet_env (Some pull_main) false)).1).
Proof.
  eapply (check_remote_updates_runs_selection Pep440.parse Pep440.ltb quiet_env
            ask_pull behind_and_newer_tag false).
  - reflexivity.
  - reflexivity.
  - reflexivity.
  - reflexivity.
  - discriminate.
  - reflexivity.
Defined.

Lemma check_remote_updates_without_selection_witness :
  run (check_remote_updates Pep440.parse Pep440.ltb quiet_env (λ _, None)
         behind_and_newer_tag true)
  = (Ok tt,
     opening_messages behind_and_newer_tag true
     ++ trace_of (build_choices Pep440.parse Pep440.ltb behind_and_newer_tag true)
     ++ [EvPrint "Cancelled."]).
Proof.
  destruct (check_remote_updates_without_selection Pep440.parse Pep440.ltb
              quiet_env (λ _, None) behind_and_newer_tag true)
    as (_ & _ & _ & _ & Hopened).
  destruct Hopened as (_ & _ & Hcancel); [reflexivity..|].
  eapply Hcancel.
  - reflexivity.
  - discriminate.
  - reflexivity.
Defined.

(** Cancelling at the menu in reset mode: the messages, and nothing sent to
    the working tree. *)
Example cancel_at_the_menu :
  run (check_remote_updates Pep440.parse Pep440.ltb quiet_env (λ _, None)
         behind_and_newer_tag true)
  = (Ok tt,
     [EvPrint "Remote URL: https://example.org/project";
      EvPrint "Reset mode is enabled.";
      EvPrint "Fetching latest info from remote (origin)...";
      EvPrint "Currently checked out tag: main";
      EvPrint "Cancelled."]).
Proof. reflexivity. Qed.

(** ** More on the menu *)

Section menu_more.
Context {V : Type} (parse : string → option V) (vltb : V → V → bool).

Lemma default_entries_app (l1 l2 : list MenuItem) :
  default_entries (l1 ++ l2) = default_entries l1 ++ default_entries l2.
Proof. apply filter_app. Qed.

Lemma default_entries_tag_choices (tags : list string) :
  default_entries (tag_choice <$> tags) = [].
Proof.
  unfold default_entries. induction tags as [|tag tags IH]; [done|].
  by rewrite fmap_cons, filter_cons, decide_False.
Qed.

Lemma item_target_tag_choices (tags : list string) :
  omap item_target (tag_choice <$> tags) = tags.
Proof. induction tags as [|tag tags IH]; [done|]. simpl. by f_equal. Qed.

Lemma default_branch_choice_kind (r : Repo) (active : option string) :
  default_entries (default_branch_choice r active) = default_branch_choice r active
  ∧ length (default_branch_choice r active) ≤ 1.
Proof.
  unfold default_branch_choice. repeat case_match; simpl; split; done || lia.
Qed.

Lemma pull_choice_kind (r : Repo) (reset : bool)
    (active tracking : option string) (tr tr' : list Event)
    (pull : list MenuItem) :
  pull_choice r reset active tracking tr = (Ok pull, tr') →
  pull_entries pull = pull ∧ default_entries pull = [] ∧ length pull ≤ 1.
Proof.
  unfold pull_choice, ret, bind, print, emit, raise. intros Hrun.
  repeat (case_match; simplify_eq/=); split_and!; done || lia.
Qed.

Lemma latest_tag_choice_kind (latest current : option string) :
  default_entries (latest_tag_choice parse vltb latest current) = [].
Proof. unfold latest_tag_choice. by repeat case_match. Qed.

(** The entries come in a fixed order: at most one for the default branch,
    then at most one pull entry, then the tags; there is no other kind of
    entry. *)
Theorem menu_order (r : Repo) (reset : bool) (choices : list MenuItem) :
  menu_of parse vltb r reset = Some choices →
  choices = default_entries choices ++ pull_entries choices ++ tag_entries choices
  ∧ length (default_entries choices) ≤ 1
  ∧ length (pull_entries choices) ≤ 1.
Proof.
  intros Hmenu.
  destruct (menu_of_shape parse vltb r reset choices Hmenu)
    as (current_tags_str & pull & tr & tr' & _ & Hpull & ->).
  destruct (pull_choice_kind r reset _ _ _ _ _ Hpull)
    as (Hpull_pull & Hpull_default & Hpull_len).
  destruct (pull_choice_shape r reset _ _ _ _ _ Hpull) as [Hpull_tags _].
  destruct (default_branch_choice_entries r (menu_active_branch r))
    as [Hdefault_tags Hdefault_pull].
  destruct (default_branch_choice_kind r (menu_active_branch r))
    as [Hdefault_default Hdefault_len].
  destruct (latest_tag_choice_entries parse vltb
              (head (get_sorted_tags parse vltb (all_tag_names r)))
              (menu_current_tag (menu_active_branch r)
                 (current_tags_of current_tags_str)))
    as (Hlatest_tags & Hlatest_pull & _).
  rewrite !default_entries_app, !pull_entries_app, !tag_entries_app.
  rewrite Hdefault_default, Hdefault_pull, Hdefault_tags.
  rewrite Hpull_default, Hpull_pull, Hpull_tags.
  rewrite latest_tag_choice_kind, Hlatest_pull, Hlatest_tags.
  rewrite default_entries_tag_choices, pull_entries_tag_choices,
    tag_entries_tag_choices.
  simpl. rewrite !app_nil_r. split_and!; done.
Qed.

(** The entry for the remote's default branch is there exactly when the
    remote names a default branch and HEAD is detached or on another
    branch. *)
Theorem default_branch_entry_iff (r : Repo) (reset : bool)
    (choices : list MenuItem) (default_branch : string) :
  menu_of parse vltb r reset = Some choices →
  Choice ("★ Checkout and Pull latest remote (" +:+ default_branch +:+ ")")
         (Some (mkSelection "checkout_pull" default_branch)) ∈ choices
  ↔ remote_head_branch r = Some (Some default_branch)
    ∧ default_branch ≠ ""
    ∧ (head_is_detached r = true ∨ active_branch_name r ≠ default_branch).
Proof.
  intros Hmenu.
  set (entry := Choice _ _).
  assert (entry ∈ choices ↔ entry ∈ default_entries choices) as ->.
  { unfold default_entries. rewrite list_elem_of_filter. subst entry.
    split; [|by intros [_ ?]]. intros Hin. split; [|done].
    done. }
  destruct (menu_of_shape parse vltb r reset choices Hmenu)
    as (current_tags_str & pull & tr & tr' & _ & Hpull & ->).
  destruct (pull_choice_kind r reset _ _ _ _ _ Hpull) as (_ & Hpull_default & _).
  destruct (default_branch_choice_kind r (menu_active_branch r))
    as [Hdefault_default _].
  rewrite !default_entries_app, Hdefault_default, Hpull_default,
    latest_tag_choice_kind, default_entries_tag_choices.
  simpl. rewrite !app_nil_r.
  unfold default_branch_choice, menu_active_branch, truthy. subst entry.
  destruct (remote_head_branch r) as [[d|]|]; simpl.
  - destruct (String.eqb_spec d ""); simpl.
    + rewrite elem_of_nil. split; [done|]. intros (? & ? & ?). congruence.
    + destruct (head_is_detached r); simpl.
      * rewrite list_elem_of_singleton. split.
        -- intros ?; simplify_eq. split_and!; auto.
        -- intros (? & ? & ?). by simplify_eq.
      * destruct (String.eqb_spec (active_branch_name r) d); simpl.
        -- rewrite elem_of_nil. split; [done|].
           intros (? & ? & [?|?]); by simplify_eq.
        -- rewrite list_elem_of_singleton. split.
           ++ intros ?; simplify_eq. split_and!; auto.
           ++ intros (? & ? & ?). by simplify_eq.
  - rewrite elem_of_nil. split; [done|]. by intros (? & _).
  - rewrite elem_of_nil. split; [done|]. by intros (? & _).
Qed.

Lemma filter_not_head (x : string) (l : list string) :
  x ∉ l → filter (λ tag, Some tag ≠ Some x) l = l.
Proof.
  induction l as [|y l IH]; [done|].
  rewrite not_elem_of_cons. intros [Hne Hnotin].
  rewrite filter_cons, decide_True by congruence. by rewrite IH.
Qed.

(** When the repository's tag names are distinct, the tags the menu offers
    are the first ten entries of the index, in its order and each once: the
    newest, then the nine after it. *)
Theorem menu_tag_targets (r : Repo) (reset : bool) (choices : list MenuItem) :
  NoDup (all_tag_names r) → parse "" = None →
  menu_of parse vltb r reset = Some choices →
  omap item_target (tag_entries choices)
  = take 10 (get_sorted_tags parse vltb (all_tag_names r)).
Proof.
  intros Hnodup Hempty Hmenu.
  destruct (menu_of_shape parse vltb r reset choices Hmenu)
    as (current_tags_str & pull & tr & tr' & _ & Hpull & ->).
  destruct (pull_choice_shape r reset _ _ _ _ _ Hpull) as [Hpull_tags _].
  destruct (default_branch_choice_entries r (menu_active_branch r))
    as [Hdefault_tags _].
  destruct (latest_tag_choice_entries parse vltb
              (head (get_sorted_tags parse vltb (all_tag_names r)))
              (menu_current_tag (menu_active_branch r)
                 (current_tags_of current_tags_str)))
    as (Hlatest_tags & _ & _).
  rewrite !tag_entries_app, Hdefault_tags, Hpull_tags, Hlatest_tags,
    tag_entries_tag_choices.
  simpl. rewrite omap_app, item_target_tag_choices.
  destruct (get_sorted_tags_content parse vltb (all_tag_names r))
    as (Hmem & _ & Hdistinct & _).
  specialize (Hdistinct Hnodup).
  destruct (get_sorted_tags parse vltb (all_tag_names r))
    as [|newest rest] eqn:Hindex; [done|].
  assert (truthy newest = true) as Htruthy.
  { unfold truthy. destruct (String.eqb_spec newest ""); [|done]. subst.
    destruct (Hmem "") as [[_ [v Hv]] _]; [apply list_elem_of_here|].
    congruence. }
  apply NoDup_cons in Hdistinct as [Hnotin _].
  unfold latest_tag_choice. simpl. rewrite Htruthy. simpl.
  rewrite filter_cons, decide_False by (by intros Hne; apply Hne).
  rewrite filter_not_head; [done|].
  intros Hin. apply Hnotin.
  apply elem_of_take in Hin as (i & Hi & _). by eapply list_elem_of_lookup_2.
Qed.

End menu_more.

Lemma menu_order_witness :
  let choices := [Choice "★ Pull main (2 commits behind)"
                         (Some (mkSelection "pull" "main"));
                  Choice "1.3.0" (Some (mkSelection "checkout" "1.3.0"));
                  tag_choice "1.2.0"; tag_choice "0.9.0"] in
  choices = default_entries choices ++ pull_entries choices ++ tag_entries choices
  ∧ length (default_entries choices) ≤ 1
  ∧ length (pull_entries choices) ≤ 1.
Proof.
  apply (menu_order Pep440.parse Pep440.ltb behind_and_newer_tag false).
  reflexivity.
Defined.

Lemma default_branch_entry_iff_witness :
  Choice ("★ Checkout and Pull latest remote (" +:+ "main" +:+ ")")
         (Some (mkSelection "checkout_pull" "main"))
    ∈ [Choice "★ Checkout and Pull latest remote (main)"
              (Some (mkSelection "checkout_pull" "main"))]
  ↔ remote_head_branch on_feature_branch = Some (Some "main")
    ∧ "main" ≠ ""
    ∧ (head_is_detached on_feature_branch = true
       ∨ active_branch_name on_feature_branch ≠ "main").
Proof.
  apply (default_branch_entry_iff Pep440.parse Pep440.ltb on_feature_branch
           false).
  reflexivity.
Defined.

Lemma menu_tag_targets_witness :
  omap item_target
    (tag_entries (tag_choice <$> ["15"; "14"; "13"; "12"; "11"; "10"; "9"; "8";
                                  "7"; "6"]))
  = take 10 (get_sorted_tags Pep440.parse Pep440.ltb (all_tag_names fifteen_tags)).
Proof.
  apply (menu_tag_targets Pep440.parse Pep440.ltb fifteen_tags false).
  - apply (bool_decide_unpack _). vm_compute. exact I.
  - reflexivity.
  - reflexivity.
Defined.

(** ** More on the detector *)

Section detector_more.
Context {V : Type} (parse : string → option V) (vltb : V → V → bool).

(** how the result comes about, category by category *)
Lemma has_remote_updates_cases (r : Repo) :
  has_remote_updates parse vltb r
  = match repo_open r with
    | Opens =>
        if has_origin r && fetch_tags_ok r then
          match check_branch r with
          | Some (Some info) => (true, Some info)
          | Some None =>
              match check_tag parse vltb r with
              | Some (Some info) => (true, Some info)
              | Some None =>
                  match check_default_branch r with
                  | Some (Some info) => (true, Some info)
                  | _ => (false, None)
                  end
              | None => (false, None)
              end
          | None => (false, None)
          end
        else (false, None)
    | _ => (false, None)
    end.
Proof.
  unfold has_remote_updates, has_remote_updates_body.
  destruct (repo_open r); try done.
  destruct (has_origin r && fetch_tags_ok r); [|done].
  destruct (check_branch r) as [[?|]|]; simpl; try done.
  destruct (check_tag parse vltb r) as [[?|]|]; simpl; try done.
  by destruct (check_default_branch r) as [[?|]|].
Qed.

(** The flag says whether there is a candidate.  Whatever goes wrong on the
    way ends in "no update": a path that is no repository, a missing or
    unreachable remote, and an exception in a category that is reached.
    Such an exception also hides the categories after it: when the commits
    behind the tracked branch cannot be counted, a newer tag is not
    reported. *)
Theorem has_remote_updates_failures (r : Repo) :
  ((has_remote_updates parse vltb r).1 = true
   ↔ is_Some (has_remote_updates parse vltb r).2)
  ∧ (repo_open r ≠ Opens ∨ has_origin r = false ∨ fetch_tags_ok r = false →
     has_remote_updates parse vltb r = (false, None))
  ∧ (∀ tracking,
       head_is_detached r = false → tracking_branch r = Some tracking →
       count_commits r (active_branch_name r +:+ ".." +:+ tracking) = None →
       has_remote_updates parse vltb r = (false, None))
  ∧ (check_branch r = Some None → tags_pointing_at_head r = None →
     has_remote_updates parse vltb r = (false, None))
  ∧ (check_branch r = Some None → check_tag parse vltb r = Some None →
     remote_head_branch r = None →
     has_remote_updates parse vltb r = (false, None)).
Proof.
  rewrite has_remote_updates_cases. split_and!.
  - repeat case_match; simpl; split; try done; try (by intros [??]); eauto.
  - intros [Hopen|[Horigin|Hfetch]].
    + by destruct (repo_open r).
    + rewrite Horigin. by destruct (repo_open r).
    + rewrite Hfetch, andb_false_r. by destruct (repo_open r).
  - intros tracking Hattached Htracking Hcount.
    assert (check_branch r = None) as ->.
    { unfold check_branch. by rewrite Hattached, Htracking, Hcount. }
    by repeat case_match.
  - intros -> Htags.
    assert (check_tag parse vltb r = None) as ->.
    { unfold check_tag. by rewrite Htags. }
    by repeat case_match.
  - intros -> -> Hshow.
    assert (check_default_branch r = None) as ->.
    { unfold check_default_branch. by rewrite Hshow. }
    by repeat case_match.
Qed.

(** What a candidate says is true of the repository.  A branch candidate is
    for the active branch and its tracking branch, with the positive number
    of commits it is behind.  A tag candidate names a tag at HEAD and the
    first entry of the index, which is strictly newer.  A default-branch
    candidate names the branch the remote advertises, with the positive
    number of commits HEAD is behind it. *)
Theorem has_remote_updates_candidate (r : Repo) (info : UpdateInfo) :
  has_remote_updates parse vltb r = (true, Some info) →
  (u_type info = "branch"
   ∧ head_is_detached r = false
   ∧ u_current info = active_branch_name r
   ∧ tracking_branch r = Some (u_latest info)
   ∧ ∃ behind, u_behind_count info = Some behind ∧ 0 < behind
       ∧ count_commits r (u_current info +:+ ".." +:+ u_latest info)
         = Some behind)
  ∨ (u_type info = "tag"
     ∧ u_behind_count info = None
     ∧ head (get_sorted_tags parse vltb (all_tag_names r)) = Some (u_latest info)
     ∧ strictly_newer parse vltb (u_latest info) (u_current info)
     ∧ ∃ current_tags_str,
         tags_pointing_at_head r = Some current_tags_str
         ∧ u_current info ∈ current_tags_of current_tags_str)
  ∨ (u_type info = "default_branch"
     ∧ u_current info = "HEAD"
     ∧ remote_head_branch r = Some (Some (u_latest info))
     ∧ ∃ behind, u_behind_count info = Some behind ∧ 0 < behind
         ∧ count_commits r ("HEAD..origin/" +:+ u_latest info) = Some behind).
Proof.
  rewrite has_remote_updates_cases. intros Hresult.
  destruct (repo_open r); try done.
  destruct (has_origin r && fetch_tags_ok r); [|done].
  destruct (check_branch r) as [[b|]|] eqn:Hbranch; simplify_eq.
  { left. unfold check_branch in Hbranch.
    destruct (head_is_detached r); simpl in Hbranch; [done|].
    destruct (tracking_branch r) as [tracking|]; [|done].
    destruct (count_commits r _) as [behind|] eqn:Hcount; simpl in Hbranch;
      [|done].
    case_bool_decide; simplify_eq. simpl. split_and!; try done. eauto. }
  destruct (check_tag parse vltb r) as [[t|]|] eqn:Htag; simplify_eq.
  { right; left. unfold check_tag in Htag.
    destruct (tags_pointing_at_head r) as [current_tags_str|]; simpl in Htag;
      [|done].
    destruct (head (get_sorted_tags parse vltb (all_tag_names r)))
      as [latest|] eqn:Hhead; [|done].
    destruct (detector_current_tag r (current_tags_of current_tags_str))
      as [current|] eqn:Hcurrent; [|done].
    destruct (truthy latest && truthy current); [|done].
    destruct (version_gt parse vltb latest current) as [[|]|] eqn:Hgt;
      simplify_eq.
    simpl. split_and!; try done.
    - unfold version_gt in Hgt.
      destruct (parse latest) as [vl|] eqn:Hl; simpl in Hgt; [|done].
      destruct (parse current) as [vc|] eqn:Hc; simpl in Hgt; [|done].
      exists vl, vc. by simplify_eq.
    - exists current_tags_str. split; [done|].
      destruct (current_tags_of current_tags_str) as [|first rest]; [done|].
      destruct (detector_current_tag_rule r first rest)
        as (_ & _ & tag & Htag & Hin).
      by simplify_eq. }
  destruct (check_default_branch r) as [[d|]|] eqn:Hdefault; simplify_eq.
  right; right. unfold check_default_branch in Hdefault.
  destruct (remote_head_branch r) as [[default_branch|]|]; simpl in Hdefault;
    try done.
  destruct (truthy default_branch); [|done].
  destruct (count_commits r _) as [behind|] eqn:Hcount; [|done].
  case_bool_decide; simplify_eq. simpl. split_and!; try done. eauto.
Qed.

End detector_more.

Lemma has_remote_updates_candidate_witness :
  let info := mkUpdateInfo "tag" "1.2.0" "1.3.0" None "1.2.0 -> 1.3.0" in
  let r := up_to_date_newer_tag in
  (u_type info = "branch"
   ∧ head_is_detached r = false
   ∧ u_current info = active_branch_name r
   ∧ tracking_branch r = Some (u_latest info)
   ∧ ∃ behind, u_behind_count info = Some behind ∧ 0 < behind
       ∧ count_commits r (u_current info +:+ ".." +:+ u_latest info)
         = Some behind)
  ∨ (u_type info = "tag"
     ∧ u_behind_count info = None
     ∧ head (get_sorted_tags Pep440.parse Pep440.ltb (all_tag_names r))
       = Some (u_latest info)
     ∧ strictly_newer Pep440.parse Pep440.ltb (u_latest info) (u_current info)
     ∧ ∃ current_tags_str,
         tags_pointing_at_head r = Some current_tags_str
         ∧ u_current info ∈ current_tags_of current_tags_str)
  ∨ (u_type info = "default_branch"
     ∧ u_current info = "HEAD"
     ∧ remote_head_branch r = Some (Some (u_latest info))
     ∧ ∃ behind, u_behind_count info = Some behind ∧ 0 < behind
         ∧ count_commits r ("HEAD..origin/" +:+ u_latest info) = Some behind).
Proof.
  apply (has_remote_updates_candidate Pep440.parse Pep440.ltb
           up_to_date_newer_tag).
  reflexivity.
Defined.

Example counting_failure_hides_newer_tag :
  has_remote_updates Pep440.parse Pep440.ltb counting_fails = (false, None)
  ∧ check_tag Pep440.parse Pep440.ltb counting_fails
    = Some (Some (mkUpdateInfo "tag" "1.2.0" "1.3.0" None "1.2.0 -> 1.3.0")).
Proof. split; reflexivity. Qed.


(** ** The installer front ends *)

Lemma ends_with_here {A} (t : list A) : ∃ front, t = front ++ t.
Proof. by exists []. Qed.

Lemma ends_with_cons {A} (x : A) (l t : list A) :
  (∃ front, l = front ++ t) → ∃ front, x :: l = front ++ t.
Proof. intros [front ->]. by exists (x :: front). Qed.

Ltac ends_with := repeat first [ apply ends_with_here | apply ends_with_cons ].

Section installer_menu.
Context (format_path : string → string).

(** The install menu always ends with a separator and Cancel.  The [uv]
    entries come first and only when [uv] is found, [uv add] only when there
    is a [pyproject.toml]; the interpreters offered are the running one and,
    when a virtual environment with another python was found, that one.
    Building the menu fails only when a virtual environment was found and
    the running interpreter is unknown. *)
Theorem install_choices_content (uv_installed pyproject_isfile : bool)
    (current_python venv_python : option string) :
  match Installer.install_choices format_path uv_installed pyproject_isfile
          current_python venv_python with
  | Some items =>
      (∃ front, items = front ++ [Installer.Separator;
                                  Installer.Choice "Cancel" None])
      ∧ Installer.ic_command
          <$> filter (λ cmd, Installer.ic_type cmd = "uv") (Installer.offered items)
        = (if uv_installed
           then "uv pip install" :: (if pyproject_isfile then ["uv add"] else [])
           else [])
      ∧ Some <$> (Installer.ic_command
                    <$> filter (λ cmd, Installer.ic_type cmd = "python")
                               (Installer.offered items))
        = (if truthy_opt venv_python && bool_decide (venv_python ≠ current_python)
           then [current_python; venv_python]
           else if truthy_opt current_python then [current_python] else [])
      ∧ (∀ cmd, cmd ∈ Installer.offered items →
                Installer.ic_type cmd = "uv" ∨ Installer.ic_type cmd = "python")
  | None => truthy_opt venv_python = true ∧ current_python = None
  end.
Proof.
  unfold Installer.install_choices, Installer.python_choices,
    Installer.uv_choices.
  destruct venv_python as [venv|], current_python as [current|]; simpl;
    destruct uv_installed, pyproject_isfile; simpl;
    repeat case_match; simplify_eq/=;
    first
      [ done
      | by rewrite andb_true_r in *
      | split_and!;
        [ ends_with
        | done
        | done
        | intros cmd; rewrite list_elem_of_In; simpl;
          intuition (subst; simpl; auto) ] ].
Qed.

End installer_menu.

Section installer_runs.
Context (subprocess_run : list string → Installer.RunResult).

(** [install_requirements] starts at most one subprocess, and what it starts
    installs from the file it was given: the arguments end in [-r] and the
    path.  A cancelled choice starts none.  A command that returns a
    non-zero status is reported, not raised: only another exception leaves
    the function.  The success message is printed exactly when a choice was
    made and no started command failed. *)
Theorem install_requirements_runs (install_cmd : option Installer.InstallCmd)
    (requirements_path : string) :
  let result :=
    Installer.install_requirements install_cmd requirements_path subprocess_run in
  length (Installer.commands result.1) ≤ 1
  ∧ (∀ args, args ∈ Installer.commands result.1 →
             ∃ front, args = front ++ ["-r"; requirements_path])
  ∧ (install_cmd = None → Installer.commands result.1 = [])
  ∧ (result.2 = false
     ↔ ∃ args, args ∈ Installer.commands result.1
               ∧ subprocess_run args = Installer.RunOtherError)
  ∧ (Installer.IPrint "Requirements installed successfully." ∈ result.1
     ↔ is_Some install_cmd
       ∧ ∀ args, args ∈ Installer.commands result.1
                 → subprocess_run args = Installer.RunOk).
Proof.
  unfold Installer.install_requirements, Installer.run_checked.
  destruct install_cmd as [cmd|]; cbv zeta.
  2:{ simpl. split_and!; try done; try lia.
      - by intros args ?%elem_of_nil.
      - split; [done|]. by intros (args & ?%elem_of_nil & _).
      - rewrite list_elem_of_singleton. split; [done|]. by intros [[??] _]. }
  repeat case_match; simplify_eq/=.
  all: split_and!.
  all: try (simpl; lia).
  all: try (intros ?; discriminate).
  all: try (intros args Hin; apply list_elem_of_In in Hin; simpl in Hin;
            destruct Hin as [<-|[]]; ends_with).
  all: try (by intros args ?%elem_of_nil).
  all: try (split;
            [ intros Heq;
              first [ discriminate
                    | eexists; split; [apply list_elem_of_here|done] ]
            | intros (args & Hin & Hrun);
              apply list_elem_of_In in Hin; simpl in Hin;
              intuition (subst; congruence) ]).
  all: try (split;
            [ intros Hin; apply list_elem_of_In in Hin; simpl in Hin;
              split; [by eexists|];
              intros args Hargs; apply list_elem_of_In in Hargs;
              simpl in Hargs; intuition (subst; try discriminate; done)
            | intros [_ Hall];
              first
                [ apply list_elem_of_In; simpl; tauto
                | specialize (Hall _ (list_elem_of_here _ _)); congruence ] ]).
Qed.
(** For every entry of the install menu, [install_requirements] starts
    exactly one subprocess: [uv pip install -r], [uv add -r], or the chosen
    interpreter with [-m pip install -r]. *)
Theorem install_requirements_of_menu (format_path : string → string)
    (uv_installed pyproject_isfile : bool)
    (current_python venv_python : option string)
    (items : list Installer.Item) (cmd : Installer.InstallCmd)
    (requirements_path : string) :
  Installer.install_choices format_path uv_installed pyproject_isfile
    current_python venv_python = Some items →
  cmd ∈ Installer.offered items →
  Installer.commands
    (Installer.install_requirements (Some cmd) requirements_path subprocess_run).1
  = [if String.eqb (Installer.ic_type cmd) "python"
     then [Installer.ic_command cmd; "-m"; "pip"; "install"; "-r";
           requirements_path]
     else if String.eqb (Installer.ic_command cmd) "uv add"
          then ["uv"; "add"; "-r"; requirements_path]
          else ["uv"; "pip"; "install"; "-r"; requirements_path]].
Proof.
  unfold Installer.install_choices, Installer.python_choices,
    Installer.uv_choices.
  intros Hitems Hin.
  assert (cmd = Installer.mkInstallCmd "uv" "uv pip install" "uv pip install"
          ∨ cmd = Installer.mkInstallCmd "uv" "uv add" "uv add"
          ∨ Installer.ic_type cmd = "python") as Hkind.
  { destruct venv_python as [venv|], current_python as [current|];
      destruct uv_installed, pyproject_isfile; simpl in Hitems;
      repeat (case_match; simplify_eq/=); simplify_eq/=;
      revert Hin; rewrite list_elem_of_In; simpl;
      intuition (subst; simpl; auto). }
  unfold Installer.install_requirements, Installer.run_checked.
  destruct Hkind as [->|[->|Hpython]]; simpl.
  - by destruct (subprocess_run _).
  - by destruct (subprocess_run _).
  - rewrite Hpython. simpl. by destruct (subprocess_run _).
Qed.

(** [install_requirements_uv] runs [uv sync] only on the answer "sync", and
    then answers "sync" whether or not the command worked; "requirements"
    is passed on, anything else counts as a cancel. *)
Theorem install_requirements_uv_answers (selection : option string) :
  let result := Installer.install_requirements_uv selection subprocess_run in
  Installer.commands result.1
  = (if bool_decide (selection = Some "sync") then [["uv"; "sync"]] else [])
  ∧ (subprocess_run ["uv"; "sync"] ≠ Installer.RunOtherError →
     result.2 = Some (if bool_decide (selection = Some "sync") then UvSync
                      else if bool_decide (selection = Some "requirements")
                           then UvRequirements else UvCancelled))
  ∧ (selection ≠ Some "sync" → result.1 = []).
Proof.
  unfold Installer.install_requirements_uv, Installer.run_checked.
  repeat case_bool_decide; simplify_eq/=;
    destruct (subprocess_run ["uv"; "sync"]); simpl; split_and!; done.
Qed.

End installer_runs.

Lemma install_requirements_of_menu_witness :
  Installer.commands
    (Installer.install_requirements
       (Some (Installer.mkInstallCmd "uv" "uv add" "uv add"))
       "requirements.txt" (λ _, Installer.RunCalledProcessError)).1
  = [["uv"; "add"; "-r"; "requirements.txt"]].
Proof.
  apply (install_requirements_of_menu (λ _, Installer.RunCalledProcessError)
           id true true (Some "/usr/bin/python3") None
           [Installer.Choice "uv pip install"
              (Some (Installer.mkInstallCmd "uv" "uv pip install" "uv pip install"));
            Installer.Choice "uv add"
              (Some (Installer.mkInstallCmd "uv" "uv add" "uv add"));
            Installer.Separator;
            Installer.Choice "Current Python (/usr/bin/python3)"
              (Some (Installer.mkInstallCmd "python" "/usr/bin/python3"
                       "Current Python (/usr/bin/python3)"));
            Installer.Separator; Installer.Choice "Cancel" None]).
  - reflexivity.
  - rewrite list_elem_of_In. simpl. tauto.
Defined.

(** An entry of type [uv] with a command the function does not know starts
    nothing and still prints the success message. *)
Example install_requirements_unknown_uv_command :
  Installer.install_requirements
    (Some (Installer.mkInstallCmd "uv" "uv sync" "uv sync")) "requirements.txt"
    (λ _, Installer.RunCalledProcessError)
  = ([Installer.IPrint "Installing requirements using: uv sync";
      Installer.IPrint "Requirements installed successfully."], true).
Proof. reflexivity. Qed.

(** ** The search for a virtual environment *)

Section venv_search.
Context (os : Installer.OsPath).

Lemma venv_named_sound (search_path name exe : string) :
  Installer.venv_named os search_path name = Some exe →
  Installer.isdir os (Installer.join os search_path name) = true
  ∧ exe = Installer.python_exe os (Installer.join os search_path name)
  ∧ Installer.isfile os exe = true.
Proof.
  unfold Installer.venv_named.
  destruct (Installer.isdir os _) eqn:Hdir; [|done].
  destruct (Installer.isfile os _) eqn:Hfile; [|done].
  intros ?; by simplify_eq.
Qed.

Lemma venv_in_sound (search_path exe : string) :
  Installer.venv_in os search_path = Some exe →
  ∃ name,
    (name = ".venv" ∨ name = "venv")
    ∧ Installer.isdir os (Installer.join os search_path name) = true
    ∧ exe = Installer.python_exe os (Installer.join os search_path name)
    ∧ Installer.isfile os exe = true.
Proof.
  unfold Installer.venv_in.
  destruct (Installer.venv_named os search_path ".venv") as [dot|] eqn:Hdot.
  - intros ?; simplify_eq. exists ".venv". split; [by left|].
    by apply venv_named_sound.
  - intros Hvenv. exists "venv". split; [by right|].
    by apply venv_named_sound.
Qed.

Lemma find_venv_origin (fuel : nat) (search_path : string)
    (venv_python : option string) (exe : string) :
  Installer.find_venv os fuel search_path venv_python = Some (Some exe) →
  venv_python = Some exe
  ∨ ∃ k, k < fuel
         ∧ Installer.venv_in os (Installer.ancestor os k search_path) = Some exe.
Proof.
  revert search_path venv_python.
  induction fuel as [|fuel IH]; intros search_path venv_python;
    cbn [Installer.find_venv]; [done|].
  destruct (truthy search_path); [|intros; simplify_eq; by left].
  destruct (Installer.venv_in os search_path) as [found|] eqn:Hfound.
  - destruct (truthy_opt (Some found)).
    { intros ?; simplify_eq. right. exists 0. split; [lia|done]. }
    destruct (String.eqb _ _).
    { intros ?; simplify_eq. right. exists 0. split; [lia|done]. }
    intros [?|(k & Hk & Hvenv)]%IH.
    + simplify_eq. right. exists 0. split; [lia|done].
    + right. exists (S k). split; [lia|done].
  - destruct (truthy_opt venv_python); [intros; simplify_eq; by left|].
    destruct (String.eqb _ _); [intros; simplify_eq; by left|].
    intros [?|(k & Hk & Hvenv)]%IH; [by left|].
    right. exists (S k). split; [lia|done].
Qed.

(** A python the search returns is a file, and it is the python of a
    [.venv] or [venv] directory in the start directory or one of its
    parents. *)
Theorem find_venv_sound (fuel : nat) (search_path exe : string) :
  Installer.find_venv os fuel search_path None = Some (Some exe) →
  ∃ k name,
    k < fuel
    ∧ (name = ".venv" ∨ name = "venv")
    ∧ Installer.isdir os
        (Installer.join os (Installer.ancestor os k search_path) name) = true
    ∧ exe = Installer.python_exe os
              (Installer.join os (Installer.ancestor os k search_path) name)
    ∧ Installer.isfile os exe = true.
Proof.
  intros [?|(k & Hk & Hvenv)]%find_venv_origin; [done|].
  apply venv_in_sound in Hvenv as (name & ? & ? & ? & ?).
  exists k, name. done.
Qed.

(** The search stops at the nearest directory, going up from the start,
    that has a python in [.venv] or [venv], and prefers [.venv] there. *)
Theorem find_venv_nearest (fuel k : nat) (search_path exe : string) :
  k < fuel →
  (∀ j, j < k →
        truthy (Installer.ancestor os j search_path) = true
        ∧ Installer.venv_in os (Installer.ancestor os j search_path) = None
        ∧ Installer.dirname os (Installer.ancestor os j search_path)
          ≠ Installer.ancestor os j search_path) →
  truthy (Installer.ancestor os k search_path) = true →
  Installer.venv_in os (Installer.ancestor os k search_path) = Some exe →
  truthy exe = true →
  Installer.find_venv os fuel search_path None = Some (Some exe)
  ∧ (∀ dot_exe,
       Installer.venv_named os (Installer.ancestor os k search_path) ".venv"
       = Some dot_exe → exe = dot_exe).
Proof.
  intros Hfuel Hbelow Htruthy Hvenv Hexe. split.
  - revert fuel search_path Hfuel Hbelow Htruthy Hvenv.
    induction k as [|k IH]; intros fuel search_path Hfuel Hbelow Htruthy Hvenv;
      (destruct fuel as [|fuel]; [lia|]);
      cbn [Installer.find_venv Installer.ancestor] in *.
    + rewrite Htruthy, Hvenv. cbn [truthy_opt]. by rewrite Hexe.
    + destruct (Hbelow 0) as (Htruthy0 & Hvenv0 & Hparent0); [lia|].
      cbn [Installer.ancestor] in *. rewrite Htruthy0, Hvenv0.
      cbn [truthy_opt].
      destruct (String.eqb_spec (Installer.dirname os search_path) search_path);
        [done|].
      apply IH; [lia| |done..].
      intros j Hj. apply (Hbelow (S j)). lia.
  - intros dot_exe Hdot. unfold Installer.venv_in in Hvenv.
    rewrite Hdot in Hvenv. by simplify_eq.
Qed.

(** When no directory from the start up to the root has such a python, the
    search ends at the root with nothing found. *)
Theorem find_venv_none (fuel k : nat) (search_path : string) :
  k < fuel →
  (∀ j, j ≤ k →
        Installer.venv_in os (Installer.ancestor os j search_path) = None) →
  (∀ j, j < k →
        truthy (Installer.ancestor os j search_path) = true
        ∧ Installer.dirname os (Installer.ancestor os j search_path)
          ≠ Installer.ancestor os j search_path) →
  truthy (Installer.ancestor os k search_path) = false
  ∨ Installer.dirname os (Installer.ancestor os k search_path)
    = Installer.ancestor os k search_path →
  Installer.find_venv os fuel search_path None = Some None.
Proof.
  revert fuel search_path.
  induction k as [|k IH]; intros fuel search_path Hfuel Hnone Hbelow Hroot;
    (destruct fuel as [|fuel]; [lia|]);
    cbn [Installer.find_venv Installer.ancestor] in *.
  - pose proof (Hnone 0 ltac:(lia)) as Hnone0.
    cbn [Installer.ancestor] in Hnone0. rewrite Hnone0. cbn [truthy_opt].
    destruct (truthy search_path); [|done].
    destruct Hroot as [?| ->]; [done|]. by rewrite String.eqb_refl.
  - destruct (Hbelow 0) as (Htruthy0 & Hparent0); [lia|].
    pose proof (Hnone 0 ltac:(lia)) as Hnone0.
    cbn [Installer.ancestor] in *. rewrite Htruthy0, Hnone0.
    cbn [truthy_opt].
    destruct (String.eqb_spec (Installer.dirname os search_path) search_path);
      [done|].
    apply IH; [lia| | |done].
    + intros j Hj. apply (Hnone (S j)). lia.
    + intros j Hj. apply (Hbelow (S j)). lia.
Qed.

End venv_search.

Lemma find_venv_sound_witness :
  ∃ k name,
    k < 10
    ∧ (name = ".venv" ∨ name = "venv")
    ∧ Installer.isdir posix_example
        (Installer.join posix_example
           (Installer.ancestor posix_example k "/home/u/proj/src") name) = true
    ∧ "/home/u/proj/venv/bin/python"
      = Installer.python_exe posix_example
          (Installer.join posix_example
             (Installer.ancestor posix_example k "/home/u/proj/src") name)
    ∧ Installer.isfile posix_example "/home/u/proj/venv/bin/python" = true.
Proof.
  apply (find_venv_sound posix_example 10 "/home/u/proj/src"
           "/home/u/proj/venv/bin/python").
  reflexivity.
Defined.

Lemma find_venv_nearest_witness :
  Installer.find_venv posix_example 10 "/home/u/proj/src" None
  = Some (Some "/home/u/proj/venv/bin/python")
  ∧ (∀ dot_exe,
       Installer.venv_named posix_example
         (Installer.ancestor posix_example 1 "/home/u/proj/src") ".venv"
       = Some dot_exe → "/home/u/proj/venv/bin/python" = dot_exe).
Proof.
  apply (find_venv_nearest posix_example 10 1 "/home/u/proj/src"
           "/home/u/proj/venv/bin/python").
  - lia.
  - intros j Hj. assert (j = 0) as -> by lia.
    split; [reflexivity|]. split; [reflexivity|]. discriminate.
  - reflexivity.
  - reflexivity.
  - reflexivity.
Defined.

Lemma find_venv_none_witness :
  Installer.find_venv posix_example 10 "/home" None = Some None.
Proof.
  apply (find_venv_none posix_example 10 1 "/home").
  - lia.
  - intros j Hj. assert (j = 0 ∨ j = 1) as [-> | ->] by lia; reflexivity.
  - intros j Hj. assert (j = 0) as -> by lia.
    split; [reflexivity|]. discriminate.
  - right. reflexivity.
Defined.

(** ** The tags at HEAD *)

Lemma string_app_cons (c : ascii) (s t : string) :
  String c s +:+ t = String c (s +:+ t).
Proof. reflexivity. Qed.

Lemma string_app_nil_l (s : string) : "" +:+ s = s.
Proof. reflexivity. Qed.

Lemma string_app_nil_r (s : string) : s +:+ "" = s.
Proof.
  induction s as [|c s IH]; [done|]. by rewrite string_app_cons, IH.
Qed.

Lemma rev_app_app (a b s : string) :
  String.rev_app a b +:+ s = String.rev_app a (b +:+ s).
Proof.
  revert b. induction a as [|c a IH]; intros b; simpl; [done|].
  by rewrite IH.
Qed.

Lemma rev_app_rev_app (t a b : string) :
  String.rev_app (String.rev_app t a) b = String.rev_app a (t +:+ b).
Proof.
  revert a b. induction t as [|c t IH]; intros a b; simpl; [done|].
  by rewrite IH.
Qed.

Lemma split_newline_go_nonempty (cur s : string) : split_newline_go cur s ≠ [].
Proof.
  revert cur. induction s as [|c s IH]; intros cur; simpl; [done|].
  by destruct (Ascii.eqb c "010"%char).
Qed.

Lemma join_newline_cons (s : string) (l : list string) :
  l ≠ [] → join_newline (s :: l) = s +:+ nl +:+ join_newline l.
Proof. by destruct l. Qed.

Lemma join_split_newline_go (cur s : string) :
  join_newline (split_newline_go cur s) = String.rev cur +:+ s.
Proof.
  revert cur. induction s as [|c s IH]; intros cur; simpl.
  { by rewrite string_app_nil_r. }
  destruct (Ascii.eqb_spec c "010"%char) as [->|Hc].
  - rewrite join_newline_cons by apply split_newline_go_nonempty.
    by rewrite IH.
  - rewrite IH. unfold String.rev. simpl. by rewrite !rev_app_app.
Qed.

Lemma has_newline_rev_app (a b : string) :
  has_newline a = false → has_newline b = false →
  has_newline (String.rev_app a b) = false.
Proof.
  revert b. induction a as [|c a IH]; intros b Ha Hb; simpl in *; [done|].
  apply orb_false_iff in Ha as [Hc Ha]. apply IH; [done|]. simpl.
  by rewrite Hc, Hb.
Qed.

Lemma split_newline_go_pieces (cur s : string) :
  has_newline cur = false →
  Forall (λ t, has_newline t = false) (split_newline_go cur s).
Proof.
  revert cur. induction s as [|c s IH]; intros cur Hcur; simpl.
  { constructor; [|done]. by apply has_newline_rev_app. }
  destruct (Ascii.eqb c "010"%char) eqn:Hc.
  - constructor; [by apply has_newline_rev_app|]. by apply IH.
  - apply IH. simpl. by rewrite Hc, Hcur.
Qed.

Lemma split_newline_go_app (cur t s : string) :
  has_newline t = false →
  split_newline_go cur (t +:+ s) = split_newline_go (String.rev_app t cur) s.
Proof.
  revert cur. induction t as [|c t IH]; intros cur Ht; [done|].
  simpl in Ht. apply orb_false_iff in Ht as [Hc Ht].
  rewrite string_app_cons. simpl. rewrite Hc. by apply IH.
Qed.

Lemma split_join_newline (tag : string) (tags : list string) :
  Forall (λ t, has_newline t = false) (tag :: tags) →
  split_newline (join_newline (tag :: tags)) = tag :: tags.
Proof.
  revert tag. induction tags as [|next tags IH]; intros tag Hall.
  - simpl. unfold split_newline.
    rewrite <-(string_app_nil_r tag) at 1.
    rewrite split_newline_go_app by by inversion Hall.
    simpl. unfold String.rev. by rewrite rev_app_rev_app, string_app_nil_r.
  - rewrite join_newline_cons by done.
    unfold split_newline.
    rewrite split_newline_go_app by by inversion Hall.
    unfold nl. rewrite string_app_cons, string_app_nil_l. simpl.
    unfold String.rev at 1.
    rewrite rev_app_rev_app, string_app_nil_r. f_equal.
    apply (IH next). by inversion Hall.
Qed.

(** Reading the output of [git tag --points-at] loses nothing: the tags
    found, joined by newlines, are the output again, none of them holds a
    newline, and there are none exactly when the output is empty.  The other
    way round, a non-empty output made of tag names, one a line, is read
    back as those names. *)
Theorem current_tags_of_round_trip (current_tags_str : string) :
  join_newline (current_tags_of current_tags_str) = current_tags_str
  ∧ Forall (λ tag, has_newline tag = false) (current_tags_of current_tags_str)
  ∧ (current_tags_of current_tags_str = [] ↔ current_tags_str = "")
  ∧ (∀ tags,
       Forall (λ tag, has_newline tag = false) tags →
       current_tags_str = join_newline tags → current_tags_str ≠ "" →
       current_tags_of current_tags_str = tags).
Proof.
  unfold current_tags_of, truthy.
  destruct (String.eqb_spec current_tags_str "") as [->|Hne]; simpl.
  - split_and!; try done.
  - split_and!.
    + unfold split_newline. by rewrite join_split_newline_go.
    + by apply split_newline_go_pieces.
    + split; [|done]. intros Hnil. by apply split_newline_go_nonempty in Hnil.
    + intros tags Hall -> _. destruct tags as [|tag tags]; [done|].
      by apply split_join_newline.
Qed.
